(** * refconverter: the XML to BibTeX conversion core

    A shallow embedding of the two converters of the repository,
    [XMLConverter] (the JavaScript converter) and [ConversionEngine] (the
    TypeScript engine), and of [ExternalAPIManager], followed by the
    properties of the specification that were checked against them.

    Conventions of the embedding:
    - a JavaScript string is a [string] of 8-bit characters; the character
      classes of the regular expressions ([\s], [\d], [a-zA-Z], [\b]) and
      [toLowerCase]/[toUpperCase] are the ASCII ones;
    - a plain object is the list of its own properties in insertion
      order; [undefined] is the absent key; a read with a computed name
      also finds the members that the object inherits from
      [Object.prototype] ([Js.lookup]);
    - an XML document is a tree of elements and text nodes; the CSS
      selectors that the code writes are kept in parsed form, and a
      selector text that comes from the options is read when it is a
      name;
    - a method that reads [this.config] takes the configuration as its
      first argument, a method that updates the registries or the error
      list returns the new state. *)

From Stdlib Require Import Ascii String List ZArith Lia Bool.
From Stdlib Require Import DecimalString DecimalNat Floats.
From stdpp Require Import base option list gmap strings.

Local Open Scope string_scope.
Local Open Scope list_scope.

(* the decimal literals of the code are read as the nearest binary64 value *)
Set Warnings "-inexact-float".

(* ================================================================== *)
(** * JavaScript string primitives *)
(* ================================================================== *)

Module Js.

Definition code (c : ascii) : nat := nat_of_ascii c.

Definition isSpace (c : ascii) : bool := Ascii.is_space c.
Definition isDigit (c : ascii) : bool := (48 <=? code c)%nat && (code c <=? 57)%nat.
Definition isUpper (c : ascii) : bool := (65 <=? code c)%nat && (code c <=? 90)%nat.
Definition isLower (c : ascii) : bool := (97 <=? code c)%nat && (code c <=? 122)%nat.
Definition isAlpha (c : ascii) : bool := isUpper c || isLower c.
Definition isAlnum (c : ascii) : bool := isAlpha c || isDigit c.
(** [\w] *)
Definition isWord (c : ascii) : bool := isAlnum c || Ascii.eqb c "_".

Definition toLowerChar (c : ascii) : ascii :=
  if isUpper c then ascii_of_nat (code c + 32) else c.
Definition toUpperChar (c : ascii) : ascii :=
  if isLower c then ascii_of_nat (code c - 32) else c.

Fixpoint map (f : ascii → ascii) (s : string) : string :=
  match s with
  | EmptyString => EmptyString
  | String c s' => String (f c) (map f s')
  end.

Fixpoint filter (p : ascii → bool) (s : string) : string :=
  match s with
  | EmptyString => EmptyString
  | String c s' => if p c then String c (filter p s') else filter p s'
  end.

Fixpoint forallb (p : ascii → bool) (s : string) : bool :=
  match s with
  | EmptyString => true
  | String c s' => p c && forallb p s'
  end.

Definition toLowerCase : string → string := map toLowerChar.
Definition toUpperCase : string → string := map toUpperChar.

(** [s.substring(0, n)] *)
Fixpoint take (n : nat) (s : string) : string :=
  match n, s with
  | S n', String c s' => String c (take n' s')
  | _, _ => EmptyString
  end.

(** [s.slice(n)] for [0 <= n] *)
Fixpoint drop (n : nat) (s : string) : string :=
  match n, s with
  | S n', String _ s' => drop n' s'
  | _, _ => s
  end.

Fixpoint trimStart (s : string) : string :=
  match s with
  | String c s' => if isSpace c then trimStart s' else s
  | EmptyString => EmptyString
  end.

Definition trimEnd (s : string) : string :=
  String.rev (trimStart (String.rev s)).

Definition trim (s : string) : string := trimEnd (trimStart s).

(** JavaScript truthiness of a string value *)
Definition truthy (s : string) : bool :=
  match s with EmptyString => false | _ => true end.

(** a possibly [undefined] string *)
Definition truthyO (o : option string) : bool :=
  match o with Some s => truthy s | None => false end.

Fixpoint startsWith (p s : string) : bool :=
  match p, s with
  | EmptyString, _ => true
  | String a p', String b s' => Ascii.eqb a b && startsWith p' s'
  | String _ _, EmptyString => false
  end.

(** [s.includes(p)] *)
Fixpoint includes (s p : string) : bool :=
  startsWith p s ||
  match s with
  | EmptyString => false
  | String _ s' => includes s' p
  end.

Fixpoint endsWithChar (c : ascii) (s : string) : bool :=
  match s with
  | EmptyString => false
  | String a EmptyString => Ascii.eqb a c
  | String _ s' => endsWithChar c s'
  end.

(** [l.join(sep)] *)
Fixpoint join (sep : string) (l : list string) : string :=
  match l with
  | [] => EmptyString
  | [x] => x
  | x :: l' => x +:+ sep +:+ join sep l'
  end.

(** [s.split(/\s+/)]: the pieces between the maximal runs of white
    space; a leading or trailing run leaves an empty piece, and the
    empty string gives one empty piece. *)
Fixpoint splitWs (s : string) : list string :=
  match s with
  | EmptyString => [EmptyString]
  | String c s' =>
      let r := splitWs s' in
      if isSpace c then
        match s' with
        | String b _ => if isSpace b then r else EmptyString :: r
        | EmptyString => EmptyString :: r
        end
      else
        match r with
        | h :: t => String c h :: t
        | [] => [String c EmptyString]
        end
  end.

(** [s.replace(/\s+/g, ' ')] *)
Fixpoint collapseWs (s : string) : string :=
  match s with
  | EmptyString => EmptyString
  | String c s' =>
      if isSpace c then
        match s' with
        | String b _ => if isSpace b then collapseWs s' else String " " (collapseWs s')
        | EmptyString => String " " EmptyString
        end
      else String c (collapseWs s')
  end.

(** [s.replace(new RegExp('\\' + c, 'g'), rep)]: every occurrence of the
    single character [c] becomes [rep] (none of the replacement strings
    of the code holds a [$] pattern that [replace] would expand). *)
Fixpoint replaceAllChar (c : ascii) (rep : string) (s : string) : string :=
  match s with
  | EmptyString => EmptyString
  | String a s' =>
      if Ascii.eqb a c then rep +:+ replaceAllChar c rep s'
      else String a (replaceAllChar c rep s')
  end.

(** [s.replace(/[...]/g, f)] with a one-character class *)
Fixpoint replaceClass (p : ascii → bool) (f : ascii → string) (s : string) : string :=
  match s with
  | EmptyString => EmptyString
  | String a s' =>
      if p a then f a +:+ replaceClass p f s'
      else String a (replaceClass p f s')
  end.

(** [String(n)] for a non-negative integer *)
Definition ofNat (n : nat) : string := NilZero.string_of_uint (Nat.to_uint n).

(** the text after the first occurrence of a non-empty separator *)
Fixpoint afterSep (sep s : string) : string :=
  match s with
  | EmptyString => EmptyString
  | String c s' => if startsWith sep s then drop (String.length sep) s else afterSep sep s'
  end.

(** [s.split(/[,;]/)] *)
Fixpoint splitCommas (s : string) : list string :=
  match s with
  | EmptyString => [EmptyString]
  | String c s' =>
      if Ascii.eqb c "," || Ascii.eqb c ";" then EmptyString :: splitCommas s'
      else match splitCommas s' with
           | h :: t => String c h :: t
           | [] => [String c EmptyString]
           end
  end.

Definition startsWithWord (s : string) : bool :=
  match s with
  | String c _ => isWord c
  | EmptyString => false
  end.

(** [s.split(/[,;]|\band\b/)]; [skip] counts the characters of a matched
    [and] still to pass, [prevWord] tells whether the character before
    is a word character *)
Fixpoint splitNames (skip : nat) (prevWord : bool) (s : string) : list string :=
  match s with
  | EmptyString => [EmptyString]
  | String c s' =>
      match skip with
      | S k => splitNames k (isWord c) s'
      | O =>
          if Ascii.eqb c "," || Ascii.eqb c ";" then EmptyString :: splitNames 0 false s'
          else if negb prevWord && startsWith "and" s && negb (startsWithWord (drop 3 s))
          then EmptyString :: splitNames 2 true s'
          else match splitNames 0 (isWord c) s' with
               | h :: t => String c h :: t
               | [] => [String c EmptyString]
               end
      end
  end.

(** the line feed *)
Definition nl : string := String (ascii_of_nat 10) EmptyString.

(** the longest run of digits at the start of a string, and the rest *)
Fixpoint spanDigits (s : string) : string * string :=
  match s with
  | String c s' =>
      if isDigit c then let '(d, r) := spanDigits s' in (String c d, r)
      else (EmptyString, s)
  | EmptyString => (EmptyString, EmptyString)
  end.

(** the double quote character *)
Definition dquote : string := String (ascii_of_nat 34) EmptyString.

(** [s.split(sep)[0]] for a non-empty separator *)
Fixpoint beforeSep (sep s : string) : string :=
  match s with
  | EmptyString => EmptyString
  | String c s' => if startsWith sep s then EmptyString else String c (beforeSep sep s')
  end.

(** [String(z)] for an integer *)
Definition ofZ (z : Z) : string := NilZero.string_of_int (Z.to_int z).

(** [s.replace(c, rep)] with a one-character string pattern: the first
    occurrence only *)
Fixpoint replaceFirstChar (c : ascii) (rep : string) (s : string) : string :=
  match s with
  | EmptyString => EmptyString
  | String a s' =>
      if Ascii.eqb a c then rep +:+ s' else String a (replaceFirstChar c rep s')
  end.

(** the value of a run of decimal digits at the start of [s], with the
    number of digits read *)
Fixpoint digitsValue (acc : Z) (n : nat) (s : string) : Z * nat :=
  match s with
  | String c s' =>
      if isDigit c then digitsValue (10 * acc + Z.of_nat (code c - 48)) (S n) s'
      else (acc, n)
  | EmptyString => (acc, n)
  end.

Definition hexDigit (c : ascii) : option Z :=
  if isDigit c then Some (Z.of_nat (code c - 48))
  else if (97 <=? code c)%nat && (code c <=? 102)%nat then Some (Z.of_nat (code c - 87))
  else if (65 <=? code c)%nat && (code c <=? 70)%nat then Some (Z.of_nat (code c - 55))
  else None.

Fixpoint hexValue (acc : Z) (n : nat) (s : string) : Z * nat :=
  match s with
  | String c s' =>
      match hexDigit c with
      | Some d => hexValue (16 * acc + d) (S n) s'
      | None => (acc, n)
      end
  | EmptyString => (acc, n)
  end.

(** [parseInt(s)]; [None] is [NaN] *)
Definition parseInt (s : string) : option Z :=
  let s := trimStart s in
  let '(sign, s) :=
    match s with
    | String "-" s' => ((-1)%Z, s')
    | String "+" s' => (1%Z, s')
    | _ => (1%Z, s)
    end in
  let '(v, n) :=
    match s with
    | String "0" (String "x" s') | String "0" (String "X" s') => hexValue 0 0 s'
    | _ => digitsValue 0 0 s
    end in
  if (n =? 0)%nat then None else Some (sign * v)%Z.

(** [s.charAt(0).toUpperCase() + s.slice(1).toLowerCase()] *)
Definition capitalize (s : string) : string :=
  toUpperCase (take 1 s) +:+ toLowerCase (drop 1 s).

(** the last element of a non-empty array *)
Definition lastOr (d : string) (l : list string) : string := List.last l d.

(** ** Plain objects

    The own properties of an object, in insertion order; [set] keeps
    the place of a key that is already present.  [get] reads an own
    property; it is the read of the code where the name is written in
    the code, or is known to be an own property. *)
Section Obj.
Context {V : Type}.

Definition Obj := list (string * V).

Fixpoint get (o : Obj) (k : string) : option V :=
  match o with
  | [] => None
  | (k', v) :: o' => if String.eqb k' k then Some v else get o' k
  end.

Fixpoint set (k : string) (v : V) (o : Obj) : Obj :=
  match o with
  | [] => [(k, v)]
  | (k', v') :: o' =>
      if String.eqb k' k then (k', v) :: o' else (k', v') :: set k v o'
  end.

(** [o[k] = v] with a computed key: an assignment to [__proto__]
    reaches the setter that [Object.prototype] gives to every object,
    which ignores a value that is not an object, and the object gets no
    property (the code assigns no object under a computed key that can
    be [__proto__]) *)
Definition put (k : string) (v : V) (o : Obj) : Obj :=
  if String.eqb k "__proto__" then o else set k v o.

(** [Object.assign(target, source)]: an assignment for every own
    property of [source] *)
Definition assign (target source : Obj) : Obj :=
  fold_left (λ t '(k, v), put k v t) source target.

(** [delete o[k]] *)
Definition delete (k : string) (o : Obj) : Obj :=
  List.filter (λ kv, negb (String.eqb (fst kv) k)) o.

(** a canonical array index: these keys are enumerated first, in
    ascending order *)
Definition arrayIndex (k : string) : option N :=
  if truthy k && forallb isDigit k then
    let n := match NilZero.uint_of_string k with
             | Some u => N.of_uint u
             | None => 0%N
             end in
    if String.eqb (NilZero.string_of_uint (N.to_uint n)) k && (n <? 4294967295)%N
    then Some n else None
  else None.

Fixpoint insertIndexed (x : N * (string * V)) (l : list (N * (string * V))) :=
  match l with
  | [] => [x]
  | y :: l' => if (fst x <=? fst y)%N then x :: l else y :: insertIndexed x l'
  end.

(** [Object.entries(o)] *)
Definition entries (o : Obj) : list (string * V) :=
  let indexed := omap (λ kv, (λ n, (n, kv)) <$> arrayIndex (fst kv)) o in
  let named := List.filter (λ kv, negb (bool_decide (is_Some (arrayIndex (fst kv))))) o in
  (snd <$> fold_right insertIndexed [] indexed) ++ named.

Definition keys (o : Obj) : list string := fst <$> entries o.
End Obj.
Global Arguments Obj : clear implicits.

(** ** Inherited members

    A plain object inherits the members of [Object.prototype]: eleven
    functions and the accessor [__proto__], whose value is
    [Object.prototype] itself.  A read [o[name]] with a computed name
    finds them when [o] has no own property of that name. *)
Definition prototypeMembers : list string :=
  [ "constructor"; "__defineGetter__"; "__defineSetter__"; "hasOwnProperty";
    "__lookupGetter__"; "__lookupSetter__"; "isPrototypeOf"; "propertyIsEnumerable";
    "toString"; "valueOf"; "__proto__"; "toLocaleString" ].

Definition inherited (name : string) : bool :=
  bool_decide (name ∈ prototypeMembers).

(** what a read [o[name]] finds *)
Inductive found (V : Type) :=
| Own (v : V)
| Inherited (name : string)
| Undefined.
Global Arguments Own {V} v.
Global Arguments Inherited {V} name.
Global Arguments Undefined {V}.

(** [o[name]] *)
Definition lookup {V : Type} (o : Obj V) (name : string) : found V :=
  match get o name with
  | Some v => Own v
  | None => if inherited name then Inherited name else Undefined
  end.

(** a value that is a string or a member of [Object.prototype] *)
Inductive value :=
| Str (s : string)
| Member (name : string).

(** [String(v)], which a template literal and a property key apply: a
    built-in function is printed as V8 prints it, the prototype object
    as every plain object *)
Definition text (v : value) : string :=
  match v with
  | Str s => s
  | Member name =>
      if String.eqb name "__proto__" then "[object Object]"
      else "function " +:+ (if String.eqb name "constructor" then "Object" else name)
           +:+ "() { [native code] }"
  end.

(** the value of [o[name]] when it is truthy: an own string that is not
    empty, or an inherited member; [None] stands for a falsy value *)
Definition truthyAt (o : Obj string) (name : string) : option value :=
  match lookup o name with
  | Own s => if truthy s then Some (Str s) else None
  | Inherited m => Some (Member m)
  | Undefined => None
  end.

(** [s.split(c)] for a one-character separator *)
Fixpoint splitChar (c : ascii) (s : string) : list string :=
  match s with
  | EmptyString => [EmptyString]
  | String a s' =>
      if Ascii.eqb a c then EmptyString :: splitChar c s'
      else match splitChar c s' with
           | h :: t => String a h :: t
           | [] => [String a EmptyString]
           end
  end.

End Js.


(* ================================================================== *)
(** * The XML document tree and the selector queries *)
(* ================================================================== *)

Module Dom.

Record einfo := { tagName : string; attributes : list (string * string) }.

#[warnings="-register-all"] Inductive node :=
| Text (data : string)
| Elem (info : einfo) (children : list node).

Definition isElem (n : node) : bool :=
  match n with Elem _ _ => true | Text _ => false end.

Fixpoint textContent (n : node) : string :=
  match n with
  | Text d => d
  | Elem _ cs =>
      (fix go (l : list node) : string :=
         match l with
         | [] => EmptyString
         | c :: l' => textContent c +:+ go l'
         end) cs
  end.

(** [e.getAttribute(name)] *)
Fixpoint lookupAttr (name : string) (l : list (string * string)) : option string :=
  match l with
  | [] => None
  | (k, v) :: l' => if String.eqb k name then Some v else lookupAttr name l'
  end.

(** An element as the code holds it: the node together with the
    elements above it in the document, the parent first. *)
Record handle := { ancestors : list einfo; self : node }.

Definition getAttribute (h : handle) (name : string) : option string :=
  match self h with
  | Elem i _ => lookupAttr name (attributes i)
  | Text _ => None
  end.

Definition path := list nat.

(** the element descendants of a node, in document order, each by the
    child indices that lead to it *)
Fixpoint paths (n : node) : list path :=
  match n with
  | Text _ => []
  | Elem _ cs =>
      (fix go (k : nat) (l : list node) : list path :=
         match l with
         | [] => []
         | c :: l' =>
             (if isElem c then [[k]] else []) ++
             ((cons k) <$> paths c) ++ go (S k) l'
         end) 0%nat cs
  end.

Fixpoint sub (h : handle) (p : path) : option handle :=
  match p with
  | [] => Some h
  | k :: p' =>
      match self h with
      | Elem i cs =>
          match cs !! k with
          | Some c => sub {| ancestors := i :: ancestors h; self := c |} p'
          | None => None
          end
      | Text _ => None
      end
  end.

(** replace the node at a path *)
Fixpoint update (f : node → node) (p : path) (n : node) : node :=
  match p with
  | [] => f n
  | k :: p' =>
      match n with
      | Elem i cs => Elem i (alter (update f p') k cs)
      | Text _ => n
      end
  end.

(** ** Selectors *)

Inductive attrSel :=
| HasAttr (name : string)
| AttrEq (name value : string).

(** a compound selector: a type selector ([None] is [*]) with attribute
    selectors *)
Record compound := { typeSel : option string; attrSels : list attrSel }.

(** compound selectors joined by the descendant combinator, as written *)
Definition complex := list compound.

(** a comma-separated selector list *)
Definition selector := list complex.

Definition tag (t : string) : compound := {| typeSel := Some t; attrSels := [] |}.
Definition star (a : list attrSel) : compound := {| typeSel := None; attrSels := a |}.
(** [tags ["a"; "b"]] is the selector list [a, b] *)
Definition tags (l : list string) : selector := (λ t, [tag t]) <$> l.

(** a name as the selector parser reads one: a letter or an underscore,
    then letters, digits, hyphens and underscores *)
Definition isName (text : string) : bool :=
  match text with
  | String c rest =>
      (Js.isAlpha c || Ascii.eqb c "_")
      && Js.forallb (λ c, Js.isWord c || Ascii.eqb c "-") rest
  | EmptyString => false
  end.

(** the selector that [querySelector] reads in a text of the options: a
    name is a type selector.  The parser refuses a text such as [1st],
    [dc:title] or the empty text with a [SyntaxError]; the model reads
    no text but a name, and refuses every other text in this way. *)
Definition readSelector (text : string) : option complex :=
  if isName text then Some [tag text] else None.

(** the message of the [SyntaxError], as Chromium words it *)
Definition invalidSelector (text : string) : string :=
  "Failed to execute 'querySelector' on 'Element': '" +:+ text +:+
  "' is not a valid selector.".

Definition matchesAttr (i : einfo) (a : attrSel) : bool :=
  match a with
  | HasAttr n => bool_decide (is_Some (lookupAttr n (attributes i)))
  | AttrEq n v => bool_decide (lookupAttr n (attributes i) = Some v)
  end.

(** the part of a qualified name after the prefix *)
Fixpoint afterColon (q : string) : option string :=
  match q with
  | EmptyString => None
  | String c q' => if Ascii.eqb c ":" then Some q' else afterColon q'
  end.

(** [e.localName] *)
Definition localName (i : einfo) : string :=
  default (tagName i) (afterColon (tagName i)).

(** a type selector names the local name of the element, whatever its
    prefix; an attribute selector names an attribute without prefix *)
Definition matchesCompound (c : compound) (i : einfo) : bool :=
  match typeSel c with
  | Some t => String.eqb t (localName i)
  | None => true
  end && List.forallb (matchesAttr i) (attrSels c).

(** the remaining compounds, innermost first, against the ancestors *)
Fixpoint matchesChain (rest : list compound) (anc : list einfo) : bool :=
  match rest with
  | [] => true
  | c :: rest' =>
      (fix find (anc : list einfo) : bool :=
         match anc with
         | [] => false
         | a :: anc' =>
             if matchesCompound c a then matchesChain rest' anc' else find anc'
         end) anc
  end.

Definition matchesComplex (s : complex) (h : handle) : bool :=
  match self h, rev s with
  | Elem i _, c :: rest => matchesCompound c i && matchesChain rest (ancestors h)
  | _, _ => false
  end.

Definition matches (s : selector) (h : handle) : bool :=
  List.existsb (λ c, matchesComplex c h) s.

(** [e.querySelectorAll(s)], as paths below [e] *)
Definition querySelectorAllP (h : handle) (s : selector) : list path :=
  List.filter (λ p, match sub h p with Some d => matches s d | None => false end)
              (paths (self h)).

(** [e.querySelectorAll(s)] *)
Definition querySelectorAll (h : handle) (s : selector) : list handle :=
  omap (sub h) (querySelectorAllP h s).

(** [e.querySelector(s)] *)
Definition querySelector (h : handle) (s : selector) : option handle :=
  head (querySelectorAll h s).

(** A document is its document element. *)
Definition document := node.

Definition documentElement (d : document) : handle :=
  {| ancestors := []; self := d |}.

(** [doc.querySelectorAll(s)], as paths: the document element, at the
    empty path, is a candidate too *)
Definition docQuerySelectorAllP (d : document) (s : selector) : list path :=
  List.filter
    (λ p, match sub (documentElement d) p with Some h => matches s h | None => false end)
    ([] :: paths d).

(** [doc.querySelectorAll(s)] *)
Definition docQuerySelectorAll (d : document) (s : selector) : list handle :=
  omap (sub (documentElement d)) (docQuerySelectorAllP d s).

Definition docQuerySelector (d : document) (s : selector) : option handle :=
  head (docQuerySelectorAll d s).

(** [e.children] *)
Definition childElements (n : node) : list node :=
  match n with
  | Elem _ cs => List.filter isElem cs
  | Text _ => []
  end.

Definition nodeTag (n : node) : string :=
  match n with
  | Elem i _ => tagName i
  | Text _ => EmptyString
  end.

(** shorthands for writing documents *)
Definition el (t : string) (cs : list node) : node :=
  Elem {| tagName := t; attributes := [] |} cs.
Definition leaf (t data : string) : node := el t [Text data].

End Dom.

(* ================================================================== *)
(** * ExternalAPIManager

    JavaScript numbers are binary64 floats.  The payload of a provider
    is what [makeRequest] resolves to; a request that fails, times out
    or is answered with an error status is the absent payload. *)
(* ================================================================== *)

Module ExternalAPIManager.

Definition Fields := Js.Obj string.

(** ** Provider payloads *)

Record ssAuthor := { name : option string }.
Record ssJournal := { journalName : string }.

(** a paper of the Semantic Scholar search *)
Record ssPaper := {
  title : option string;
  authors : option (list ssAuthor);
  year : option Z;
  journal : option ssJournal;
  venue : option string;
  doi : option string;
  url : option string;
  abstract : option string;
  citationCount : option Z
}.

Record crAuthor := { given : option string; family : option string }.
Record crDate := { dateParts : option (list (list Z)) }.

(** a work of the Crossref registry *)
Record crWork := {
  crTitle : option (list string);
  crAuthors : option (list crAuthor);
  publishedPrint : option crDate;
  publishedOnline : option crDate;
  containerTitle : option (list string);
  crVolume : option string;
  crIssue : option string;
  crPage : option string;
  crDOI : option string;
  crURL : option string;
  crAbstract : option string
}.

(** the string a template literal or [join] prints for a value *)
Definition show (o : option string) : string := default "undefined" o.
Definition joinItem (o : option string) : string := default "" o.

(** truthiness of a number *)
Definition truthyZ (o : option Z) : bool :=
  match o with Some z => negb (z =? 0)%Z | None => false end.

Definition ofSize (n : nat) : float := PrimFloat.of_uint63 (Uint63.of_Z (Z.of_nat n)).

(** ** Scoring *)

Definition calculateStringSimilarity (str1 str2 : string) : float :=
  let set1 := remove_dups (Js.splitWs str1) in
  let set2 := remove_dups (Js.splitWs str2) in
  let intersection := List.filter (λ x, bool_decide (x ∈ set2)) set1 in
  let union := remove_dups (set1 ++ set2) in
  (ofSize (length intersection) / ofSize (length union))%float.

(** [Math.abs(resultYear - parseInt(targetYear)) <= 1 ? 1 : 0]; the
    years are integers, on which the arithmetic of the code is exact
    below 2^53 *)
Definition yearMatch (resultYear : Z) (targetYear : string) : float :=
  match Js.parseInt targetYear with
  | Some t => if (Z.abs (resultYear - t) <=? 1)%Z then 1%float else 0%float
  | None => 0%float
  end.

Definition calculateMatchScore (result : ssPaper)
    (targetTitle targetAuthors targetYear : option string) : float :=
  let score := 0%float in
  let factors := 0%float in
  (* Title similarity (most important) *)
  let '(score, factors) :=
    match title result, targetTitle with
    | Some rt, Some tgt =>
        if Js.truthy rt && Js.truthy tgt then
          let titleSim := calculateStringSimilarity (Js.toLowerCase rt) (Js.toLowerCase tgt) in
          ((score + titleSim * 0.6)%float, (factors + 0.6)%float)
        else (score, factors)
    | _, _ => (score, factors)
    end in
  (* Author similarity *)
  let '(score, factors) :=
    match authors result, targetAuthors with
    | Some ra, Some ta =>
        if Js.truthy ta then
          let resultAuthors := Js.join " " (joinItem ∘ name <$> ra) in
          let authorSim :=
            calculateStringSimilarity (Js.toLowerCase resultAuthors) (Js.toLowerCase ta) in
          ((score + authorSim * 0.3)%float, (factors + 0.3)%float)
        else (score, factors)
    | _, _ => (score, factors)
    end in
  (* Year match *)
  let '(score, factors) :=
    match year result, targetYear with
    | Some ry, Some ty =>
        if truthyZ (Some ry) && Js.truthy ty then
          ((score + yearMatch ry ty * 0.1)%float, (factors + 0.1)%float)
        else (score, factors)
    | _, _ => (score, factors)
    end in
  if (0 <? factors)%float then (score / factors)%float else 0%float.

(** the loop of [findBestMatch], over any score function *)
Fixpoint bestOf {A : Type} (score : A → float) (results : list A)
    (bestMatch : option A) (bestScore : float) : option A * float :=
  match results with
  | [] => (bestMatch, bestScore)
  | result :: rest =>
      let s := score result in
      if (bestScore <? s)%float then bestOf score rest (Some result) s
      else bestOf score rest bestMatch bestScore
  end.

Definition findBestMatch (results : list ssPaper)
    (targetTitle targetAuthors targetYear : option string) : option ssPaper :=
  let '(bestMatch, bestScore) :=
    bestOf (λ r, calculateMatchScore r targetTitle targetAuthors targetYear)
           results None 0%float in
  (* Only return matches with a reasonable score *)
  if (0.7 <? bestScore)%float then bestMatch else None.

(** the loop of [findBestCrossrefMatch]; a score that throws ends it *)
Fixpoint bestOfE {A : Type} (score : A → option float) (results : list A)
    (bestMatch : option A) (bestScore : float) : option (option A * float) :=
  match results with
  | [] => Some (bestMatch, bestScore)
  | result :: rest =>
      match score result with
      | None => None
      | Some s =>
          if (bestScore <? s)%float then bestOfE score rest (Some result) s
          else bestOfE score rest bestMatch bestScore
      end
  end.

(** [result['published-print']['date-parts'][0][0]]: the outer [None] is
    the [TypeError] of indexing [undefined], the inner one is the value
    [undefined] *)
Definition firstDatePart (d : crDate) : option (option Z) :=
  match dateParts d with
  | Some (part :: _) => Some (head part)
  | Some [] | None => None
  end.

Definition crAuthorName (a : crAuthor) : string :=
  show (given a) +:+ " " +:+ show (family a).

(** [None] when the evaluation throws *)
Definition calculateCrossrefMatchScore (result : crWork)
    (targetTitle targetAuthors targetYear : option string) : option float :=
  let score := 0%float in
  let factors := 0%float in
  (* Title similarity *)
  let '(score, factors) :=
    match crTitle result, targetTitle with
    | Some (resultTitle :: _), Some tgt =>
        if Js.truthy tgt then
          let titleSim :=
            calculateStringSimilarity (Js.toLowerCase resultTitle) (Js.toLowerCase tgt) in
          ((score + titleSim * 0.6)%float, (factors + 0.6)%float)
        else (score, factors)
    | _, _ => (score, factors)
    end in
  (* Author similarity *)
  let '(score, factors) :=
    match crAuthors result, targetAuthors with
    | Some ra, Some ta =>
        if Js.truthy ta then
          let resultAuthors := Js.join " " (crAuthorName <$> ra) in
          let authorSim :=
            calculateStringSimilarity (Js.toLowerCase resultAuthors) (Js.toLowerCase ta) in
          ((score + authorSim * 0.3)%float, (factors + 0.3)%float)
        else (score, factors)
    | _, _ => (score, factors)
    end in
  (* Year match *)
  yearPart ←
    match publishedPrint result, targetYear with
    | Some d, Some ty =>
        if Js.truthy ty then
          pubYear ← firstDatePart d;
          Some (Some (match pubYear with
                      | Some y => yearMatch y ty
                      | None => 0%float
                      end))
        else Some None
    | _, _ => Some None
    end;
  let '(score, factors) :=
    match yearPart with
    | Some ym => ((score + ym * 0.1)%float, (factors + 0.1)%float)
    | None => (score, factors)
    end in
  Some (if (0 <? factors)%float then (score / factors)%float else 0%float).

(** the outer [None] is a thrown exception *)
Definition findBestCrossrefMatch (results : list crWork)
    (targetTitle targetAuthors targetYear : option string) : option (option crWork) :=
  '(bestMatch, bestScore) ←
    bestOfE (λ r, calculateCrossrefMatchScore r targetTitle targetAuthors targetYear)
            results None 0%float;
  Some (if (0.7 <? bestScore)%float then bestMatch else None).

(** ** Normalising a match into fields *)

Definition setIf (k : string) (v : option string) (o : Fields) : Fields :=
  match v with
  | Some x => if Js.truthy x then Js.set k x o else o
  | None => o
  end.

Definition formatSemanticScholarResult (result : ssPaper) : Fields :=
  let enhanced : Fields := [] in
  let enhanced := setIf "title" (title result) enhanced in
  let enhanced :=
    match authors result with
    | Some (a :: l) => Js.set "author" (Js.join " and " (joinItem ∘ name <$> a :: l)) enhanced
    | _ => enhanced
    end in
  let enhanced :=
    if truthyZ (year result) then Js.set "year" (Js.ofZ (default 0%Z (year result))) enhanced
    else enhanced in
  let enhanced :=
    match journal result with
    | Some j => Js.set "journal" (journalName j) enhanced
    | None => setIf "journal" (venue result) enhanced
    end in
  let enhanced := setIf "doi" (doi result) enhanced in
  let enhanced := setIf "url" (url result) enhanced in
  let enhanced := setIf "abstract" (abstract result) enhanced in
  (* Add citation count as a note if available *)
  match citationCount result with
  | Some n => Js.set "note" ("Cited by " +:+ Js.ofZ n +:+ " (Semantic Scholar)") enhanced
  | None => enhanced
  end.

(** [d['date-parts'][0][0].toString()], guarded by [d && d['date-parts']] *)
Definition dateYear (d : crDate) : option string :=
  match dateParts d with
  | Some ((y :: _) :: _) => Some (Js.ofZ y)
  | _ => None
  end.

(** [None] when the evaluation throws *)
Definition formatCrossrefResult (result : crWork) : option Fields :=
  let enhanced : Fields := [] in
  let enhanced :=
    match crTitle result with
    | Some (t :: _) => Js.set "title" t enhanced
    | _ => enhanced
    end in
  let enhanced :=
    match crAuthors result with
    | Some (a :: l) => Js.set "author" (Js.join " and " (crAuthorName <$> a :: l)) enhanced
    | _ => enhanced
    end in
  enhanced ←
    match publishedPrint result, publishedOnline result with
    | Some {| dateParts := Some dp |}, _ =>
        y ← dateYear {| dateParts := Some dp |}; Some (Js.set "year" y enhanced)
    | _, Some {| dateParts := Some dp |} =>
        y ← dateYear {| dateParts := Some dp |}; Some (Js.set "year" y enhanced)
    | _, _ => Some enhanced
    end;
  let enhanced :=
    match containerTitle result with
    | Some (c :: _) => Js.set "journal" c enhanced
    | _ => enhanced
    end in
  let enhanced := setIf "volume" (crVolume result) enhanced in
  let enhanced := setIf "number" (crIssue result) enhanced in
  let enhanced :=
    match crPage result with
    | Some pg => if Js.truthy pg then Js.set "pages" (Js.replaceFirstChar "-" "--" pg) enhanced
                 else enhanced
    | None => enhanced
    end in
  let enhanced := setIf "doi" (crDOI result) enhanced in
  let enhanced := setIf "url" (crURL result) enhanced in
  Some (setIf "abstract" (crAbstract result) enhanced).

(** ** Searching

    The two providers, as functions of the search query. *)
Record network := {
  semanticScholar : string → option (list ssPaper);
  (** the query and the year of the publication date filter *)
  crossref : string → option string → option (list crWork)
}.

(** [authors.split(' and ')[0] || authors] *)
Definition firstAuthorOf (authors : string) : string :=
  let first := Js.beforeSep " and " authors in
  if Js.truthy first then first else authors.

Definition authorClause (authors : option string) : string :=
  match authors with
  | Some a =>
      if Js.truthy a
      then " author:" +:+ Js.dquote +:+ firstAuthorOf a +:+ Js.dquote
      else ""
  | None => ""
  end.

Definition searchSemanticScholar (net : network)
    (title authors year : option string) : option Fields :=
  let query := Js.dquote +:+ show title +:+ Js.dquote +:+ authorClause authors in
  match semanticScholar net query with
  | Some (r :: data) =>
      (* Find best match *)
      formatSemanticScholarResult <$> findBestMatch (r :: data) title authors year
  | _ => None
  end.

Definition searchCrossref (net : network)
    (title authors year : option string) : option Fields :=
  let query := show title +:+ authorClause authors in
  let filter := match year with
                | Some y => if Js.truthy y then Some y else None
                | None => None
                end in
  match crossref net query filter with
  | Some (r :: items) =>
      match findBestCrossrefMatch (r :: items) title authors year with
      | Some (Some bestMatch) => formatCrossrefResult bestMatch
      | _ => None
      end
  | _ => None
  end.

(** ** Merging *)

(** [!fields[key] || fields[key].trim() === ''] *)
Definition isBlank (v : option string) : bool :=
  negb (Js.truthyO v) || String.eqb (Js.trim (default "" v)) "".

(** the body of the loop over [Object.entries(result)]; the keys of a
    result are the names that [formatSemanticScholarResult] and
    [formatCrossrefResult] set *)
Definition mergeEntry (fields : Fields) (enhanced : Fields) (kv : string * string) : Fields :=
  let '(key, value) := kv in
  if isBlank (Js.get fields key) then Js.set key value enhanced
  else if String.eqb key "doi" && negb (Js.truthyO (Js.get fields "doi")) then
    Js.set key value enhanced
  else if String.eqb key "abstract" && negb (Js.truthyO (Js.get fields "abstract")) then
    Js.set key value enhanced
  else if String.eqb key "note" then
    (* Append notes *)
    Js.set key
      (match Js.get fields "note" with
       | Some n => if Js.truthy n then n +:+ "; " +:+ value else value
       | None => value
       end) enhanced
  else enhanced.

(** the fields to assign, computed from an accepted result *)
Definition mergeResult (fields result : Fields) : Fields :=
  fold_left (mergeEntry fields) (Js.entries result) [].

(** the accepted result of the providers, in their fixed order *)
Definition searchProviders (net : network) (fields : Fields) : option Fields :=
  let t := Js.get fields "title" in
  let a := Js.get fields "author" in
  let y := Js.get fields "year" in
  (* Try Semantic Scholar first *)
  match searchSemanticScholar net t a y with
  | Some result => Some result
  | None =>
      (* If no good match from Semantic Scholar, try Crossref *)
      searchCrossref net t a y
  end.

Definition enhanceReference (net : network) (fields : Fields) : Fields :=
  match searchProviders net fields with
  | Some result => mergeResult fields result
  | None => []
  end.

(** ** Rate limiting

    The times are whole numbers of milliseconds, as [Date.now()] gives
    them; the configuration gives whole numbers of seconds. *)

(** the members that the constructor sets *)
Record manager := {
  rateLimitDelay : Z;
  lastApiCall : Z;
  timeout : Z;
  maxRetries : Z
}.

Definition constructed : manager :=
  {| rateLimitDelay := 1000; lastApiCall := 0; timeout := 10000; maxRetries := 3 |}.

(** [rateLimit()]: [now] is the first reading of the clock, and [late]
    the time that passes, beyond the wait asked for, until the second
    reading; the result holds the wait asked of the timer *)
Definition rateLimit (now late : Z) (m : manager) : Z * manager :=
  let timeSinceLastCall := (now - lastApiCall m)%Z in
  let waitTime :=
    if (timeSinceLastCall <? rateLimitDelay m)%Z
    then (rateLimitDelay m - timeSinceLastCall)%Z else 0%Z in
  (waitTime,
   {| rateLimitDelay := rateLimitDelay m;
      lastApiCall := (now + waitTime + late)%Z;
      timeout := timeout m;
      maxRetries := maxRetries m |}).

(** the object given to [updateConfig]; [None] is [undefined] *)
Record managerConfig := {
  configRateLimitDelay : option Z;
  configTimeout : option Z
}.

Definition updateConfig (config : managerConfig) (m : manager) : manager :=
  {| rateLimitDelay :=
       match configRateLimitDelay config with
       | Some s => (s * 1000)%Z (* Convert to milliseconds *)
       | None => rateLimitDelay m
       end;
     lastApiCall := lastApiCall m;
     timeout :=
       match configTimeout config with
       | Some s => (s * 1000)%Z (* Convert to milliseconds *)
       | None => timeout m
       end;
     maxRetries := maxRetries m |}.

End ExternalAPIManager.

(* ================================================================== *)
(** * XMLConverter

    The document is mutable: [extractTextContent] rewrites the styled
    text below the element it reads.  The extraction methods therefore
    run in a state monad over the document, and an element of a query
    result is kept by its path from the document element.  An element
    that an earlier rewrite has detached from the document is read as it
    was when the query found it.

    The one exception that the methods below raise on a parsed document
    is the [TypeError] of [generateBibtexEntry] at a field value that is
    not a string; a method that can throw returns the message of the
    exception on the right of a sum. *)
(* ================================================================== *)

Module XMLConverter.
Import Dom.

Record config := {
  suppressWarnings : bool;
  extractStyledText : bool;
  useAcmStyle : bool;
  useStringDefinitions : bool;
  useBiblatexFields : bool;
  escapeLatexChars : bool;
  debugMode : bool;
  enableApiEnhancement : bool
}.

(** the configuration set by the constructor *)
Definition defaultConfig : config := {|
  suppressWarnings := true;
  extractStyledText := true;
  useAcmStyle := false;
  useStringDefinitions := true;
  useBiblatexFields := false;
  escapeLatexChars := true;
  debugMode := true;
  enableApiEnhancement := true
|}.

Definition entryTypeMap : Js.Obj string :=
  [ ("Journal Article", "article");
    ("Book", "book");
    ("Book Section", "incollection");
    ("Conference Paper", "inproceedings");
    ("Conference Proceedings", "proceedings");
    ("Conference Proceeding", "proceedings");
    ("Thesis", "phdthesis");
    ("Report", "techreport");
    ("Web Page", "online");
    ("Patent", "patent");
    ("Unpublished Work", "unpublished");
    ("Manuscript", "unpublished");
    ("Magazine Article", "article");
    ("Newspaper Article", "article");
    ("Electronic Article", "article");
    ("Generic", "misc") ].

(** [this.latexSpecialChars], in the order of [Object.entries] *)
Definition latexSpecialChars : list (ascii * string) :=
  [ ("&"%char, "\&");
    ("%"%char, "\%");
    ("$"%char, "\$");
    ("#"%char, "\#");
    ("_"%char, "\_");
    ("{"%char, "\{");
    ("}"%char, "\}");
    ("~"%char, "\textasciitilde{}");
    ("^"%char, "\textasciicircum{}");
    ("\"%char, "\textbackslash{}");
    ("<"%char, "\textless{}");
    (">"%char, "\textgreater{}") ].

Definition biblatexFieldMap : Js.Obj string :=
  [ ("journal", "journaltitle");
    ("address", "location");
    ("school", "institution");
    ("articleno", "number") ].

Definition journalCategories : list (string * list string) :=
  [ ("ACM", ["ACM"; "Association for Computing Machinery"; "CACM";
             "Communications of the ACM"; "Commun. ACM"; "Trans. ACM";
             "Transactions on"; "SIGPLAN"; "SIGCHI"; "SIGGRAPH"; "SIGSOFT";
             "SIGIR"; "SIGKDD"; "SIGMOD"]);
    ("IEEE", ["IEEE"; "Institute of Electrical and Electronics Engineers";
              "Transactions on"; "Journal of"; "Proceedings of the IEEE";
              "Computer Society"]);
    ("SIAM", ["SIAM"; "Society for Industrial and Applied Mathematics";
              "Journal on"; "Review"]);
    ("AMS", ["AMS"; "American Mathematical Society"; "Mathematical"]);
    ("Springer", ["Springer"; "Lecture Notes in Computer Science"; "LNCS";
                  "Lecture Notes in"]);
    ("Elsevier", ["Elsevier"; "Science Direct"; "Information Sciences";
                  "Computer Science"]);
    ("Conference", ["Proceedings of"; "Conference on"; "Symposium on"; "Workshop on"]) ].

Definition publisherCategories : list (string * list string) :=
  [ ("Academic", ["Academic"; "Academic Press"; "University"]);
    ("ACM", ["ACM"; "Association for Computing Machinery"]);
    ("IEEE", ["IEEE"; "Institute of Electrical and Electronics Engineers"]);
    ("Commercial", ["Wiley"; "Springer"; "Elsevier"; "McGraw"; "Addison"; "Wesley"]) ].

Definition escapeLatex (cfg : config) (text : string) : string :=
  if negb (escapeLatexChars cfg) || negb (Js.truthy text) then text
  else fold_left (λ t '(c, replacement), Js.replaceAllChar c replacement t)
                 latexSpecialChars text.

(** ** The document state *)

Definition M (A : Type) : Type := node → A * node.

Definition ret {A : Type} (a : A) : M A := λ d, (a, d).

Definition bind {A B : Type} (m : M A) (f : A → M B) : M B :=
  λ d, let '(a, d') := m d in f a d'.

#[global] Instance M_ret : MRet M := @ret.
#[global] Instance M_bind : MBind M := λ A B f m, bind m f.

Fixpoint mapM {A B : Type} (f : A → M B) (l : list A) : M (list B) :=
  match l with
  | [] => ret []
  | a :: l' => b ← f a; bs ← mapM f l'; ret (b :: bs)
  end.

(** an element of a query result: its path from the document element
    and the node found there *)
Definition located : Type := path * node.

(** [record.querySelectorAll(s)] *)
Definition queryAll (record : located) (s : selector) : M (list located) :=
  λ d,
    match sub (documentElement d) (fst record) with
    | Some h =>
        (omap (λ p, (λ e, (fst record ++ p, self e)) <$> sub h p) (querySelectorAllP h s), d)
    | None => ([], d)
    end.

(** what the loop over the styled elements writes into a [style]
    element whose text is [text] *)
Definition styleMarkup (i : einfo) (text : string) : option string :=
  if String.eqb (localName i) "style" then
    match lookupAttr "face" (attributes i) with
    | Some face =>
        if Js.truthy face && Js.truthy text then
          if Js.includes face "italic" then Some ("\textit{" +:+ text +:+ "}")
          else if Js.includes face "bold" then Some ("\textbf{" +:+ text +:+ "}")
          else None
        else None
    | None => None
    end
  else None.

(** the element after the loop over [element.querySelectorAll('style')]:
    a rewritten [style] element loses its children, so the styled
    elements below it no longer count *)
Fixpoint applyStyles (n : node) : node :=
  match n with
  | Text _ => n
  | Elem i cs =>
      Elem i ((fix go (l : list node) : list node :=
                 match l with
                 | [] => []
                 | c :: l' =>
                     match c with
                     | Elem ci _ =>
                         match styleMarkup ci (textContent c) with
                         | Some t => Elem ci [Text t]
                         | None => applyStyles c
                         end
                     | Text _ => c
                     end :: go l'
                 end) cs)
  end.

Definition extractTextContent (cfg : config) (element : located) : M string :=
  λ d,
    let styled n := if extractStyledText cfg then applyStyles n else n in
    let '(e, d') :=
      match sub (documentElement d) (fst element) with
      | Some {| self := Elem i cs |} =>
          let e := styled (Elem i cs) in (e, update (λ _, e) (fst element) d)
      | _ => (styled (snd element), d)
      end in
    let text := textContent e in
    (* Clean up whitespace *)
    let text := Js.trim (Js.collapseWs text) in
    (* Escape LaTeX characters if enabled *)
    let text := if escapeLatexChars cfg then escapeLatex cfg text else text in
    (text, d').

(** [els.length > 0 ? this.extractTextContent(els[0]) : ''] *)
Definition firstText (cfg : config) (record : located) (s : selector) : M string :=
  els ← queryAll record s;
  match els with
  | e :: _ => extractTextContent cfg e
  | [] => ret ""
  end.

(** the texts of all the elements found that are not empty *)
Definition allTexts (cfg : config) (record : located) (s : selector) : M (list string) :=
  els ← queryAll record s;
  texts ← mapM (extractTextContent cfg) els;
  ret (List.filter Js.truthy texts).

Definition extractTitle (cfg : config) (record : located) : M string :=
  firstText cfg record [[tag "title"]; [tag "titles"; tag "title"]].

Definition extractAuthors (cfg : config) (record : located) : M (list string) :=
  allTexts cfg record
    [[tag "author"]; [tag "authors"; tag "author"]; [tag "contributors"; tag "author"]].

(** [s.match(/\d{4}/)] *)
Fixpoint matchYear (s : string) : option string :=
  match s with
  | EmptyString => None
  | String _ s' =>
      if (String.length (Js.take 4 s) =? 4)%nat && Js.forallb Js.isDigit (Js.take 4 s)
      then Some (Js.take 4 s) else matchYear s'
  end.

Definition extractYear (cfg : config) (record : located) : M string :=
  els ← queryAll record [[tag "year"]; [tag "dates"; tag "year"]; [tag "pub-dates"; tag "year"]];
  match els with
  | e :: _ =>
      yearText ← extractTextContent cfg e;
      ret (default "" (matchYear yearText))
  | [] => ret ""
  end.

Definition extractJournal (cfg : config) (record : located) : M string :=
  firstText cfg record (tags ["secondary-title"; "journal"; "periodical"]).

Definition extractPublisher (cfg : config) (record : located) : M string :=
  firstText cfg record (tags ["publisher"; "pub-location"]).

Definition extractVolume (cfg : config) (record : located) : M string :=
  firstText cfg record (tags ["volume"]).

Definition extractNumber (cfg : config) (record : located) : M string :=
  firstText cfg record (tags ["number"; "issue"]).

(** [[-–—]] at the start of a string: a hyphen, or the three bytes of an
    en dash or of an em dash *)
Definition stripDash (s : string) : option string :=
  if Js.startsWith "-" s then Some (Js.drop 1 s)
  else if Js.startsWith "–" s then Some (Js.drop 3 s)
  else if Js.startsWith "—" s then Some (Js.drop 3 s)
  else None.

(** a match of [/(\d+)\s*[-–—]\s*(\d+)/] at the start of [s], rewritten
    to [$1--$2] and followed by the rest of [s] *)
Definition pageRangeAt (s : string) : option string :=
  let '(d1, r1) := Js.spanDigits s in
  if Js.truthy d1 then
    match stripDash (Js.trimStart r1) with
    | Some r3 =>
        let '(d2, r5) := Js.spanDigits (Js.trimStart r3) in
        if Js.truthy d2 then Some (d1 +:+ "--" +:+ d2 +:+ r5) else None
    | None => None
    end
  else None.

(** [pages.replace(/(\d+)\s*[-–—]\s*(\d+)/, '$1--$2')]: the leftmost match *)
Fixpoint normalizePageRange (s : string) : string :=
  match pageRangeAt s with
  | Some r => r
  | None =>
      match s with
      | String c s' => String c (normalizePageRange s')
      | EmptyString => EmptyString
      end
  end.

Definition extractPages (cfg : config) (record : located) : M string :=
  els ← queryAll record (tags ["pages"]);
  match els with
  | e :: _ =>
      pages ← extractTextContent cfg e;
      ret (normalizePageRange pages)
  | [] => ret ""
  end.

Definition extractDoi (cfg : config) (record : located) : M string :=
  firstText cfg record
    [[tag "doi"];
     [{| typeSel := Some "electronic-resource-num"; attrSels := [AttrEq "source" "DOI"] |}]].

Definition extractUrl (cfg : config) (record : located) : M string :=
  firstText cfg record [[tag "url"]; [tag "urls"; tag "url"]; [tag "remote-source"; tag "url"]].

Definition extractAbstract (cfg : config) (record : located) : M string :=
  firstText cfg record (tags ["abstract"]).

Definition extractKeywords (cfg : config) (record : located) : M string :=
  keywords ← allTexts cfg record [[tag "keyword"]; [tag "keywords"; tag "keyword"]];
  ret (Js.join ", " keywords).

Definition extractBookTitle (cfg : config) (record : located) : M string :=
  firstText cfg record (tags ["secondary-title"; "book-title"]).

Definition extractChapter (cfg : config) (record : located) : M string :=
  firstText cfg record (tags ["chapter"; "section"]).

Definition extractEdition (cfg : config) (record : located) : M string :=
  firstText cfg record (tags ["edition"]).

Definition extractSeries (cfg : config) (record : located) : M string :=
  firstText cfg record (tags ["series"; "collection-title"]).

Definition extractAddress (cfg : config) (record : located) : M string :=
  firstText cfg record (tags ["pub-location"; "address"]).

Definition extractOrganization (cfg : config) (record : located) : M string :=
  firstText cfg record (tags ["organization"; "sponsor"]).

Definition extractInstitution (cfg : config) (record : located) : M string :=
  firstText cfg record (tags ["institution"; "university"]).

Definition extractSchool (cfg : config) (record : located) : M string :=
  firstText cfg record (tags ["school"; "university"; "academic-department"]).

Definition extractNote (cfg : config) (record : located) : M string :=
  firstText cfg record (tags ["note"; "notes"; "research-notes"]).

Definition extractReferenceType (cfg : config) (record : located) : M string :=
  els ← queryAll record (tags ["ref-type"]);
  match els with
  | e :: _ =>
      match e with
      | (_, Elem i _) =>
          match lookupAttr "name" (attributes i) with
          | Some refTypeAttr =>
              if Js.truthy refTypeAttr then ret refTypeAttr else extractTextContent cfg e
          | None => extractTextContent cfg e
          end
      | _ => extractTextContent cfg e
      end
  | [] => ret "Generic"
  end.

(** ** Citation keys *)

Definition stopWords : list string :=
  ["the"; "and"; "of"; "in"; "on"; "at"; "to"; "for"; "with"; "by"].

(** [word.length > 3 && !/^(the|and|of|in|on|at|to|for|with|by)$/i.test(word)] *)
Definition significant (word : string) : bool :=
  (3 <? String.length word)%nat && negb (bool_decide (Js.toLowerCase word ∈ stopWords)).

(** [/[^a-zA-Z0-9_]/g] removed *)
Definition keyChars (s : string) : string := Js.filter Js.isWord s.

(** the key built from the extracted author list, year and title *)
Definition citationKeyOf (authors : list string) (year title : string) (index : nat) : string :=
  let firstAuthor := default "Unknown" (head authors) in
  (* Get last name from first author *)
  let authorParts := Js.splitWs firstAuthor in
  let lastName := Js.filter Js.isAlpha (Js.lastOr "" authorParts) in
  let year := if Js.truthy year then year else "0000" in
  (* Extract title words *)
  let titleWords :=
    if Js.truthy title then List.firstn 2 (List.filter significant (Js.splitWs title)) else [] in
  (* Build citation key *)
  let citationKey := lastName +:+ year in
  let citationKey :=
    match titleWords with
    | _ :: _ => citationKey +:+ Js.join "" (Js.capitalize <$> titleWords)
    | [] => citationKey
    end in
  let baseCitationKey := citationKey in
  (* For now, we'll just add the index as a suffix *)
  let citationKey :=
    baseCitationKey +:+ (if (0 <? index)%nat then "_" +:+ Js.ofNat index else "") in
  keyChars citationKey.

Definition generateCitationKey (cfg : config) (record : located) (index : nat) : M string :=
  authors ← extractAuthors cfg record;
  year ← extractYear cfg record;
  title ← extractTitle cfg record;
  ret (citationKeyOf authors year title index).

(** ** Fields *)

Definition Fields := Js.Obj string.

Definition extractFields (cfg : config) (record : located) : M Fields :=
  let fields : Fields := [] in
  title ← extractTitle cfg record;
  let fields := Js.set "title" title fields in
  authors ← extractAuthors cfg record;
  let fields :=
    match authors with
    | _ :: _ => Js.set "author" (Js.join " and " authors) fields
    | [] => fields
    end in
  v ← extractYear cfg record; let fields := Js.set "year" v fields in
  v ← extractJournal cfg record; let fields := Js.set "journal" v fields in
  v ← extractPublisher cfg record; let fields := Js.set "publisher" v fields in
  v ← extractVolume cfg record; let fields := Js.set "volume" v fields in
  v ← extractNumber cfg record; let fields := Js.set "number" v fields in
  v ← extractPages cfg record; let fields := Js.set "pages" v fields in
  v ← extractDoi cfg record; let fields := Js.set "doi" v fields in
  v ← extractUrl cfg record; let fields := Js.set "url" v fields in
  v ← extractAbstract cfg record; let fields := Js.set "abstract" v fields in
  v ← extractKeywords cfg record; let fields := Js.set "keywords" v fields in
  v ← extractBookTitle cfg record; let fields := Js.set "booktitle" v fields in
  v ← extractChapter cfg record; let fields := Js.set "chapter" v fields in
  v ← extractEdition cfg record; let fields := Js.set "edition" v fields in
  v ← extractSeries cfg record; let fields := Js.set "series" v fields in
  v ← extractAddress cfg record; let fields := Js.set "address" v fields in
  v ← extractOrganization cfg record; let fields := Js.set "organization" v fields in
  v ← extractInstitution cfg record; let fields := Js.set "institution" v fields in
  v ← extractSchool cfg record; let fields := Js.set "school" v fields in
  v ← extractNote cfg record; let fields := Js.set "note" v fields in
  ret fields.

(** ** The registry of journals and publishers *)

Record journalEntry := {
  fullName : string;
  abbreviated : string;
  category : string
}.

Record publisherEntry := {
  pubName : string;
  pubCategory : string
}.

Inductive level := Info | Warning | Error | Success.

(** the mutable members of the converter, with the lines sent to the
    logger *)
Record converter := {
  journals : Js.Obj journalEntry;
  publishers : Js.Obj publisherEntry;
  journalNameToKey : Js.Obj string;
  conversionErrors : list string;
  log : list (level * string)
}.

Definition logLine (l : level) (msg : string) (st : converter) : converter :=
  {| journals := journals st; publishers := publishers st;
     journalNameToKey := journalNameToKey st;
     conversionErrors := conversionErrors st;
     log := log st ++ [(l, msg)] |}.

Definition pushError (msg : string) (st : converter) : converter :=
  {| journals := journals st; publishers := publishers st;
     journalNameToKey := journalNameToKey st;
     conversionErrors := conversionErrors st ++ [msg];
     log := log st |}.

(** [/[^a-zA-Z0-9\s]/g] removed *)
Definition stripPunctuation (s : string) : string :=
  Js.filter (λ c, Js.isAlnum c || Js.isSpace c) s.

Definition generateJournalKey (journalName : string) : string :=
  Js.take 20 (Js.join "" (Js.toLowerCase <$> Js.splitWs (stripPunctuation journalName))).

Definition generatePublisherKey (publisherName : string) : string :=
  Js.take 15 (Js.join "" (Js.toLowerCase <$> Js.splitWs (stripPunctuation publisherName))).

Definition generateAbbreviation (journalName : string) : string :=
  Js.join "" ((λ word, Js.toUpperCase (Js.take 1 word)) <$> Js.splitWs journalName).

(** the first category, in table order, one of whose patterns occurs in
    the name, both in lower case *)
Fixpoint categorize (table : list (string * list string)) (name : string) : string :=
  match table with
  | [] => "Other"
  | (cat, patterns) :: table' =>
      if List.existsb
           (λ pattern, Js.includes (Js.toLowerCase name) (Js.toLowerCase pattern))
           patterns
      then cat else categorize table' name
  end.

Definition categorizeJournal (journalName : string) : string :=
  categorize journalCategories journalName.

Definition categorizePublisher (publisherName : string) : string :=
  categorize publisherCategories publisherName.

Definition addJournal (journalName : string) (st : converter) : converter :=
  match Js.truthyAt (journalNameToKey st) journalName with
  | Some _ => st (* Already exists *)
  | None =>
    let key := generateJournalKey journalName in
    {| journals :=
         Js.set key {| fullName := journalName;
                       abbreviated := generateAbbreviation journalName;
                       category := categorizeJournal journalName |} (journals st);
       publishers := publishers st;
       journalNameToKey := Js.set journalName key (journalNameToKey st);
       conversionErrors := conversionErrors st;
       log := log st |}
  end.

Definition addPublisher (publisherName : string) (st : converter) : converter :=
  let key := generatePublisherKey publisherName in
  match Js.lookup (publishers st) key with
  | Js.Own _ | Js.Inherited _ => st
  | Js.Undefined =>
      {| journals := journals st;
         publishers :=
           Js.set key {| pubName := publisherName;
                         pubCategory := categorizePublisher publisherName |} (publishers st);
         journalNameToKey := journalNameToKey st;
         conversionErrors := conversionErrors st;
         log := log st |}
  end.

(** [this.journalNameToKey[journalName] || null]: the key of a
    registered name, or the member that the registry inherits under
    that name *)
Definition getJournalKey (st : converter) (journalName : string) : option Js.value :=
  Js.truthyAt (journalNameToKey st) journalName.

(** [this.publishers[key] ? key : null] *)
Definition getPublisherKey (st : converter) (publisherName : string) : option string :=
  let key := generatePublisherKey publisherName in
  match Js.lookup (publishers st) key with
  | Js.Own _ | Js.Inherited _ => Some key
  | Js.Undefined => None
  end.

(** the pre-pass over the records *)
Definition collectNames (cfg : config) (record : located) (names : list string)
    (add : string → converter → converter) (st : converter) : M converter :=
  (fix perName (l : list string) (st : converter) : M converter :=
     match l with
     | [] => ret st
     | elementName :: l' =>
         elements ← queryAll record (tags [elementName]);
         texts ← mapM (extractTextContent cfg) elements;
         perName l'
           (fold_left
              (λ st text,
                 if Js.truthy text && Js.truthy (Js.trim text)
                 then add (Js.trim text) st else st)
              texts st)
     end) names st.

Fixpoint collectJournalAndPublisherInfo (cfg : config) (records : list located)
    (st : converter) : M converter :=
  match records with
  | [] => ret st
  | record :: rest =>
      (* Extract journal information *)
      st ← collectNames cfg record ["secondary-title"; "journal"; "periodical"] addJournal st;
      (* Extract publisher information *)
      st ← collectNames cfg record ["publisher"; "pub-location"] addPublisher st;
      collectJournalAndPublisherInfo cfg rest st
  end.

(** ** Formatting *)

Definition formatFieldValue (value fieldName : string) : string :=
  if negb (Js.truthy value) then ""
  else
    (* Trim whitespace *)
    let value := Js.trim value in
    if String.eqb fieldName "pages" then normalizePageRange value
    else if String.eqb fieldName "title" then
      (* Protect capitalization in titles *)
      if negb (Js.startsWith "{" value) && negb (Js.endsWithChar "}" value)
      then "{" +:+ value +:+ "}" else value
    else value.

(** the object that [formatFields] builds: a value is a text, or the
    member of [Object.prototype] that [getJournalKey] has returned *)
Definition Formatted := Js.Obj Js.value.

(** the body of the loop of [formatFields] *)
Definition formatField (cfg : config) (st : converter)
    (formattedFields : Formatted) (kv : string * string) : Formatted :=
  let '(key, value) := kv in
  if negb (Js.truthy value) || String.eqb (Js.trim value) "" then formattedFields
  else
    (* Apply BibLaTeX field mapping if enabled *)
    let fieldName :=
      if useBiblatexFields cfg then
        match Js.truthyAt biblatexFieldMap key with
        | Some mapped => Js.text mapped
        | None => key
        end
      else key in
    let literal :=
      Js.put fieldName (Js.Str (formatFieldValue value fieldName)) formattedFields in
    (* Handle string definitions for journals and publishers *)
    if useStringDefinitions cfg then
      if String.eqb fieldName "journal" || String.eqb fieldName "journaltitle" then
        match getJournalKey st value with
        | Some journalKey => Js.put fieldName journalKey formattedFields
        | None => literal
        end
      else if String.eqb fieldName "publisher" then
        match getPublisherKey st value with
        | Some publisherKey =>
            if Js.truthy publisherKey
            then Js.put fieldName (Js.Str publisherKey) formattedFields
            else literal
        | None => literal
        end
      else literal
    else literal.

Definition formatFields (cfg : config) (st : converter)
    (fields : Fields) (bibtexType : Js.value) : Formatted :=
  fold_left (formatField cfg st) (Js.entries fields) [].

(** the loop of [generateBibtexEntry]: [fieldValue.trim()] throws at a
    value that is not a string *)
Fixpoint emitFields (fields : list (string * Js.value)) (entry : string) : string + string :=
  match fields with
  | [] => inl entry
  | (fieldName, Js.Str fieldValue) :: rest =>
      emitFields rest
        (if Js.truthy fieldValue && Js.truthy (Js.trim fieldValue)
         then entry +:+ "," +:+ Js.nl +:+ "  " +:+ fieldName +:+ " = {" +:+ fieldValue +:+ "}"
         else entry)
  | (_, Js.Member _) :: _ => inr "fieldValue.trim is not a function"
  end.

Definition generateBibtexEntry (type : Js.value) (key : string) (fields : Formatted)
  : string + string :=
  let entry := "@" +:+ Js.text type +:+ "{" +:+ key in
  match emitFields (Js.entries fields) entry with
  | inl entry => inl (entry +:+ Js.nl +:+ "}")
  | inr message => inr message
  end.

(** the journals or publishers of the registry grouped by category, the
    categories in the order in which they first occur (a category is a
    name of the tables or [Other]; no object inherits a member of such a
    name) *)
Definition groupByCategory {E : Type} (cat : E → string) (registry : Js.Obj E)
  : Js.Obj (list (string * E)) :=
  fold_left
    (λ byCategory '(key, e),
       Js.set (cat e) (default [] (Js.get byCategory (cat e)) ++ [(key, e)]) byCategory)
    (Js.entries registry) [].

Definition stringDefinition (key name : string) : string :=
  "@string{" +:+ key +:+ " = " +:+ Js.dquote +:+ name +:+ Js.dquote +:+ "}" +:+ Js.nl.

Definition definitionBlocks {E : Type} (kind : string) (name : E → string)
    (byCategory : Js.Obj (list (string * E))) (stringDefs : string) : string :=
  fold_left
    (λ stringDefs '(cat, group),
       match group with
       | _ :: _ =>
           fold_left (λ defs '(key, e), defs +:+ stringDefinition key (name e)) group
             (stringDefs +:+ Js.nl +:+ "% " +:+ cat +:+ " " +:+ kind +:+ Js.nl)
       | [] => stringDefs
       end)
    (Js.entries byCategory) stringDefs.

Definition generateStringDefinitions (st : converter) : string :=
  match Js.keys (journals st), Js.keys (publishers st) with
  | [], [] => ""
  | _, _ =>
      let stringDefs := "% String definitions for journals and publishers" +:+ Js.nl in
      (* Generate journal string definitions *)
      let stringDefs :=
        definitionBlocks "Journals" fullName (groupByCategory category (journals st)) stringDefs in
      (* Generate publisher string definitions *)
      definitionBlocks "Publishers" pubName
        (groupByCategory pubCategory (publishers st)) stringDefs
  end.

Definition showBool (b : bool) : string := if b then "true" else "false".

(** [timestamp] is [new Date().toISOString()] *)
Definition generateStatistics (cfg : config) (st : converter) (timestamp : string)
    (totalRecords convertedRecords : nat) : string :=
  let errorCount := length (conversionErrors st) in
  "% BibTeX file generated by Reference Converter" +:+ Js.nl +:+
  "% Generation time: " +:+ timestamp +:+ Js.nl +:+
  "% Total records processed: " +:+ Js.ofNat totalRecords +:+ Js.nl +:+
  "% Successfully converted: " +:+ Js.ofNat convertedRecords +:+ Js.nl +:+
  "% Conversion errors: " +:+ Js.ofNat errorCount +:+ Js.nl +:+
  "% Configuration: String definitions=" +:+ showBool (useStringDefinitions cfg) +:+
  ", BibLaTeX=" +:+ showBool (useBiblatexFields cfg) +:+
  ", ACM style=" +:+ showBool (useAcmStyle cfg).

(** [describeXmlStructure(element, maxDepth, currentDepth)] with
    [depth = maxDepth - currentDepth] *)
Fixpoint describeXmlStructure (depth : nat) (element : node) : string :=
  match depth with
  | O => "..."
  | S depth' =>
      match childElements element with
      | [] => nodeTag element
      | children =>
          let childTags := describeXmlStructure depth' <$> List.firstn 5 children in
          let childTags :=
            if (5 <? length children)%nat then childTags ++ ["..."] else childTags in
          nodeTag element +:+ "[" +:+ Js.join ", " childTags +:+ "]"
      end
  end.

(** [None] is [null] *)
Definition getRecordTitle (cfg : config) (record : located) : M (option string) :=
  els ← queryAll record [[tag "title"]; [tag "titles"; tag "title"]];
  match els with
  | e :: _ =>
      title ← extractTextContent cfg e;
      ret (if Js.truthy title
           then Some (Js.take 50 title +:+ (if (50 <? String.length title)%nat then "..." else ""))
           else None)
  | [] => ret None
  end.

(** ** Processing one record *)

(** the enhancement of the API manager: the fields to assign, or the
    message of the error it throws *)
Definition apiManager : Type := Fields → Fields + string.

(** [this.entryTypeMap[refType] || 'misc'] *)
Definition bibtexTypeOf (refType : string) : Js.value :=
  default (Js.Str "misc") (Js.truthyAt entryTypeMap refType).

(** the entry, or the message of the exception, which [processRecord]
    logs and throws again *)
Definition processRecord (cfg : config) (api : option apiManager)
    (record : located) (index : nat) (st : converter)
  : M ((string + string) * converter) :=
  (* Extract reference type *)
  refType ← extractReferenceType cfg record;
  let bibtexType := bibtexTypeOf refType in
  (* Generate citation key *)
  citationKey ← generateCitationKey cfg record index;
  (* Extract all fields *)
  fields ← extractFields cfg record;
  (* Apply API enhancement if enabled *)
  let '(fields, st) :=
    match api with
    | Some enhanceReference =>
        if enableApiEnhancement cfg then
          match enhanceReference fields with
          | inl enhancedFields => (Js.assign fields enhancedFields, st)
          | inr message =>
              (fields,
               logLine Warning
                 ("API enhancement failed for record " +:+ Js.ofNat (index + 1) +:+ ": " +:+ message)
                 st)
          end
        else (fields, st)
    | None => (fields, st)
    end in
  (* Format fields for BibTeX *)
  let formattedFields := formatFields cfg st fields bibtexType in
  (* Generate BibTeX entry *)
  match generateBibtexEntry bibtexType citationKey formattedFields with
  | inl entry => ret (inl entry, st)
  | inr message =>
      ret (inr message,
           logLine Error
             ("Error processing record " +:+ Js.ofNat (index + 1) +:+ ": " +:+ message) st)
  end.

(** ** The conversion run *)

(** the progress callback: current, total, message *)
Definition progressCallback : Type := nat → nat → string → bool.

Definition callProgressCallback (cb : option progressCallback)
    (current total : nat) (message : string) : bool :=
  match cb with
  | Some callback => callback current total message
  | None => true (* Continue processing if no callback *)
  end.

(** the selectors of [possiblePaths], each with its text *)
Definition possiblePaths : list (string * selector) :=
  [ ("record", [[tag "record"]]);
    ("records record", [[tag "records"; tag "record"]]);
    ("xml records record", [[tag "xml"; tag "records"; tag "record"]]);
    ("EndNote records record", [[tag "EndNote"; tag "records"; tag "record"]]);
    ("xml database record", [[tag "xml"; tag "database"; tag "record"]]) ].

Definition locate (d : document) (s : selector) : list located :=
  omap (λ p, (λ h, (p, self h)) <$> sub (documentElement d) p) (docQuerySelectorAllP d s).

(** the loop over the paths: the records of the first path that finds
    any, with the text of that path *)
Fixpoint findRecords (d : document) (paths : list (string * selector))
  : list located * option string :=
  match paths with
  | [] => ([], None)
  | (path, s) :: paths' =>
      match locate d s with
      | [] => findRecords d paths'
      | foundRecords => (foundRecords, Some path)
      end
  end.

(** the loop over the records, from the record at [i] on *)
Fixpoint processRecords (cfg : config) (cb : option progressCallback)
    (api : option apiManager) (total : nat) (records : list located) (i : nat)
    (bibtexEntries : list string) (st : converter) : M (list string * converter) :=
  match records with
  | [] => ret (bibtexEntries, st)
  | record :: rest =>
      (* Update progress with detailed message *)
      title ← getRecordTitle cfg record;
      let progressMessage :=
        "Processing record " +:+ Js.ofNat (i + 1) +:+ "/" +:+ Js.ofNat total +:+
        ": Extracting " +:+ default "reference" title +:+ "..." in
      if negb (callProgressCallback cb (i + 1) total progressMessage) then
        ret (bibtexEntries, logLine Info "Conversion cancelled by user" st)
      else
        '(result, st) ← processRecord cfg api record i st;
        match result with
        | inl entry =>
            if Js.truthy entry then
              title ← getRecordTitle cfg record;
              processRecords cfg cb api total rest (S i) (bibtexEntries ++ [entry])
                (logLine Info
                   ("✓ Processed record " +:+ Js.ofNat (i + 1) +:+ ": " +:+
                    default ("Entry " +:+ Js.ofNat (i + 1)) title) st)
            else
              processRecords cfg cb api total rest (S i) bibtexEntries
                (logLine Warning
                   ("⚠ Skipped record " +:+ Js.ofNat (i + 1) +:+ ": Unable to process") st)
        | inr message =>
            let errorMsg :=
              "Error processing record " +:+ Js.ofNat (i + 1) +:+ ": " +:+ message in
            processRecords cfg cb api total rest (S i) bibtexEntries
              (pushError errorMsg (logLine Error errorMsg st))
        end
  end.

(** the state after the reset at the start of a run *)
Definition initial : converter :=
  {| journals := []; publishers := []; journalNameToKey := [];
     conversionErrors := []; log := [] |}.

Record conversion := {
  output : string;
  entries : list string;
  final : converter;
  finalDocument : document
}.

(** the pre-pass that fills the registry, when string definitions are
    enabled *)
Definition collectPass (cfg : config) (cb : option progressCallback) (total : nat)
    (records : list located) (st : converter) : M converter :=
  (* Only collect journal and publisher info if string definitions are enabled *)
  if useStringDefinitions cfg then
    let _ := callProgressCallback cb 0 total
               "Collecting journal and publisher information for string definitions..." in
    collectJournalAndPublisherInfo cfg records st
  else ret st.

(** the final output, from the entries produced *)
Definition assemble (cfg : config) (timestamp : string) (total : nat)
    (bibtexEntries : list string) (st : converter) : string * converter :=
  let bibtexOutput := "" in
  (* Add string definitions if enabled *)
  let '(bibtexOutput, st) :=
    if useStringDefinitions cfg then
      let st := logLine Info "Generating string definitions..." st in
      let stringDefs := generateStringDefinitions st in
      if Js.truthy stringDefs then
        (bibtexOutput +:+ stringDefs +:+ Js.nl +:+ Js.nl,
         logLine Info
           ("Generated string definitions for " +:+
            Js.ofNat (length (Js.keys (journals st))) +:+ " journals and " +:+
            Js.ofNat (length (Js.keys (publishers st))) +:+ " publishers") st)
      else (bibtexOutput, st)
    else (bibtexOutput, st) in
  (* Add entries *)
  let bibtexOutput := bibtexOutput +:+ Js.join (Js.nl +:+ Js.nl) bibtexEntries in
  (* Add statistics comment *)
  let stats := generateStatistics cfg st timestamp total (length bibtexEntries) in
  let bibtexOutput := stats +:+ Js.nl +:+ Js.nl +:+ bibtexOutput in
  (bibtexOutput,
   logLine Success
     ("Conversion completed! Generated " +:+ Js.ofNat (length bibtexEntries) +:+
      " BibTeX entries from " +:+ Js.ofNat total +:+ " XML records.") st).

(** the log at the start of a run *)
Definition started (cfg : config) : converter :=
  let st := initial in
  let st := logLine Info "Starting conversion process..." st in
  let st := logLine Info ("String definitions enabled: " +:+ showBool (useStringDefinitions cfg)) st in
  let st := logLine Info ("BibLaTeX fields enabled: " +:+ showBool (useBiblatexFields cfg)) st in
  logLine Info ("ACM style enabled: " +:+ showBool (useAcmStyle cfg)) st.

(** the state when the records have been found by [path] *)
Definition located_by (cfg : config) (xmlDoc : document) (records : list located)
    (path : string) : converter :=
  let st := logLine Info ("XML root tag: " +:+ nodeTag xmlDoc) (started cfg) in
  let st :=
    logLine Info ("Found " +:+ Js.ofNat (length records) +:+
                  " records using path: " +:+ path) st in
  st.

(** [convertToBibtex], from the document that [DOMParser] returns;
    [timestamp] is the time of the statistics header *)
Definition convertToBibtex (cfg : config) (cb : option progressCallback)
    (api : option apiManager) (timestamp : string) (xmlDoc : document) : conversion :=
  let st := started cfg in
  match docQuerySelector xmlDoc [[tag "parsererror"]] with
  | Some parseError =>
      let errorMsg :=
        "Error parsing XML: " +:+ "XML parsing error: " +:+ textContent (self parseError) in
      {| output := ""; entries := [];
         final := pushError errorMsg (logLine Error errorMsg st);
         finalDocument := xmlDoc |}
  | None =>
      (* Find records with flexible path handling *)
      match findRecords xmlDoc possiblePaths with
      | ((_ :: _) as records, Some path) =>
          let st := located_by cfg xmlDoc records path in
          let total := length records in
          let '(st, d) := collectPass cfg cb total records st xmlDoc in
          (* Process records *)
          let st := logLine Info ("Processing " +:+ Js.ofNat total +:+ " records...") st in
          let '((bibtexEntries, st), d) := processRecords cfg cb api total records 0 [] st d in
          (* Build final BibTeX output *)
          let st := logLine Info "Generating final BibTeX output..." st in
          let _ := callProgressCallback cb total total "Generating final output..." in
          let '(bibtexOutput, st) := assemble cfg timestamp total bibtexEntries st in
          {| output := bibtexOutput; entries := bibtexEntries;
             final := st; finalDocument := d |}
      | _ =>
          let st := logLine Info ("XML root tag: " +:+ nodeTag xmlDoc) st in
          let xmlStructure := describeXmlStructure 3 xmlDoc in
          let errorMsg := "No records found in XML data. XML structure: " +:+ xmlStructure in
          {| output := ""; entries := [];
             final := pushError errorMsg (logLine Error errorMsg st);
             finalDocument := xmlDoc |}
      end
  end.

End XMLConverter.

(* ================================================================== *)
(** * ConversionEngine

    The engine only reads the document.  A selector alias is kept with
    its text, which [extractText] also looks up as the value of a [name]
    or [field] attribute.  The custom field names of the options are
    selector texts, which [Dom.readSelector] reads; a method that can
    throw returns the message of the exception on the right of a sum. *)
(* ================================================================== *)

Module ConversionEngine.
Import Dom.

Record ConversionOptions := {
  includeAbstract : bool;
  includeKeywords : bool;
  includeNotes : bool;
  preserveFormatting : bool;
  customFields : list string;
  citationStyle : string;
  escapeLatex : bool;
  suppressWarnings : bool
}.

Record ConversionResult := {
  bibtex : string;
  entryCount : nat;
  warnings : list string;
  processingTime : nat
}.

(** one selector of a comma-separated list: its text and its parsed form *)
Record alias := { aliasText : string; aliasSel : complex }.

Definition name (t : string) : alias := {| aliasText := t; aliasSel := [tag t] |}.
Definition names (l : list string) : list alias := name <$> l.

(** [e.textContent?.trim()] of the [style] element below [found], or of
    [found] itself *)
Definition styledText (found : handle) : string :=
  match querySelector found [[tag "style"]] with
  | Some styleContent => Js.trim (textContent (self styleContent))
  | None => Js.trim (textContent (self found))
  end.

Fixpoint extractText (element : handle) (selectors : list alias) : string :=
  match selectors with
  | [] => ""
  | selector :: rest =>
      (* Try direct selector first *)
      let found := querySelector element [aliasSel selector] in
      (* If not found, try with attribute selectors *)
      let found :=
        match found with
        | Some f => Some f
        | None =>
            match querySelector element [[star [AttrEq "name" (aliasText selector)]]] with
            | Some f => Some f
            | None => querySelector element [[star [AttrEq "field" (aliasText selector)]]]
            end
        end in
      match found with
      | Some f => styledText f
      | None => extractText element rest
      end
  end.

(** [extractText] at the selector texts of a custom field: a text is
    read when the search comes to it, and a text that the parser
    refuses ends the search with the [SyntaxError] *)
Fixpoint extractTextOf (element : handle) (selectors : list string) : string + string :=
  match selectors with
  | [] => inl ""
  | selector :: rest =>
      match readSelector selector with
      | Some s =>
          (* Try direct selector first *)
          let found := querySelector element [s] in
          (* If not found, try with attribute selectors *)
          let found :=
            match found with
            | Some f => Some f
            | None =>
                match querySelector element [[star [AttrEq "name" selector]]] with
                | Some f => Some f
                | None => querySelector element [[star [AttrEq "field" selector]]]
                end
            end in
          match found with
          | Some f => inl (styledText f)
          | None => extractTextOf element rest
          end
      | None => inr (invalidSelector selector)
      end
  end.

(** the names of the elements found that are not empty *)
Definition authorNames (authors : list handle) : list string :=
  List.filter Js.truthy (styledText <$> authors).

Definition authorSelectors : list selector :=
  [ tags ["author"; "Author"; "authors"; "Authors"];
    tags ["creator"; "Creator"];
    [[{| typeSel := Some "contributor"; attrSels := [AttrEq "type" "author"] |}]];
    [[star [AttrEq "name" "author"]]; [star [AttrEq "field" "author"]]] ].

Definition extractAuthors (element : handle) : string :=
  (* Try EndNote format first - authors in contributors/authors/author structure *)
  let authorsContainer :=
    match querySelector element [[tag "contributors"; tag "authors"]] with
    | Some c => Some c
    | None => querySelector element [[tag "authors"]]
    end in
  let fromContainer :=
    match authorsContainer with
    | Some c => authorNames (querySelectorAll c [[tag "author"]])
    | None => []
    end in
  match fromContainer with
  | _ :: _ => Js.join " and " fromContainer
  | [] =>
      (* Fallback to general selectors *)
      let fallback :=
        (fix go (l : list selector) : option string :=
           match l with
           | [] => None
           | selector :: l' =>
               match authorNames (querySelectorAll element selector) with
               | (_ :: _) as found => Some (Js.join " and " found)
               | [] => go l'
               end
           end) authorSelectors in
      match fallback with
      | Some a => a
      | None =>
          (* Try single author field *)
          let singleAuthor :=
            extractText element (names ["author"; "Author"; "creator"; "Creator"]) in
          if Js.truthy singleAuthor then
            (* Split on common delimiters and rejoin with ' and ' *)
            Js.join " and "
              (List.filter Js.truthy (Js.trim <$> Js.splitNames 0 false singleAuthor))
          else ""
      end
  end.

(** [s.match(/\b(19|20)\d{2}\b/)] *)
Fixpoint matchYear (prevWord : bool) (s : string) : option string :=
  match s with
  | EmptyString => None
  | String c s' =>
      let y := Js.take 4 s in
      if negb prevWord
         && (Js.startsWith "19" y || Js.startsWith "20" y)
         && (String.length y =? 4)%nat && Js.forallb Js.isDigit y
         && negb (Js.startsWithWord (Js.drop 4 s))
      then Some y
      else matchYear (Js.isWord c) s'
  end.

Definition extractYear (element : handle) : string :=
  let yearText :=
    extractText element
      (names ["year"; "Year"; "date"; "Date"; "published"; "publication-date"]) in
  if Js.truthy yearText then default "" (matchYear false yearText) else "".

(** a match of [/(\d+)-(\d+)/] at the start of [s], rewritten *)
Definition pageRangeAt (s : string) : option string :=
  let '(d1, r1) := Js.spanDigits s in
  if Js.truthy d1 && Js.startsWith "-" r1 then
    let '(d2, r2) := Js.spanDigits (Js.drop 1 r1) in
    if Js.truthy d2 then Some (d1 +:+ "--" +:+ d2 +:+ r2) else None
  else None.

(** [pages.replace(/(\d+)-(\d+)/, "$1--$2")] *)
Fixpoint normalizePages (s : string) : string :=
  match pageRangeAt s with
  | Some r => r
  | None =>
      match s with
      | String c s' => String c (normalizePages s')
      | EmptyString => EmptyString
      end
  end.

Definition extractPages (element : handle) : string :=
  let pages := extractText element (names ["pages"; "Pages"; "page"; "Page"; "page-range"]) in
  if Js.truthy pages then normalizePages pages else "".

Definition extractKeywords (element : handle) : string :=
  let keywords :=
    extractText element (names ["keywords"; "Keywords"; "keyword"; "subject"; "tags"]) in
  if Js.truthy keywords then
    Js.join ", " (List.filter Js.truthy (Js.trim <$> Js.splitCommas keywords))
  else "".

(** the classification of a non-empty type field, lower-cased; [None]
    when no name of a type occurs in it *)
Definition typeOfField (type : string) : option string :=
  if Js.includes type "article" || Js.includes type "journal" then Some "article"
  else if Js.includes type "book" then Some "book"
  else if Js.includes type "chapter" || Js.includes type "inbook" then Some "inbook"
  else if Js.includes type "conference" || Js.includes type "proceeding" then Some "inproceedings"
  else if Js.includes type "thesis" || Js.includes type "dissertation" then Some "phdthesis"
  else if Js.includes type "report" || Js.includes type "tech" then Some "techreport"
  else if Js.includes type "manual" then Some "manual"
  else if Js.includes type "web" || Js.includes type "online" then Some "misc"
  else None.

(** the heuristic on the fields that are present *)
Definition typeOfPresence (hasJournal hasBooktitle hasPublisher : string) : string :=
  if Js.truthy hasJournal then "article"
  else if Js.truthy hasBooktitle then "inproceedings"
  else if Js.truthy hasPublisher then "book"
  else "misc".

Definition determineBibTeXType (element : handle) : string :=
  let typeField :=
    extractText element (names ["type"; "Type"; "publication-type"; "genre"]) in
  let explicit :=
    if Js.truthy typeField then typeOfField (Js.toLowerCase typeField) else None in
  match explicit with
  | Some t => t
  | None =>
      (* Heuristic based on available fields *)
      let hasJournal := extractText element (names ["journal"; "Journal"]) in
      let hasBooktitle :=
        extractText element (names ["booktitle"; "book-title"; "container-title"]) in
      let hasPublisher := extractText element (names ["publisher"; "Publisher"]) in
      typeOfPresence hasJournal hasBooktitle hasPublisher
  end.

Definition stopWords : list string :=
  ["the"; "and"; "or"; "of"; "in"; "on"; "at"; "to"; "for"; "with"; "by"].

Definition significant (word : string) : bool :=
  (3 <? String.length word)%nat && negb (bool_decide (Js.toLowerCase word ∈ stopWords)).

(** [.toLowerCase().replace(/[^a-z]/g, "")] *)
Definition lowerLetters (s : string) : string := Js.filter Js.isLower (Js.toLowerCase s).

(** the key built from the extracted author, year and title, before the
    fallback *)
Definition keyStem (author year title : string) : string :=
  let key := "" in
  let key :=
    if Js.truthy author then
      (* Extract first author's last name *)
      let firstAuthor := Js.trim (Js.beforeSep " and " author) in
      let nameParts := Js.splitWs firstAuthor in
      key +:+ lowerLetters (Js.lastOr "" nameParts)
    else key in
  let key := if Js.truthy year then key +:+ year else key in
  if Js.truthy title && (String.length key <? 10)%nat then
    (* Add first significant word from title *)
    match List.filter significant (Js.splitWs title) with
    | w :: _ => key +:+ Js.take 6 (lowerLetters w)
    | [] => key
    end
  else key.

Definition bibTeXKeyOf (author year title : string) (refNumber : nat) : string :=
  let key := keyStem author year title in
  (* Fallback to reference number if key is too short *)
  if (String.length key <? 3)%nat then "ref" +:+ Js.ofNat refNumber else key.

Definition generateBibTeXKey (element : handle) (refNumber : nat) : string :=
  bibTeXKeyOf (extractAuthors element) (extractYear element)
              (extractText element (names ["title"; "Title"])) refNumber.

(** a reference: the object built by [parseReference], with its [id]
    and [type] *)
Definition Reference := Js.Obj string.

Definition field (ref : Reference) (k : string) : string := default "" (Js.get ref k).

(** the reference with its core fields, the publication details and the
    optional fields *)
Definition describeReference (element : handle) (options : ConversionOptions)
    (refNumber : nat) : Reference :=
  let reference : Reference :=
    [ ("id", generateBibTeXKey element refNumber);
      ("type", determineBibTeXType element) ] in
  (* Core fields *)
  let reference := Js.set "title" (extractText element (names ["title"; "Title"; "TITLE"])) reference in
  let reference := Js.set "author" (extractAuthors element) reference in
  let reference := Js.set "year" (extractYear element) reference in
  (* Publication details *)
  let reference :=
    Js.set "journal" (extractText element (names ["journal"; "Journal"; "publication"; "source"]))
      reference in
  let reference := Js.set "volume" (extractText element (names ["volume"; "Volume"])) reference in
  let reference :=
    Js.set "number" (extractText element (names ["number"; "Number"; "issue"; "Issue"])) reference in
  let reference := Js.set "pages" (extractPages element) reference in
  let reference :=
    Js.set "publisher" (extractText element (names ["publisher"; "Publisher"])) reference in
  let reference :=
    Js.set "address" (extractText element (names ["address"; "Address"; "location"])) reference in
  (* DOI and URLs *)
  let reference :=
    Js.set "doi"
      (extractText element
         [ name "doi"; name "DOI";
           {| aliasText := "identifier[type=doi]";
              aliasSel := [{| typeSel := Some "identifier"; attrSels := [AttrEq "type" "doi"] |}] |} ])
      reference in
  let reference :=
    Js.set "url" (extractText element (names ["url"; "URL"; "link"; "href"])) reference in
  let reference := Js.set "isbn" (extractText element (names ["isbn"; "ISBN"])) reference in
  let reference := Js.set "issn" (extractText element (names ["issn"; "ISSN"])) reference in
  (* Optional fields based on user preferences *)
  let reference :=
    if includeAbstract options then
      Js.set "abstract" (extractText element (names ["abstract"; "Abstract"; "summary"])) reference
    else reference in
  let reference :=
    if includeKeywords options then Js.set "keywords" (extractKeywords element) reference
    else reference in
  if includeNotes options then
    Js.set "note" (extractText element (names ["note"; "Note"; "notes"; "comment"])) reference
  else reference.

(** the body of the loop over the custom fields: the field name is the
    selector list of [extractText], split at its commas *)
Definition addCustomField (element : handle) (reference : Reference) (fieldName : string)
  : Reference + string :=
  match extractTextOf element (Js.trim <$> Js.splitChar "," fieldName) with
  | inl value =>
      inl (if Js.truthy value then Js.put (Js.toLowerCase fieldName) value reference
           else reference)
  | inr message => inr message
  end.

(** the loop over the custom fields *)
Fixpoint addCustomFields (element : handle) (fieldNames : list string)
    (reference : Reference) : Reference + string :=
  match fieldNames with
  | [] => inl reference
  | fieldName :: rest =>
      match addCustomField element reference fieldName with
      | inl reference => addCustomFields element rest reference
      | inr message => inr message
      end
  end.

(** [None] is [null]; on the right, the message of the exception *)
Definition parseReference (element : handle) (options : ConversionOptions)
    (refNumber : nat) : option Reference + string :=
  let reference := describeReference element options refNumber in
  (* Custom fields *)
  match addCustomFields element (customFields options) reference with
  | inl reference =>
      (* Validate that we have minimum required fields *)
      if negb (Js.truthy (field reference "title")) && negb (Js.truthy (field reference "author"))
      then inl None
      else inl (Some reference)
  | inr message => inr message
  end.

(** the loop of [entries.forEach]: [index] is the position of the first
    entry of the list; the references pushed, and the warnings *)
Fixpoint parseAll (entries : list handle) (options : ConversionOptions) (index : nat)
  : list Reference * list string :=
  match entries with
  | [] => ([], [])
  | entry :: rest =>
      let '(references, warnings) := parseAll rest options (S index) in
      match parseReference entry options (index + 1) with
      | inl (Some ref) => (ref :: references, warnings)
      | inl None => (references, warnings)
      | inr message =>
          (references,
           ("Error parsing reference " +:+ Js.ofNat (index + 1) +:+ ": " +:+ message)
           :: warnings)
      end
  end.

(** the references, and the warnings pushed *)
Definition extractReferences (xmlDoc : document) (options : ConversionOptions)
  : list Reference * list string :=
  (* Try different XML schemas *)
  let entries := docQuerySelectorAll xmlDoc (tags ["record"; "reference"; "citation"; "item"]) in
  let entries :=
    match entries with
    | [] =>
        (* Try alternative selectors *)
        docQuerySelectorAll xmlDoc
          [[star [HasAttr "title"]]; [star [HasAttr "author"]]; [star [HasAttr "journal"]]]
    | _ => entries
    end in
  match entries with
  | [] => ([], ["No recognizable reference entries found in XML"])
  | _ => parseAll entries options 0
  end.

(** ** Formatting *)

Definition escapeMap : list (ascii * string) :=
  [ ("&"%char, "\&");
    ("%"%char, "\%");
    ("$"%char, "\$");
    ("#"%char, "\#");
    ("_"%char, "\_");
    ("{"%char, "\{");
    ("}"%char, "\}");
    ("~"%char, "\textasciitilde{}");
    ("^"%char, "\textasciicircum{}");
    ("\"%char, "\textbackslash{}") ].

Fixpoint escapeOf (m : list (ascii * string)) (c : ascii) : option string :=
  match m with
  | [] => None
  | (k, v) :: m' => if Ascii.eqb k c then Some v else escapeOf m' c
  end.

(** [/[&%$#_{}~^\\]/] *)
Definition isSpecial (c : ascii) : bool :=
  bool_decide (c ∈ ["&"; "%"; "$"; "#"; "_"; "{"; "}"; "~"; "^"; "\"]%char).

(** [text.replace(/[&%$#_{}~^\\]/g, (char) => escapeMap[char] || char)] *)
Definition escapeLatexCharacters (text : string) : string :=
  if negb (Js.truthy text) then text
  else Js.replaceClass isSpecial
         (λ char, default (String char EmptyString) (escapeOf escapeMap char)) text.

Definition applyCitationStyle (ref : Reference) (options : ConversionOptions) : Reference :=
  let styledRef := ref in
  if String.eqb (citationStyle options) "acm" then
    let styledRef :=
      if Js.truthy (field styledRef "journal")
      then Js.set "journal" ("ACM " +:+ field styledRef "journal") styledRef
      else styledRef in
    if Js.truthy (field styledRef "booktitle")
    then Js.set "booktitle" ("Proceedings of " +:+ field styledRef "booktitle") styledRef
    else styledRef
  else if String.eqb (citationStyle options) "ieee" then
    if Js.truthy (field styledRef "journal") && negb (Js.includes (field styledRef "journal") "IEEE")
    then Js.set "journal" ("IEEE " +:+ field styledRef "journal") styledRef
    else styledRef
  else if String.eqb (citationStyle options) "biblatex" then
    let styledRef :=
      if Js.truthy (field styledRef "journal")
      then Js.delete "journal" (Js.set "journaltitle" (field styledRef "journal") styledRef)
      else styledRef in
    if Js.truthy (field styledRef "pages") && Js.includes (field styledRef "pages") "--" then
      let pages := field styledRef "pages" in
      let start := Js.beforeSep "--" pages in
      let end_ := Js.beforeSep "--" (Js.afterSep "--" pages) in
      Js.set "endpages" (Js.trim end_) (Js.set "pages" (Js.trim start) styledRef)
    else styledRef
  else styledRef.

Definition getFieldOrder (citationStyle : string) : list string :=
  let baseOrder :=
    ["title"; "author"; "journal"; "journaltitle"; "booktitle"; "year"; "volume";
     "number"; "pages"; "endpages"; "publisher"; "address"; "doi"; "url"; "isbn"; "issn"] in
  if String.eqb citationStyle "acm" then
    ["author"; "title"; "journal"; "booktitle"; "year"; "volume"; "number"; "pages";
     "publisher"; "doi"; "url"]
  else if String.eqb citationStyle "ieee" then
    ["author"; "title"; "journal"; "booktitle"; "year"; "volume"; "number"; "pages";
     "publisher"; "doi"]
  else if String.eqb citationStyle "biblatex" then
    ["author"; "title"; "journaltitle"; "booktitle"; "year"; "volume"; "number"; "pages";
     "endpages"; "publisher"; "address"; "doi"; "url"; "isbn"; "issn"]
  else baseOrder.

Definition getStyleInfo (citationStyle : string) : string :=
  let styles : Js.Obj string :=
    [ ("standard", "Standard BibTeX");
      ("acm", "ACM Style (Association for Computing Machinery)");
      ("ieee", "IEEE Style (Institute of Electrical and Electronics Engineers)");
      ("biblatex", "BibLaTeX Format");
      ("apa", "APA Style (American Psychological Association)");
      ("harvard", "Harvard Style");
      ("chicago", "Chicago Style") ] in
  Js.text (default (Js.Str "Standard BibTeX") (Js.truthyAt styles citationStyle)).

(** [timestamp] is [new Date().toISOString()] *)
Definition generateStyleHeader (timestamp citationStyle : string) (entryCount : nat) : string :=
  "% BibTeX file generated by EKD Digital Reference Converter" +:+ Js.nl +:+
  "% Generated on " +:+ timestamp +:+ Js.nl +:+
  "% Citation Style: " +:+ getStyleInfo citationStyle +:+ Js.nl +:+
  "% " +:+ Js.ofNat entryCount +:+ " references converted" +:+ Js.nl +:+ Js.nl.

(** one emitted field, when the reference holds it *)
Definition emitField (options : ConversionOptions) (formattedRef : Reference)
    (entry field : string) : string :=
  let v := default "" (Js.get formattedRef field) in
  if Js.truthy v then
    let fieldValue := if escapeLatex options then escapeLatexCharacters v else v in
    entry +:+ "," +:+ Js.nl +:+ "  " +:+ field +:+ " = {" +:+ fieldValue +:+ "}"
  else entry.

(** one custom field: [formattedRef[fieldName]] also finds a member that
    the reference inherits, which [escapeLatexCharacters] cannot escape *)
Definition emitCustomField (options : ConversionOptions) (formattedRef : Reference)
    (entry fieldName : string) : string + string :=
  match Js.lookup formattedRef fieldName with
  | Js.Inherited member =>
      if escapeLatex options then inr "text.replace is not a function"
      else inl (entry +:+ "," +:+ Js.nl +:+ "  " +:+ fieldName +:+ " = {" +:+
                Js.text (Js.Member member) +:+ "}")
  | Js.Own _ | Js.Undefined => inl (emitField options formattedRef entry fieldName)
  end.

(** the loop over the custom fields *)
Fixpoint emitCustomFields (options : ConversionOptions) (formattedRef : Reference)
    (fields : list string) (entry : string) : string + string :=
  match fields with
  | [] => inl entry
  | field :: rest =>
      match emitCustomField options formattedRef entry (Js.toLowerCase field) with
      | inl entry => emitCustomFields options formattedRef rest entry
      | inr message => inr message
      end
  end.

Definition formatEntry (options : ConversionOptions) (ref : Reference) : string + string :=
  let entry := "@" +:+ field ref "type" +:+ "{" +:+ field ref "id" in
  (* Apply citation style specific formatting *)
  let formattedRef := applyCitationStyle ref options in
  (* Core fields in preferred order (varies by style) *)
  let entry :=
    fold_left (emitField options formattedRef) (getFieldOrder (citationStyle options)) entry in
  (* Add optional fields based on options *)
  let entry := if includeAbstract options then emitField options formattedRef entry "abstract" else entry in
  let entry := if includeKeywords options then emitField options formattedRef entry "keywords" else entry in
  let entry := if includeNotes options then emitField options formattedRef entry "note" else entry in
  (* Add custom fields *)
  match emitCustomFields options formattedRef (customFields options) entry with
  | inl entry => inl (entry +:+ Js.nl +:+ "}")
  | inr message => inr message
  end.

(** [references.map(...)]: the entries, up to the first that throws *)
Fixpoint formatEntries (options : ConversionOptions) (references : list Reference)
  : list string + string :=
  match references with
  | [] => inl []
  | ref :: rest =>
      match formatEntry options ref with
      | inl entry =>
          match formatEntries options rest with
          | inl entries => inl (entry :: entries)
          | inr message => inr message
          end
      | inr message => inr message
      end
  end.

Definition convertToBibTeX (timestamp : string) (references : list Reference)
    (options : ConversionOptions) : string + string :=
  match references with
  | [] => inl "% No references found to convert"
  | _ =>
      match formatEntries options references with
      | inl bibtexEntries =>
          let header :=
            generateStyleHeader timestamp (citationStyle options) (length references) in
          inl (header +:+ Js.join (Js.nl +:+ Js.nl) bibtexEntries +:+ Js.nl)
      | inr message => inr message
      end
  end.

(** [convertXMLToBibTeX], from the document that [DOMParser] returns;
    the error is the message of the exception thrown; [elapsed] is the
    time the clock measures *)
Definition convertXMLToBibTeX (timestamp : string) (elapsed : nat)
    (xmlDoc : document) (options : ConversionOptions) : ConversionResult + string :=
  match docQuerySelector xmlDoc [[tag "parsererror"]] with
  | Some parseError =>
      inr ("Conversion failed: " +:+ "Invalid XML format: " +:+ textContent (self parseError))
  | None =>
      (* Extract references *)
      let '(references, warnings) := extractReferences xmlDoc options in
      (* Convert to BibTeX *)
      match convertToBibTeX timestamp references options with
      | inl bibtex =>
          inl {| bibtex := bibtex;
                 entryCount := length references;
                 warnings := warnings;
                 processingTime := elapsed |}
      | inr message => inr ("Conversion failed: " +:+ message)
      end
  end.

End ConversionEngine.

(* ================================================================== *)
(** * The vocabulary of the properties *)
(* ================================================================== *)

(** A field is filled when it is neither absent nor made of white space
    only: the test [!fields[key] || fields[key].trim() === ''] of the
    merge.  The values that the extraction writes are trimmed, so on the
    fields of a record this is the same as not being the empty string. *)
Definition filled (v : string) : Prop := ExternalAPIManager.isBlank (Some v) = false.

(** a text with a character that is not white space *)
Definition inked (s : string) : Prop := Js.forallb Js.isSpace s = false.

(** what the extraction writes into a field: nothing, or an inked text *)
Definition written (s : string) : Prop := s = "" ∨ inked s.

(** the selectors of the title *)
Definition titleNames : list ConversionEngine.alias :=
  ConversionEngine.names ["title"; "Title"; "TITLE"].

(** The classification in the words of the specification, as amended:
    the explicit type, lower-cased, is matched against the rules in
    order, a rule applying when one of its words occurs in the type; when
    there is no type or no rule applies, the presence of a journal, of a
    book title and of a publisher decides. *)
Definition explicitRules (chapter : string) (manual : list (list string * string))
    (web : string) : list (list string * string) :=
  [ (["article"; "journal"], "article");
    (["book"], "book");
    (["chapter"; "inbook"], chapter);
    (["conference"; "proceeding"], "inproceedings");
    (["thesis"; "dissertation"], "phdthesis");
    (["report"; "tech"], "techreport") ]
  ++ manual ++
  [ (["web"; "online"], web) ].

Fixpoint firstRule (rules : list (list string * string)) (type : string) : option string :=
  match rules with
  | [] => None
  | (words, t) :: rules' =>
      if List.existsb (Js.includes type) words then Some t else firstRule rules' type
  end.

Definition entryTypeByRules (rules : list (list string * string))
    (typeField journal booktitle publisher : string) : string :=
  match (if Js.truthy typeField then firstRule rules (Js.toLowerCase typeField) else None) with
  | Some t => t
  | None =>
      if Js.truthy journal then "article"
      else if Js.truthy booktitle then "inproceedings"
      else if Js.truthy publisher then "book"
      else "misc"
  end.

(** the rules of the code *)
Definition codeRules : list (list string * string) :=
  explicitRules "inbook" [(["manual"], "manual")] "misc".

(** the rules that the specification states, with either reading of
    "online or misc" *)
Definition statedRules (web : string) : list (list string * string) :=
  explicitRules "incollection" [] web.

Definition typeOfElement (rules : list (list string * string)) (element : Dom.handle)
  : string :=
  entryTypeByRules rules
    (ConversionEngine.extractText element
       (ConversionEngine.names ["type"; "Type"; "publication-type"; "genre"]))
    (ConversionEngine.extractText element (ConversionEngine.names ["journal"; "Journal"]))
    (ConversionEngine.extractText element
       (ConversionEngine.names ["booktitle"; "book-title"; "container-title"]))
    (ConversionEngine.extractText element (ConversionEngine.names ["publisher"; "Publisher"])).

(** the key in the words of the specification: the characters that are
    not alphanumeric removed, lower-cased, truncated *)
Definition keyOfName (len : nat) (name : string) : string :=
  Js.take len (Js.toLowerCase (Js.filter Js.isAlnum name)).

(** the registry after the names have been observed, in order *)
Definition observeJournals (names : list string) (st : XMLConverter.converter)
  : XMLConverter.converter :=
  fold_left (λ st n, XMLConverter.addJournal n st) names st.

(** the definition that [addJournal] writes for a name *)
Definition journalOf (n : string) : XMLConverter.journalEntry :=
  {| XMLConverter.fullName := n;
     XMLConverter.abbreviated := XMLConverter.generateAbbreviation n;
     XMLConverter.category := XMLConverter.categorizeJournal n |}.

(** the names are registered under their keys, and no registered name
    is the name of an inherited member *)
Definition keyed (st : XMLConverter.converter) : Prop :=
  NoDup (XMLConverter.journals st).*1
  ∧ ∀ n k, Js.get (XMLConverter.journalNameToKey st) n = Some k →
           k = XMLConverter.generateJournalKey n ∧ Js.inherited n = false.

(** the block of a category in the string definitions: the heading and
    one [@string] line for each definition of the category *)
Definition blockText {E : Type} (kind : string) (name : E → string)
    (block : string * list (string * E)) : string :=
  match block.2 with
  | [] => ""
  | group =>
      Js.nl +:+ "% " +:+ block.1 +:+ " " +:+ kind +:+ Js.nl +:+
      Js.join "" ((λ d, XMLConverter.stringDefinition d.1 (name d.2)) <$> group)
  end.

Definition blocksText {E : Type} (kind : string) (name : E → string)
    (blocks : list (string * list (string * E))) : string :=
  Js.join "" (blockText kind name <$> blocks).

(** the characters that stand between the two numbers of a page range:
    the hyphen, the en dash and the em dash *)
Definition dashes : list string := ["-"; "–"; "—"].

(** the registry after the publishers have been observed, in order *)
Definition observePublishers (names : list string) (st : XMLConverter.converter)
  : XMLConverter.converter :=
  fold_left (λ st n, XMLConverter.addPublisher n st) names st.

(** the definition that [addPublisher] writes for a name *)
Definition publisherOf (n : string) : XMLConverter.publisherEntry :=
  {| XMLConverter.pubName := n;
     XMLConverter.pubCategory := XMLConverter.categorizePublisher n |}.

(** a lower-case letter or a digit *)
Definition isKeyChar (c : ascii) : bool := Js.isLower c || Js.isDigit c.

(** the fields that a provider can set *)
Definition providerKeys : list string :=
  ["title"; "author"; "year"; "journal"; "volume"; "number"; "pages"; "doi"; "url";
   "abstract"; "note"].

(** a character of the ASCII range *)
Definition isAscii (c : ascii) : bool := (Js.code c <? 128)%nat.

(** what [formatFields] can store under a key: a text that is not empty,
    or, with string definitions enabled, the inherited member found for
    the journal *)
Definition soundField (cfg : XMLConverter.config) (kv : string * Js.value) : Prop :=
  match kv.2 with
  | Js.Str v => Js.truthy v = true
  | Js.Member _ =>
      XMLConverter.useStringDefinitions cfg = true
      ∧ (kv.1 = "journal" ∨ kv.1 = "journaltitle")
  end.

(** unfolding the operations of the document monad *)
Ltac step_monad :=
  unfold mbind, XMLConverter.M_bind, XMLConverter.bind, mret, XMLConverter.M_ret,
    XMLConverter.ret.

(** ** Sample documents and payloads *)

Definition smithRecord (title : string) : Dom.node :=
  Dom.el "record"
    [ Dom.leaf "title" title; Dom.leaf "author" "John Smith"; Dom.leaf "year" "2023" ].

Definition bareRecord : Dom.node := Dom.el "record" [Dom.leaf "year" "2020"].

Definition standardOptions : ConversionEngine.ConversionOptions :=
  {| ConversionEngine.includeAbstract := false;
     ConversionEngine.includeKeywords := false;
     ConversionEngine.includeNotes := false;
     ConversionEngine.preserveFormatting := false;
     ConversionEngine.customFields := [];
     ConversionEngine.citationStyle := "standard";
     ConversionEngine.escapeLatex := true;
     ConversionEngine.suppressWarnings := false |}.

(** the standard options with custom fields *)
Definition withCustomFields (fields : list string) : ConversionEngine.ConversionOptions :=
  {| ConversionEngine.includeAbstract := false;
     ConversionEngine.includeKeywords := false;
     ConversionEngine.includeNotes := false;
     ConversionEngine.preserveFormatting := false;
     ConversionEngine.customFields := fields;
     ConversionEngine.citationStyle := "standard";
     ConversionEngine.escapeLatex := true;
     ConversionEngine.suppressWarnings := false |}.

Definition editionOptions : ConversionEngine.ConversionOptions := withCustomFields ["edition"].

Definition typedRecord (type : string) : Dom.handle :=
  Dom.documentElement
    (Dom.el "record"
       [Dom.leaf "title" "Notes"; Dom.leaf "type" type; Dom.leaf "journal" "Annals"]).

Definition libraryDocument : Dom.document :=
  Dom.el "library" [Dom.el "shelf" [Dom.leaf "book" "Dune"]].

Definition feedDocument : Dom.document :=
  Dom.el "feed" [Dom.leaf "item" "An Item"; Dom.el "entry" [Dom.leaf "record" "A Record"]].

Definition ieeeRecord : Dom.node :=
  Dom.el "record"
    [ Dom.el "titles" [Dom.leaf "title" "Pipelined Adders"];
      Dom.el "contributors" [Dom.el "authors" [Dom.leaf "author" "Ada Hopper"]];
      Dom.el "dates" [Dom.leaf "year" "1999"];
      Dom.el "periodical" [Dom.leaf "full-title" "IEEE Transactions on Computers"] ].

Definition ieeeDocument : Dom.document := Dom.el "xml" [Dom.el "records" [ieeeRecord]].

(** three records, and a callback that stops the run at the second *)
Definition trioDocument : Dom.document :=
  Dom.el "xml" [smithRecord "First Paper"; smithRecord "Second Paper";
                smithRecord "Third Paper"].

Definition stopAtSecond : XMLConverter.progressCallback :=
  λ current _ _, (current <? 2)%nat.

Definition trioRecord (k : nat) (title : string) : XMLConverter.located :=
  ([k], smithRecord title).

(** a record with a note of its reader *)
Definition annotatedDocument : Dom.document :=
  Dom.el "xml"
    [ Dom.el "record"
        [ Dom.leaf "title" "A Study of Things"; Dom.leaf "author" "John Smith";
          Dom.leaf "year" "2023"; Dom.leaf "notes" "read twice" ] ].

Definition annotatedRecord : XMLConverter.located :=
  ([0%nat], Dom.el "record"
     [ Dom.leaf "title" "A Study of Things"; Dom.leaf "author" "John Smith";
       Dom.leaf "year" "2023"; Dom.leaf "notes" "read twice" ]).

(** a paper of the first provider that matches the record below *)
Definition samplePaper : ExternalAPIManager.ssPaper :=
  {| ExternalAPIManager.title := Some "A Study of Things";
     ExternalAPIManager.authors := Some [ {| ExternalAPIManager.name := Some "John Smith" |} ];
     ExternalAPIManager.year := Some 2023%Z;
     ExternalAPIManager.journal := None;
     ExternalAPIManager.venue := Some "Journal of Things";
     ExternalAPIManager.doi := Some "10.1000/things";
     ExternalAPIManager.url := None;
     ExternalAPIManager.abstract := None;
     ExternalAPIManager.citationCount := Some 12%Z |}.

Definition sampleNetwork : ExternalAPIManager.network :=
  {| ExternalAPIManager.semanticScholar := λ _, Some [samplePaper];
     ExternalAPIManager.crossref := λ _ _, None |}.

Definition sampleFields : ExternalAPIManager.Fields :=
  [ ("title", "A Study of Things"); ("author", "John Smith"); ("year", "2023");
    ("journal", ""); ("doi", ""); ("note", "read twice") ].

(** two candidates for one record: the first scores 0.70, the second 0.71 *)
Definition candidateAt070 : ExternalAPIManager.ssPaper :=
  {| ExternalAPIManager.title := Some "one two three four five six seven eight nine";
     ExternalAPIManager.authors :=
       Some [ {| ExternalAPIManager.name := Some "John Smyth" |};
              {| ExternalAPIManager.name := Some "Doe Roe" |} ];
     ExternalAPIManager.year := None;
     ExternalAPIManager.journal := None;
     ExternalAPIManager.venue := None;
     ExternalAPIManager.doi := None;
     ExternalAPIManager.url := None;
     ExternalAPIManager.abstract := None;
     ExternalAPIManager.citationCount := None |}.

Definition candidateAt071 : ExternalAPIManager.ssPaper :=
  {| ExternalAPIManager.title :=
       Some "One Two Three Four Five Six Seven Eight Nine Ten Eleven";
     ExternalAPIManager.authors := Some [ {| ExternalAPIManager.name := Some "John Smith" |} ];
     ExternalAPIManager.year := Some 2022%Z;
     ExternalAPIManager.journal := None;
     ExternalAPIManager.venue := None;
     ExternalAPIManager.doi := None;
     ExternalAPIManager.url := None;
     ExternalAPIManager.abstract := None;
     ExternalAPIManager.citationCount := None |}.

Definition targetTitle : option string :=
  Some "one two three four five six seven eight nine ten eleven twelve".

Definition targetAuthors : option string := Some "John Smyth and Doe".

Definition targetYear : option string := Some "2023".

(** a Crossref work that matches the record of [sampleFields], and one
    whose print date has no parts *)
Definition datedWork : ExternalAPIManager.crWork :=
  {| ExternalAPIManager.crTitle := Some ["A Study of Things"];
     ExternalAPIManager.crAuthors :=
       Some [ {| ExternalAPIManager.given := Some "John";
                 ExternalAPIManager.family := Some "Smith" |} ];
     ExternalAPIManager.publishedPrint :=
       Some {| ExternalAPIManager.dateParts := Some [[2023%Z; 5%Z]] |};
     ExternalAPIManager.publishedOnline := None;
     ExternalAPIManager.containerTitle := Some ["Journal of Things"];
     ExternalAPIManager.crVolume := Some "12";
     ExternalAPIManager.crIssue := None;
     ExternalAPIManager.crPage := Some "10-20";
     ExternalAPIManager.crDOI := Some "10.1000/things";
     ExternalAPIManager.crURL := None;
     ExternalAPIManager.crAbstract := None |}.

Definition undatedWork : ExternalAPIManager.crWork :=
  {| ExternalAPIManager.crTitle := Some ["Another Study"];
     ExternalAPIManager.crAuthors := None;
     ExternalAPIManager.publishedPrint := Some {| ExternalAPIManager.dateParts := None |};
     ExternalAPIManager.publishedOnline := None;
     ExternalAPIManager.containerTitle := None;
     ExternalAPIManager.crVolume := None;
     ExternalAPIManager.crIssue := None;
     ExternalAPIManager.crPage := None;
     ExternalAPIManager.crDOI := None;
     ExternalAPIManager.crURL := None;
     ExternalAPIManager.crAbstract := None |}.

(** two Crossref works for the same record: the first scores 0.70, the
    second 0.71 *)
Definition workAt070 : ExternalAPIManager.crWork :=
  {| ExternalAPIManager.crTitle := Some ["one two three four five six seven eight nine"];
     ExternalAPIManager.crAuthors :=
       Some [ {| ExternalAPIManager.given := Some "John";
                 ExternalAPIManager.family := Some "Smyth" |};
              {| ExternalAPIManager.given := Some "Doe";
                 ExternalAPIManager.family := Some "Roe" |} ];
     ExternalAPIManager.publishedPrint := None;
     ExternalAPIManager.publishedOnline := None;
     ExternalAPIManager.containerTitle := None;
     ExternalAPIManager.crVolume := None;
     ExternalAPIManager.crIssue := None;
     ExternalAPIManager.crPage := None;
     ExternalAPIManager.crDOI := None;
     ExternalAPIManager.crURL := None;
     ExternalAPIManager.crAbstract := None |}.

Definition workAt071 : ExternalAPIManager.crWork :=
  {| ExternalAPIManager.crTitle :=
       Some ["One Two Three Four Five Six Seven Eight Nine Ten Eleven"];
     ExternalAPIManager.crAuthors :=
       Some [ {| ExternalAPIManager.given := Some "John";
                 ExternalAPIManager.family := Some "Smith" |} ];
     ExternalAPIManager.publishedPrint :=
       Some {| ExternalAPIManager.dateParts := Some [[2022%Z]] |};
     ExternalAPIManager.publishedOnline := None;
     ExternalAPIManager.containerTitle := None;
     ExternalAPIManager.crVolume := None;
     ExternalAPIManager.crIssue := None;
     ExternalAPIManager.crPage := None;
     ExternalAPIManager.crDOI := None;
     ExternalAPIManager.crURL := None;
     ExternalAPIManager.crAbstract := None |}.

(** a network whose first provider is down *)
Definition crossrefNetwork (items : list ExternalAPIManager.crWork)
  : ExternalAPIManager.network :=
  {| ExternalAPIManager.semanticScholar := λ _, None;
     ExternalAPIManager.crossref := λ _ _, Some items |}.

(** two records, the first in a journal that is named like a member
    that every object inherits *)
Definition memberRecord (i : nat) (journal : string) : XMLConverter.located :=
  ([i], Dom.el "record" [Dom.leaf "title" "On Things"; Dom.leaf "secondary-title" journal]).

Definition memberDocument : Dom.document :=
  Dom.el "xml" [(memberRecord 0 "constructor").2; (memberRecord 1 "Nature").2].

(** a record whose title is set in italics *)
Definition styledDocument : Dom.document :=
  Dom.el "xml"
    [ Dom.el "record"
        [ Dom.el "title"
            [ Dom.Elem {| Dom.tagName := "style"; Dom.attributes := [("face", "italic")] |}
                [Dom.Text "Dune"] ];
          Dom.leaf "author" "Frank Herbert"; Dom.leaf "year" "1965" ] ].

(** the title of that record *)
Definition styledTitle : XMLConverter.located :=
  ([0; 0]%nat,
   Dom.el "title"
     [ Dom.Elem {| Dom.tagName := "style"; Dom.attributes := [("face", "italic")] |}
         [Dom.Text "Dune"] ]).

(** a configuration that leaves the text as it is *)
Definition unescaped : XMLConverter.config :=
  {| XMLConverter.suppressWarnings := true; XMLConverter.extractStyledText := true;
     XMLConverter.useAcmStyle := false; XMLConverter.useStringDefinitions := true;
     XMLConverter.useBiblatexFields := false; XMLConverter.escapeLatexChars := false;
     XMLConverter.debugMode := true; XMLConverter.enableApiEnhancement := true |}.

(* ================================================================== *)
(** * Properties *)
(* ================================================================== *)

(** ** Strings *)

Lemma string_app_cons c s1 s2 : String c s1 +:+ s2 = String c (s1 +:+ s2).
Proof. reflexivity. Qed.

Lemma string_app_nil_l s : "" +:+ s = s.
Proof. reflexivity. Qed.

Lemma string_app_nil_r s : s +:+ "" = s.
Proof. induction s as [|c s IH]; [done|]. by rewrite string_app_cons, IH. Qed.

Lemma string_app_assoc s1 s2 s3 : (s1 +:+ s2) +:+ s3 = s1 +:+ s2 +:+ s3.
Proof. induction s1 as [|c s1 IH]; [done|]. by rewrite !string_app_cons, IH. Qed.

Lemma string_length_app s1 s2 :
  String.length (s1 +:+ s2) = (String.length s1 + String.length s2)%nat.
Proof. induction s1 as [|c s1 IH]; [done|]. rewrite string_app_cons. simpl. by rewrite IH. Qed.

Lemma truthy_ne s : Js.truthy s = true ↔ s ≠ "".
Proof. destruct s; simpl; split; congruence. Qed.

Lemma not_truthy s : Js.truthy s = false ↔ s = "".
Proof. destruct s; simpl; split; congruence. Qed.

Lemma map_app f s1 s2 : Js.map f (s1 +:+ s2) = Js.map f s1 +:+ Js.map f s2.
Proof. induction s1 as [|c s1 IH]; [done|]. rewrite string_app_cons. simpl. by rewrite IH. Qed.

Lemma forallb_app p s1 s2 :
  Js.forallb p (s1 +:+ s2) = Js.forallb p s1 && Js.forallb p s2.
Proof.
  induction s1 as [|c s1 IH]; [done|]. rewrite string_app_cons. simpl.
  by rewrite IH, andb_assoc.
Qed.

Lemma join_empty_cons x l : Js.join "" (x :: l) = x +:+ Js.join "" l.
Proof. destruct l; simpl; [by rewrite string_app_nil_r | done]. Qed.

Lemma splitWs_nonempty s : Js.splitWs s ≠ [].
Proof.
  induction s as [|c s IH]; simpl; [done|].
  destruct (Js.isSpace c).
  - destruct s as [|b s]; [done|]. by destruct (Js.isSpace b).
  - by destruct (Js.splitWs s).
Qed.

(** the pieces of a split at white space, put together, are the text
    without its white space *)
Lemma join_splitWs s :
  Js.join "" (Js.splitWs s) = Js.filter (λ c, negb (Js.isSpace c)) s.
Proof.
  induction s as [|c s IH]; [done|].
  cbn [Js.splitWs Js.filter]. destruct (Js.isSpace c) eqn:Hc; cbn [negb].
  - destruct s as [|b s]; [done|].
    destruct (Js.isSpace b) eqn:Hb; [done|]. by rewrite join_empty_cons.
  - pose proof (splitWs_nonempty s) as Hne.
    destruct (Js.splitWs s) as [|h t]; [done|].
    rewrite join_empty_cons in *. rewrite string_app_cons. by rewrite IH.
Qed.

Lemma join_map_lower l :
  Js.join "" (Js.toLowerCase <$> l) = Js.toLowerCase (Js.join "" l).
Proof.
  induction l as [|x l IH]; [done|].
  rewrite fmap_cons, !join_empty_cons, IH. unfold Js.toLowerCase. by rewrite map_app.
Qed.

Lemma filter_filter p q s :
  Js.filter p (Js.filter q s) = Js.filter (λ c, q c && p c) s.
Proof.
  induction s as [|c s IH]; [done|]. simpl.
  destruct (q c); simpl; [|done]. destruct (p c); by rewrite IH.
Qed.

Lemma filter_ext p q s : (∀ c, p c = q c) → Js.filter p s = Js.filter q s.
Proof. intros H. induction s as [|c s IH]; [done|]. simpl. by rewrite H, IH. Qed.

Lemma alnum_not_space c : Js.isAlnum c = true → Js.isSpace c = false.
Proof. destruct c as [[] [] [] [] [] [] [] []]; vm_compute; congruence. Qed.

Lemma rev_app_forallb p s acc :
  Js.forallb p (String.rev_app s acc) = Js.forallb p s && Js.forallb p acc.
Proof.
  revert acc. induction s as [|c s IH]; intros acc; simpl; [done|].
  rewrite IH. simpl. destruct (p c), (Js.forallb p s); simpl; try done.
Qed.

Lemma rev_app_empty s acc : String.rev_app s acc = "" → s = "" ∧ acc = "".
Proof.
  revert acc. induction s as [|c s IH]; intros acc; simpl; [done|].
  intros [_ [=]]%IH.
Qed.

Lemma trimStart_forallb s :
  Js.forallb Js.isSpace (Js.trimStart s) = Js.forallb Js.isSpace s.
Proof.
  induction s as [|c s IH]; [done|]. simpl.
  destruct (Js.isSpace c) eqn:Hc; simpl; [done | by rewrite Hc].
Qed.

Lemma trimStart_empty s : Js.trimStart s = "" → Js.forallb Js.isSpace s = true.
Proof. intros H. by rewrite <- trimStart_forallb, H. Qed.

(** a text that trims to nothing is made of white space *)
Lemma trim_empty s : Js.trim s = "" → Js.forallb Js.isSpace s = true.
Proof.
  unfold Js.trim, Js.trimEnd, String.rev. intros [H _]%rev_app_empty.
  apply trimStart_empty in H. rewrite rev_app_forallb, andb_true_r in H.
  by rewrite trimStart_forallb in H.
Qed.

Lemma rev_app_app s acc : String.rev_app s acc = String.rev_app s "" +:+ acc.
Proof.
  revert acc. induction s as [|c s IH]; intros acc; [done|]. cbn [String.rev_app].
  rewrite IH, (IH (String c "")). by rewrite string_app_assoc.
Qed.

Lemma rev_app_snoc s c acc :
  String.rev_app (s +:+ String c "") acc = String c (String.rev_app s acc).
Proof.
  revert acc. induction s as [|a s IH]; intros acc; [done|].
  rewrite string_app_cons. cbn [String.rev_app]. apply IH.
Qed.

Lemma rev_snoc s c : String.rev (s +:+ String c "") = String c (String.rev s).
Proof. apply rev_app_snoc. Qed.

Lemma rev_involutive s : String.rev (String.rev s) = s.
Proof.
  induction s as [|c s IH]; [done|]. unfold String.rev at 2. cbn [String.rev_app].
  rewrite rev_app_app. fold (String.rev s). by rewrite rev_snoc, IH.
Qed.

(** a text that starts and ends with a character that is not white
    space is left as it is *)
Lemma trim_fixed s :
  Js.trimStart s = s → Js.trimStart (String.rev s) = String.rev s → Js.trim s = s.
Proof.
  intros H1 H2. unfold Js.trim, Js.trimEnd. by rewrite H1, H2, rev_involutive.
Qed.

(** a text without white space is trimmed to itself *)
Lemma trim_unspaced s :
  Js.forallb (λ c, negb (Js.isSpace c)) s = true → Js.trim s = s.
Proof.
  intros Hs. apply trim_fixed.
  - destruct s as [|c s]; [done|]. cbn [Js.forallb] in Hs.
    apply andb_true_iff in Hs as [Hc _]. cbn [Js.trimStart].
    by apply negb_true_iff in Hc as ->.
  - pose proof (rev_app_forallb (λ c, negb (Js.isSpace c)) s "") as Hr.
    fold (String.rev s) in Hr. rewrite Hs in Hr. cbn [Js.forallb andb] in Hr.
    destruct (String.rev s) as [|c r]; [done|]. cbn [Js.forallb] in Hr.
    apply andb_true_iff in Hr as [Hc _]. cbn [Js.trimStart].
    by apply negb_true_iff in Hc as ->.
Qed.

Lemma filter_alnum_blank s :
  Js.forallb Js.isSpace s = true → Js.filter Js.isAlnum s = "".
Proof.
  induction s as [|c s IH]; [done|]. simpl. intros [Hc Hs]%andb_prop.
  destruct (Js.isAlnum c) eqn:Ha; [|by apply IH].
  apply alnum_not_space in Ha. congruence.
Qed.

Lemma take_empty n : Js.take n "" = "".
Proof. by destruct n. Qed.

Lemma startsWith_cons_inv c p s :
  Js.startsWith (String c p) s = true → ∃ s', s = String c s' ∧ Js.startsWith p s' = true.
Proof.
  destruct s as [|c' s]; simpl; [done|].
  intros [->%Ascii.eqb_eq ?]%andb_prop. eauto.
Qed.

Lemma includes_here s p : Js.startsWith p s = true → Js.includes s p = true.
Proof. intros H. destruct s; simpl; by rewrite H. Qed.

Lemma includes_later c s p : Js.includes s p = true → Js.includes (String c s) p = true.
Proof. intros H. cbn [Js.includes]. rewrite H. apply orb_true_r. Qed.

(** ** Objects *)

Section ObjFacts.
Context {V : Type}.
Implicit Types (o : Js.Obj V) (k : string) (v : V).

Lemma get_set o k v k' :
  Js.get (Js.set k v o) k' = if String.eqb k k' then Some v else Js.get o k'.
Proof.
  induction o as [|[k0 v0] o IH]; simpl.
  - reflexivity.
  - destruct (String.eqb_spec k0 k) as [->|Hne]; simpl.
    + destruct (String.eqb k k'); reflexivity.
    + rewrite IH. destruct (String.eqb_spec k0 k') as [->|?]; [|reflexivity].
      destruct (String.eqb_spec k k'); congruence.
Qed.

Lemma get_set_eq o k v : Js.get (Js.set k v o) k = Some v.
Proof. by rewrite get_set, String.eqb_refl. Qed.

Lemma get_set_ne o k v k' : k ≠ k' → Js.get (Js.set k v o) k' = Js.get o k'.
Proof. intros. rewrite get_set. by destruct (String.eqb_spec k k'). Qed.

Lemma get_None o k : Js.get o k = None ↔ k ∉ o.*1.
Proof.
  induction o as [|[k0 v0] o IH]; simpl.
  - split; [intros _; apply not_elem_of_nil | done].
  - rewrite not_elem_of_cons. destruct (String.eqb_spec k0 k) as [->|?].
    + split; [done | intros [? _]; done].
    + rewrite IH. split; [by split | by intros [_ ?]].
Qed.

Lemma get_Some_elem o k v : Js.get o k = Some v → (k, v) ∈ o.
Proof.
  induction o as [|[k0 v0] o IH]; simpl; [done|].
  destruct (String.eqb_spec k0 k) as [->|?].
  - intros [= ->]. left.
  - intros. right. auto.
Qed.

Lemma elem_get o k v : NoDup o.*1 → (k, v) ∈ o → Js.get o k = Some v.
Proof.
  induction o as [|[k0 v0] o IH]; simpl.
  - intros _ H. by apply elem_of_nil in H.
  - intros [Hk0 Hnd]%NoDup_cons [[= -> ->]|Hin]%elem_of_cons.
    + by rewrite String.eqb_refl.
    + destruct (String.eqb_spec k0 k) as [->|?]; [|by apply IH].
      exfalso. apply Hk0. apply list_elem_of_fmap. by exists (k, v).
Qed.

Lemma keys_set o k v :
  (Js.set k v o).*1 = if bool_decide (k ∈ o.*1) then o.*1 else o.*1 ++ [k].
Proof.
  induction o as [|[k0 v0] o IH].
  - reflexivity.
  - cbn [Js.set]. destruct (String.eqb_spec k0 k) as [->|Hne].
    + rewrite bool_decide_eq_true_2; [done | rewrite fmap_cons; left].
    + rewrite !fmap_cons, IH. cbn [fst].
      destruct (decide (k ∈ o.*1)) as [Hin|Hout].
      * rewrite !bool_decide_eq_true_2; [done | by right | done].
      * rewrite !bool_decide_eq_false_2; [done | | done].
        rewrite not_elem_of_cons. split; [congruence | done].
Qed.

Lemma NoDup_set o k v : NoDup o.*1 → NoDup (Js.set k v o).*1.
Proof.
  intros Hnd. rewrite keys_set. case_bool_decide; [done|].
  apply NoDup_app. split_and!; [done| |apply NoDup_singleton].
  intros x Hx ->%list_elem_of_singleton. done.
Qed.

Lemma put_set o k v : k ≠ "__proto__" → Js.put k v o = Js.set k v o.
Proof. intros Hk. unfold Js.put. by destruct (String.eqb_spec k "__proto__"). Qed.

Lemma get_put_ne o k v k' : k ≠ k' → Js.get (Js.put k v o) k' = Js.get o k'.
Proof.
  intros Hk. unfold Js.put. destruct (String.eqb k "__proto__"); [done|].
  by apply get_set_ne.
Qed.

Lemma get_assign o1 o2 k :
  NoDup o2.*1 →
  Js.get (Js.assign o1 o2) k =
    if String.eqb k "__proto__" then Js.get o1 k
    else match Js.get o2 k with Some v => Some v | None => Js.get o1 k end.
Proof.
  unfold Js.assign. revert o1. induction o2 as [|[k0 v0] o2 IH]; intros o1 Hnd.
  - cbn [fold_left Js.get]. by destruct (String.eqb k "__proto__").
  - rewrite fmap_cons in Hnd. apply NoDup_cons in Hnd as [Hk0 Hnd]. cbn [fst] in Hk0.
    cbn [fold_left Js.get]. rewrite IH by done.
    destruct (String.eqb_spec k "__proto__") as [Hk|Hk].
    + unfold Js.put. destruct (String.eqb_spec k0 "__proto__"); [done|].
      apply get_set_ne. congruence.
    + destruct (String.eqb_spec k0 k) as [->|?].
      * rewrite put_set, get_set_eq by done. apply get_None in Hk0. by rewrite Hk0.
      * by rewrite get_put_ne.
Qed.

Lemma insertIndexed_perm (x : N * (string * V)) l : Js.insertIndexed x l ≡ₚ x :: l.
Proof.
  induction l as [|y l IH]; simpl; [done|].
  destruct (fst x <=? fst y)%N; [done|]. rewrite IH. apply Permutation_swap.
Qed.

Lemma entries_perm o : Js.entries o ≡ₚ o.
Proof.
  unfold Js.entries. induction o as [|[k0 v0] o IH]; [done|].
  cbn [omap list_omap List.filter fst]. destruct (Js.arrayIndex k0) as [n|] eqn:Hix.
  - cbn [fmap option_fmap option_map fold_right].
    rewrite (bool_decide_eq_true_2 (is_Some (Some n))) by eauto. cbn [negb].
    rewrite insertIndexed_perm. rewrite fmap_cons. cbn [snd app]. by rewrite IH.
  - cbn [fmap option_fmap option_map].
    rewrite (bool_decide_eq_false_2 (is_Some None)) by (by intros [? ?]). cbn [negb].
    rewrite <- Permutation_middle. by rewrite IH.
Qed.

Lemma entries_elem o x : x ∈ Js.entries o ↔ x ∈ o.
Proof. by rewrite entries_perm. Qed.

Lemma entries_NoDup o : NoDup o.*1 → NoDup (Js.entries o).*1.
Proof. intros. by rewrite entries_perm. Qed.

End ObjFacts.

Lemma get_perm {V : Type} (o o' : Js.Obj V) k :
  NoDup o.*1 → o ≡ₚ o' → Js.get o k = Js.get o' k.
Proof.
  intros Hnd Hp. assert (NoDup o'.*1) as Hnd' by (by rewrite <- Hp).
  destruct (Js.get o k) as [v|] eqn:Hg.
  - symmetry. apply elem_get; [done|]. rewrite <- Hp. by apply get_Some_elem.
  - symmetry. apply get_None. rewrite <- Hp. by apply get_None.
Qed.

(** ** Citation keys *)

(** the engine adds the position of a record to its key only when the
    key is shorter than three characters *)
Lemma bibTeXKeyOf_long author year title refNumber :
  (3 ≤ String.length (ConversionEngine.keyStem author year title))%nat →
  ConversionEngine.bibTeXKeyOf author year title refNumber
  = ConversionEngine.keyStem author year title.
Proof.
  intros Hlen. unfold ConversionEngine.bibTeXKeyOf.
  destruct (Nat.ltb_spec (String.length (ConversionEngine.keyStem author year title)) 3);
    [lia | done].
Qed.

(** so the key of an element with such a stem is the same at every
    position of the document *)
Lemma generateBibTeXKey_ignores_position (element : Dom.handle) (m n : nat) :
  (3 ≤ String.length
         (ConversionEngine.keyStem (ConversionEngine.extractAuthors element)
            (ConversionEngine.extractYear element)
            (ConversionEngine.extractText element (ConversionEngine.names ["title"; "Title"]))))%nat →
  ConversionEngine.generateBibTeXKey element m = ConversionEngine.generateBibTeXKey element n.
Proof.
  intros Hlen. unfold ConversionEngine.generateBibTeXKey.
  by rewrite !bibTeXKeyOf_long.
Qed.

(** C1.  Two records with the same author, year and title get the same
    key from [ConversionEngine]; and [XMLConverter], which appends the
    index of the record to the key, gives one key to the first record,
    whose title ends in [_1], and to the second record. *)
Theorem duplicate_citation_keys :
  let twins := Dom.el "xml" [Dom.el "records" [smithRecord "A Study of Things";
                                               smithRecord "A Study of Things"]] in
  let pair := Dom.el "xml" [smithRecord "Study_1"; smithRecord "Study"] in
  let plain :=
    {| XMLConverter.suppressWarnings := true; XMLConverter.extractStyledText := true;
       XMLConverter.useAcmStyle := false; XMLConverter.useStringDefinitions := true;
       XMLConverter.useBiblatexFields := false; XMLConverter.escapeLatexChars := false;
       XMLConverter.debugMode := true; XMLConverter.enableApiEnhancement := true |} in
  (λ ref, ConversionEngine.field ref "id")
    <$> (ConversionEngine.extractReferences twins standardOptions).1
    = ["smith2023study"; "smith2023study"]
  ∧ XMLConverter.entries (XMLConverter.convertToBibtex plain None None "now" pair)
    = [ "@misc{Smith2023Study_1,
  title = {{Study_1}},
  author = {John Smith},
  year = {2023}
}";
        "@misc{Smith2023Study_1,
  title = {{Study}},
  author = {John Smith},
  year = {2023}
}" ].
Proof. vm_compute. split; reflexivity. Qed.

(** ** The title and author gate *)

Section Gate.
Import Dom ConversionEngine.
Implicit Types (element : handle) (options : ConversionOptions) (ref : Reference).

Lemma describeReference_title element options refNumber :
  field (describeReference element options refNumber) "title" = extractText element titleNames.
Proof.
  unfold describeReference, field.
  destruct (includeAbstract options), (includeKeywords options), (includeNotes options);
    reflexivity.
Qed.

Lemma describeReference_author element options refNumber :
  field (describeReference element options refNumber) "author" = extractAuthors element.
Proof.
  unfold describeReference, field.
  destruct (includeAbstract options), (includeKeywords options), (includeNotes options);
    reflexivity.
Qed.

(** a name holds no comma and no white space *)
Lemma name_chars c :
  Js.isWord c || Ascii.eqb c "-" = true →
  Ascii.eqb c "," = false ∧ Js.isSpace c = false.
Proof.
  destruct c as [[] [] [] [] [] [] [] []]; vm_compute; intros; try done.
Qed.

Lemma name_start c :
  Js.isAlpha c || Ascii.eqb c "_" = true → Js.isWord c || Ascii.eqb c "-" = true.
Proof.
  destruct c as [[] [] [] [] [] [] [] []]; vm_compute; intros; try done.
Qed.

Lemma isName_chars f :
  isName f = true → Js.forallb (λ c, Js.isWord c || Ascii.eqb c "-") f = true.
Proof.
  destruct f as [|c f]; [done|]. cbn [isName Js.forallb].
  intros [Hc Hf]%andb_true_iff. by rewrite (name_start c Hc), Hf.
Qed.

Lemma splitChar_name f :
  Js.forallb (λ c, Js.isWord c || Ascii.eqb c "-") f = true → Js.splitChar "," f = [f].
Proof.
  induction f as [|c f IH]; [done|]. cbn [Js.forallb Js.splitChar].
  intros [Hc Hf]%andb_true_iff. destruct (name_chars c Hc) as [-> _]. by rewrite IH.
Qed.

Lemma trim_name f :
  Js.forallb (λ c, Js.isWord c || Ascii.eqb c "-") f = true → Js.trim f = f.
Proof.
  intros Hf. apply trim_unspaced. induction f as [|c f IH]; [done|].
  cbn [Js.forallb] in *. apply andb_true_iff in Hf as [Hc Hf].
  destruct (name_chars c Hc) as [_ ->]. by rewrite IH.
Qed.

(** the text of a custom field that is a name is the text of the
    element of that name *)
Lemma extractTextOf_name element f :
  isName f = true →
  extractTextOf element (Js.trim <$> Js.splitChar "," f) = inl (extractText element [name f]).
Proof.
  intros Hf. pose proof (isName_chars f Hf) as Hc.
  rewrite (splitChar_name f Hc). cbn [fmap list_fmap]. rewrite (trim_name f Hc).
  cbn [extractTextOf extractText]. unfold readSelector. rewrite Hf.
  cbn [name aliasSel aliasText].
  by repeat case_match.
Qed.

(** a custom field only writes text that is not empty *)
Lemma custom_fields_keep_truthy element l ref ref' k :
  addCustomFields element l ref = inl ref' →
  Js.truthy (field ref k) = true → Js.truthy (field ref' k) = true.
Proof.
  revert ref. induction l as [|f l IH]; intros ref; cbn [addCustomFields].
  - by intros [= <-].
  - unfold addCustomField.
    destruct (extractTextOf element _) as [value|]; [|done].
    intros Hl Hk. apply (IH _ Hl).
    destruct (Js.truthy value) eqn:Hv; [|done].
    unfold field, Js.put. destruct (String.eqb (Js.toLowerCase f) "__proto__"); [done|].
    rewrite get_set. by destruct (String.eqb (Js.toLowerCase f) k).
Qed.

Lemma custom_fields_other element l ref ref' k :
  (∀ f, f ∈ l → Js.toLowerCase f ≠ k) →
  addCustomFields element l ref = inl ref' →
  field ref' k = field ref k.
Proof.
  revert ref. induction l as [|f l IH]; intros ref Hl; cbn [addCustomFields].
  - by intros [= <-].
  - unfold addCustomField.
    destruct (extractTextOf element _) as [value|]; [|done].
    intros Hr. rewrite (IH _ ltac:(intros; apply Hl; by right) Hr).
    destruct (Js.truthy value); [|done].
    unfold field. rewrite get_put_ne; [done|]. apply Hl. left.
Qed.

(** custom fields that are names are read without an exception *)
Lemma custom_fields_names element l ref :
  (∀ f, f ∈ l → isName f = true) → ∃ ref', addCustomFields element l ref = inl ref'.
Proof.
  revert ref. induction l as [|f l IH]; intros ref Hl; cbn [addCustomFields]; [eauto|].
  unfold addCustomField. rewrite extractTextOf_name by (apply Hl; left).
  apply IH. intros; apply Hl; by right.
Qed.

Lemma parseAll_elem entries options index ref :
  ref ∈ (parseAll entries options index).1 →
  ∃ entry refNumber,
    entry ∈ entries ∧ parseReference entry options refNumber = inl (Some ref).
Proof.
  revert index. induction entries as [|e entries IH]; intros index; cbn [parseAll].
  - by intros ?%elem_of_nil.
  - specialize (IH (S index)).
    destruct (parseAll entries options (S index)) as [references warnings].
    cbn [fst] in IH.
    destruct (parseReference e options (index + 1)) as [[r|]|message] eqn:Hr; cbn [fst].
    + intros [->|Hin]%elem_of_cons.
      * exists e, (index + 1)%nat. split; [left | done].
      * destruct (IH Hin) as (e' & n & ? & ?). exists e', n. split; [by right | done].
    + intros Hin. destruct (IH Hin) as (e' & n & ? & ?). exists e', n.
      split; [by right | done].
    + intros Hin. destruct (IH Hin) as (e' & n & ? & ?). exists e', n.
      split; [by right | done].
Qed.

(** C2, as amended.  In [ConversionEngine], every reference that
    [parseReference] produces has a title or an author that is not
    empty, and [parseReference] returns [null] only for an element whose
    extracted title and author are both empty.  When every custom field
    name of the options is a name, [parseReference] throws no exception,
    and an element whose extracted title and author are both empty is
    rejected unless a custom field is named as the title or the author.
    Every reference that [extractReferences] returns has a title or an
    author that is not empty. *)
Theorem engine_rejects_only_without_title_and_author element options refNumber :
  (∀ ref, parseReference element options refNumber = inl (Some ref) →
          field ref "title" ≠ "" ∨ field ref "author" ≠ "")
  ∧ (parseReference element options refNumber = inl None →
     extractText element titleNames = "" ∧ extractAuthors element = "")
  ∧ ((∀ f, f ∈ customFields options → isName f = true) →
     ∃ result, parseReference element options refNumber = inl result)
  ∧ ((∀ f, f ∈ customFields options →
            isName f = true ∧ Js.toLowerCase f ≠ "title" ∧ Js.toLowerCase f ≠ "author") →
     extractText element titleNames = "" → extractAuthors element = "" →
     parseReference element options refNumber = inl None)
  ∧ (∀ xmlDoc ref, ref ∈ (extractReferences xmlDoc options).1 →
                   field ref "title" ≠ "" ∨ field ref "author" ≠ "").
Proof.
  assert (∀ e n ref, parseReference e options n = inl (Some ref) →
                     field ref "title" ≠ "" ∨ field ref "author" ≠ "") as Hsome.
  { intros e n ref. unfold parseReference.
    destruct (addCustomFields e _ _) as [r|]; [|done].
    destruct (Js.truthy (field r "title")) eqn:Ht; simpl.
    - intros [= <-]. left. by apply truthy_ne.
    - destruct (Js.truthy (field r "author")) eqn:Ha; simpl; [|done].
      intros [= <-]. right. by apply truthy_ne. }
  split_and!.
  - apply Hsome.
  - unfold parseReference.
    set (r0 := describeReference element options refNumber).
    destruct (addCustomFields element _ r0) as [r|] eqn:Hr; [|done].
    destruct (Js.truthy (field r0 "title")) eqn:Ht.
    { rewrite (custom_fields_keep_truthy element _ r0 r "title" Hr Ht). done. }
    destruct (Js.truthy (field r0 "author")) eqn:Ha.
    { rewrite (custom_fields_keep_truthy element _ r0 r "author" Hr Ha).
      by rewrite andb_false_r. }
    intros _. subst r0.
    rewrite describeReference_title in Ht. rewrite describeReference_author in Ha.
    by apply not_truthy in Ht, Ha.
  - intros Hnames. unfold parseReference.
    destruct (custom_fields_names element (customFields options)
                (describeReference element options refNumber) Hnames) as [r ->].
    destruct (_ && _); eauto.
  - intros Hcustom Ht Ha. unfold parseReference.
    destruct (custom_fields_names element (customFields options)
                (describeReference element options refNumber)) as [r Hr].
    { intros f Hf. by apply Hcustom. }
    rewrite Hr.
    rewrite (custom_fields_other element _ _ r "title") by (done || intros; by apply Hcustom).
    rewrite (custom_fields_other element _ _ r "author") by (done || intros; by apply Hcustom).
    by rewrite describeReference_title, describeReference_author, Ht, Ha.
  - intros xmlDoc ref. unfold extractReferences.
    repeat case_match; cbn [fst]; try (by intros ?%elem_of_nil);
      intros (e & n & _ & Hp)%parseAll_elem; eauto.
Qed.

End Gate.

Lemma engine_rejects_only_without_title_and_author_witness :
  let bare := Dom.documentElement bareRecord in
  let full := Dom.documentElement (smithRecord "A Study of Things") in
  let options := editionOptions in
  ConversionEngine.parseReference bare options 1 = inl None
  ∧ (ConversionEngine.extractText bare titleNames = ""
     ∧ ConversionEngine.extractAuthors bare = "")
  ∧ (∃ result, ConversionEngine.parseReference full options 1 = inl result)
  ∧ (∀ ref, ConversionEngine.parseReference full options 1 = inl (Some ref) →
            ConversionEngine.field ref "title" ≠ "" ∨ ConversionEngine.field ref "author" ≠ "")
  ∧ (∀ ref, ref ∈ (ConversionEngine.extractReferences
                     (Dom.el "xml" [bareRecord; smithRecord "A Study of Things"])
                     options).1 →
            ConversionEngine.field ref "title" ≠ "" ∨ ConversionEngine.field ref "author" ≠ "").
Proof.
  intros bare full options.
  destruct (engine_rejects_only_without_title_and_author bare options 1)
    as (_ & Hnone & _ & Hrej & Hdoc).
  destruct (engine_rejects_only_without_title_and_author full options 1)
    as (Hsome & _ & Hruns & _ & _).
  assert (ConversionEngine.parseReference bare options 1 = inl None) as Hbare.
  { apply Hrej; [|reflexivity|reflexivity].
    intros f [->|[]%elem_of_nil]%elem_of_cons. by vm_compute. }
  split; [exact Hbare|]. split; [exact (Hnone Hbare)|].
  split; [|split; [exact Hsome | apply Hdoc]].
  apply Hruns. intros f [->|[]%elem_of_nil]%elem_of_cons. reflexivity.
Defined.

(** A custom field name that is no selector is a second rejection: with
    the custom field [1st] the engine throws at every element, and a
    record with a title and an author yields a warning and no
    reference. *)
Example refused_custom_field_rejects_every_element :
  let full := Dom.documentElement (smithRecord "A Study of Things") in
  let options := withCustomFields ["1st"] in
  (∃ message, ConversionEngine.parseReference full options 1 = inr message)
  ∧ (ConversionEngine.extractReferences
       (Dom.el "xml" [smithRecord "A Study of Things"]) options).1 = []
  ∧ length (ConversionEngine.extractReferences
              (Dom.el "xml" [smithRecord "A Study of Things"]) options).2 = 1%nat.
Proof. split_and!; [eexists|..]; vm_compute; reflexivity. Qed.

(** C2 fails on [XMLConverter]: [processRecord] has no gate, and a
    record with neither a title nor an author gets an entry. *)
Lemma xmlconverter_has_no_title_author_gate :
  let doc := Dom.el "xml" [bareRecord] in
  let record : XMLConverter.located := ([0%nat], bareRecord) in
  (XMLConverter.extractTitle XMLConverter.defaultConfig record doc).1 = ""
  ∧ (XMLConverter.extractAuthors XMLConverter.defaultConfig record doc).1 = []
  ∧ XMLConverter.entries
      (XMLConverter.convertToBibtex XMLConverter.defaultConfig None None "now" doc)
    = [ "@misc{Unknown2020,
  year = {2020}
}" ].
Proof. vm_compute. split_and!; reflexivity. Qed.

(** ** The order of binary64 numbers *)

Section FloatOrder.
Local Open Scope float_scope.

Lemma SFcompare_antisym x y : SFcompare y x = CompOpp <$> SFcompare x y.
Proof.
  destruct x as [[]|[]| |[] m1 e1], y as [[]|[]| |[] m2 e2]; try reflexivity;
    simpl; rewrite (Z.compare_antisym e1 e2);
    destruct (e1 ?= e2)%Z; simpl; try reflexivity;
    rewrite (Pos.compare_cont_antisym m1 m2 Eq); simpl;
    by rewrite ?CompOpp_involutive.
Qed.

(** [x <= y] excludes [y < x] *)
Lemma leb_not_gt (x y : float) : (x <=? y) = true → (y <? x) = false.
Proof.
  rewrite leb_spec, ltb_spec. unfold SFleb, SFltb.
  rewrite (SFcompare_antisym (Prim2SF x) (Prim2SF y)).
  by destruct (SFcompare (Prim2SF x) (Prim2SF y)) as [[]|].
Qed.

Lemma ltb_leb (x y : float) : (x <? y) = true → (x <=? y) = true.
Proof.
  rewrite leb_spec, ltb_spec. unfold SFleb, SFltb.
  by destruct (SFcompare (Prim2SF x) (Prim2SF y)) as [[]|].
Qed.

(** a number that is at most a finite non-zero [y] and not below it is [y] *)
Lemma leb_not_ltb_eq (x y : float) s m e :
  Prim2SF y = S754_finite s m e → (x <=? y) = true → (x <? y) = false → x = y.
Proof.
  intros Hy. rewrite leb_spec, ltb_spec. unfold SFleb, SFltb. rewrite Hy.
  intros Hle Hlt. apply Prim2SF_inj. rewrite Hy.
  destruct (Prim2SF x) as [[]|[]| |s1 m1 e1]; try (destruct s; simpl in *; congruence).
  simpl in *. destruct s1, s; try congruence;
    destruct (e1 ?= e)%Z eqn:He; simpl in *; try congruence;
    apply Z.compare_eq in He as ->;
    destruct (Pos.compare_cont Eq m1 m) eqn:Hm; simpl in *; try congruence;
    by apply Pos.compare_eq in Hm as ->.
Qed.

End FloatOrder.

(** ** Best-match selection *)

Section BestMatch.
Import ExternalAPIManager.
Local Open Scope float_scope.
Context {A : Type} (score : A → float).
Implicit Types (results : list A) (bestMatch : option A) (bestScore : float).

(** the match that the loop holds has the score that it holds *)
Lemma bestOf_score results bestMatch bestScore r :
  (∀ r, bestMatch = Some r → score r = bestScore) →
  (bestOf score results bestMatch bestScore).1 = Some r →
  score r = (bestOf score results bestMatch bestScore).2
  ∧ (bestMatch = Some r ∨ r ∈ results).
Proof.
  revert bestMatch bestScore.
  induction results as [|x results IH]; intros bestMatch bestScore Hinv; simpl.
  - intros ->. auto.
  - destruct (bestScore <? score x) eqn:Hlt.
    + intros H. destruct (IH (Some x) (score x)) as [? [[= ->]|?]]; auto.
      * by intros ? [= ->].
      * split; [done|]. right. left.
      * split; [done|]. right. by right.
    + intros H. destruct (IH bestMatch bestScore) as [? [?|?]]; auto.
      split; [done|]. right. by right.
Qed.

(** the score that the loop holds stays below a bound on all scores *)
Lemma bestOf_bound results bestMatch bestScore t :
  (bestScore <=? t) = true →
  (∀ r, r ∈ results → (score r <=? t) = true) →
  ((bestOf score results bestMatch bestScore).2 <=? t) = true.
Proof.
  revert bestMatch bestScore.
  induction results as [|x results IH]; intros bestMatch bestScore Hb Hall; simpl; [done|].
  destruct (bestScore <? score x).
  - apply IH; [apply Hall; left | intros; apply Hall; by right].
  - apply IH; [done | intros; apply Hall; by right].
Qed.

(** once the loop holds a match at the top score, it keeps it *)
Lemma bestOf_pinned results r t :
  (∀ x, x ∈ results → (score x <=? t) = true) →
  bestOf score results (Some r) t = (Some r, t).
Proof.
  induction results as [|x results IH]; intros Hall; simpl; [done|].
  rewrite (leb_not_gt (score x) t) by (apply Hall; left).
  apply IH. intros; apply Hall; by right.
Qed.

(** a candidate at the top score [t] is reached: the loop ends holding a
    candidate whose score is [t] *)
Lemma bestOf_top results bestMatch bestScore c t s m e :
  Prim2SF t = S754_finite s m e →
  c ∈ results → score c = t →
  (∀ x, x ∈ results → (score x <=? t) = true) →
  (bestScore <? t) = true →
  ∃ r, bestOf score results bestMatch bestScore = (Some r, t)
       ∧ r ∈ results ∧ score r = t.
Proof.
  intros Ht. revert bestMatch bestScore.
  induction results as [|x results IH]; intros bestMatch bestScore Hc Hsc Hall Hlt.
  - by apply elem_of_nil in Hc.
  - simpl. assert ((score x <=? t) = true) as Hx by (apply Hall; left).
    assert (∀ y, y ∈ results → (score y <=? t) = true) as Hall'
      by (intros; apply Hall; by right).
    destruct (bestScore <? score x) eqn:Hbx.
    + destruct (score x <? t) eqn:Hxt.
      * apply elem_of_cons in Hc as [->|Hc].
        { rewrite Hsc in Hx, Hxt. rewrite (leb_not_gt _ _ Hx) in Hxt. done. }
        destruct (IH (Some x) (score x)) as (r & ? & ? & ?); auto.
        exists r. split_and!; [done | by right | done].
      * assert (score x = t) as Hxe by eauto using leb_not_ltb_eq.
        exists x. rewrite Hxe, bestOf_pinned by done. split_and!; [done | left | done].
    + apply elem_of_cons in Hc as [->|Hc]; [rewrite Hsc in Hbx; congruence|].
      destruct (IH bestMatch bestScore) as (r & ? & ? & ?); auto.
      exists r. split_and!; [done | by right | done].
Qed.

End BestMatch.

Section BestMatchE.
Import ExternalAPIManager.
Local Open Scope float_scope.
Context {A : Type} (score : A → float) (scoreE : A → option float).
Implicit Types (results : list A) (bestMatch : option A) (bestScore : float).

(** while no score throws, the loop of [findBestCrossrefMatch] is the
    loop of [findBestMatch] *)
Lemma bestOfE_bestOf results bestMatch bestScore :
  (∀ x, x ∈ results → scoreE x = Some (score x)) →
  bestOfE scoreE results bestMatch bestScore = Some (bestOf score results bestMatch bestScore).
Proof.
  revert bestMatch bestScore.
  induction results as [|y results IH]; intros bestMatch bestScore Hs; [done|].
  simpl. rewrite (Hs y) by left.
  destruct (bestScore <? score y); apply IH; intros; apply Hs; by right.
Qed.

(** a score that throws ends the loop, wherever it stands *)
Lemma bestOfE_throws results bestMatch bestScore x :
  x ∈ results → scoreE x = None → bestOfE scoreE results bestMatch bestScore = None.
Proof.
  revert bestMatch bestScore.
  induction results as [|y results IH]; intros bestMatch bestScore Hx Hn;
    [by apply elem_of_nil in Hx|].
  simpl. apply elem_of_cons in Hx as [->|Hx]; [by rewrite Hn|].
  destruct (scoreE y); [|done]. destruct (bestScore <? f); by apply IH.
Qed.

(** the match that the loop ends with has the score that it ends with *)
Lemma bestOfE_score results bestMatch bestScore r s :
  (∀ r, bestMatch = Some r → scoreE r = Some bestScore) →
  bestOfE scoreE results bestMatch bestScore = Some (Some r, s) →
  scoreE r = Some s.
Proof.
  revert bestMatch bestScore.
  induction results as [|x results IH]; intros bestMatch bestScore Hinv; simpl.
  - intros [= -> ->]. by apply Hinv.
  - destruct (scoreE x) as [sx|] eqn:Hx; [|done].
    destruct (bestScore <? sx).
    + apply IH. by intros ? [= <-].
    + by apply IH.
Qed.

End BestMatchE.

(** C3, as amended.  In the best-match selection over the candidates of
    a provider, scored by [calculateMatchScore] for Semantic Scholar and
    by [calculateCrossrefMatchScore] for Crossref (title similarity
    weighted 0.6, author similarity 0.3, year within one year 0.1): a
    candidate whose score is exactly 0.70 is never the match returned,
    and no match is returned when no candidate scores above 0.70, the
    threshold being a strict greater-than; a candidate at 0.71 that no
    candidate outscores makes the selection return a candidate scoring
    0.71.  For Crossref this holds when the score of every candidate is
    computed; when the scoring of one candidate throws, the selection
    throws and no candidate is returned. *)
Theorem match_threshold_is_strict
    (results : list ExternalAPIManager.ssPaper) (works : list ExternalAPIManager.crWork)
    (targetTitle targetAuthors targetYear : option string) :
  let score r := ExternalAPIManager.calculateMatchScore r targetTitle targetAuthors targetYear in
  let best := ExternalAPIManager.findBestMatch results targetTitle targetAuthors targetYear in
  let crScore w :=
    ExternalAPIManager.calculateCrossrefMatchScore w targetTitle targetAuthors targetYear in
  let crBest :=
    ExternalAPIManager.findBestCrossrefMatch works targetTitle targetAuthors targetYear in
  ((∀ c, score c = 0.7%float → best ≠ Some c)
   ∧ ((∀ r, r ∈ results → (score r <=? 0.7)%float = true) → best = None)
   ∧ (∀ c, c ∈ results → score c = 0.71%float →
        (∀ r, r ∈ results → (score r <=? 0.71)%float = true) →
        ∃ r, best = Some r ∧ r ∈ results ∧ score r = 0.71%float))
  ∧ ((∀ c, crScore c = Some 0.7%float → crBest ≠ Some (Some c))
     ∧ ((∀ w, w ∈ works → ∃ s, crScore w = Some s ∧ (s <=? 0.7)%float = true) →
        crBest = Some None)
     ∧ (∀ c, c ∈ works → crScore c = Some 0.71%float →
          (∀ w, w ∈ works → ∃ s, crScore w = Some s ∧ (s <=? 0.71)%float = true) →
          ∃ w, crBest = Some (Some w) ∧ w ∈ works ∧ crScore w = Some 0.71%float)
     ∧ ((∃ w, w ∈ works ∧ crScore w = None) → crBest = None)).
Proof.
  intros score best crScore crBest. split.
  - subst best. unfold ExternalAPIManager.findBestMatch. fold score.
    destruct (ExternalAPIManager.bestOf score results None 0%float)
      as [bestMatch bestScore] eqn:Hbest.
    split_and!.
    + intros c Hc Hret.
      destruct (0.7 <? bestScore)%float eqn:Hgt; [|done]. subst bestMatch.
      destruct (bestOf_score score results None 0%float c) as [Hs _];
        [done | by rewrite Hbest |].
      rewrite Hbest, Hc in Hs. simpl in Hs. subst bestScore.
      vm_compute in Hgt. done.
    + intros Hall.
      pose proof (bestOf_bound score results None 0%float 0.7%float eq_refl Hall) as Hb.
      rewrite Hbest in Hb. simpl in Hb. by rewrite (leb_not_gt _ _ Hb).
    + intros c Hc Hsc Hall.
      destruct (bestOf_top score results None 0%float c 0.71%float
                  false 6395111470866104%positive (-53)%Z)
        as (r & Hr & Hin & Hsr); [vm_compute; reflexivity | done.. | reflexivity |].
      rewrite Hbest in Hr. injection Hr as -> ->.
      exists r. by split_and!.
  - subst crBest. unfold ExternalAPIManager.findBestCrossrefMatch. fold crScore.
    set (total := λ w, default 0%float (crScore w)).
    assert (∀ t, (∀ w, w ∈ works → ∃ s, crScore w = Some s ∧ (s <=? t)%float = true) →
                 ExternalAPIManager.bestOfE crScore works None 0%float
                 = Some (ExternalAPIManager.bestOf total works None 0%float)
                 ∧ ∀ w, w ∈ works → (total w <=? t)%float = true) as Htotal.
    { intros t Hall. split.
      - apply bestOfE_bestOf. intros w Hw. subst total. cbv beta.
        by destruct (Hall w Hw) as (s & -> & _).
      - intros w Hw. subst total. cbv beta. by destruct (Hall w Hw) as (s & -> & ?). }
    split_and!.
    + intros c Hc Hret.
      destruct (ExternalAPIManager.bestOfE crScore works None 0%float)
        as [[bestMatch bestScore]|] eqn:Hbest; [|done].
      cbn [mbind option_bind] in Hret.
      destruct (0.7 <? bestScore)%float eqn:Hgt; [|done].
      injection Hret as ->.
      pose proof (bestOfE_score crScore works None 0%float c bestScore
                    ltac:(done) Hbest) as Hs.
      rewrite Hc in Hs. injection Hs as <-. vm_compute in Hgt. done.
    + intros Hall. destruct (Htotal _ Hall) as [-> Hle]. cbn [mbind option_bind].
      pose proof (bestOf_bound total works None 0%float 0.7%float eq_refl Hle) as Hb.
      destruct (ExternalAPIManager.bestOf total works None 0%float) as [m s].
      cbn [snd] in Hb. by rewrite (leb_not_gt _ _ Hb).
    + intros c Hc Hsc Hall. destruct (Htotal _ Hall) as [-> Hle]. cbn [mbind option_bind].
      destruct (bestOf_top total works None 0%float c 0.71%float
                  false 6395111470866104%positive (-53)%Z)
        as (r & -> & Hin & Hsr);
        [vm_compute; reflexivity | done | by subst total; cbv beta; rewrite Hsc
        | done | reflexivity |].
      exists r. split_and!; [done..|].
      destruct (Hall r Hin) as (s & Hs & _). subst total. cbv beta in Hsr.
      rewrite Hs in Hsr. cbn [default] in Hsr. by rewrite Hs, <- Hsr.
    + intros (w & Hw & Hthrows).
      by rewrite (bestOfE_throws crScore works None 0%float w Hw Hthrows).
Qed.

Example score_070 :
  ExternalAPIManager.calculateMatchScore candidateAt070 targetTitle targetAuthors targetYear
  = 0.7%float.
Proof. vm_compute. reflexivity. Qed.

Example score_071 :
  ExternalAPIManager.calculateMatchScore candidateAt071 targetTitle targetAuthors targetYear
  = 0.71%float.
Proof. vm_compute. reflexivity. Qed.

Example crossref_score_070 :
  ExternalAPIManager.calculateCrossrefMatchScore workAt070 targetTitle targetAuthors targetYear
  = Some 0.7%float.
Proof. vm_compute. reflexivity. Qed.

Example crossref_score_071 :
  ExternalAPIManager.calculateCrossrefMatchScore workAt071 targetTitle targetAuthors targetYear
  = Some 0.71%float.
Proof. vm_compute. reflexivity. Qed.

Lemma match_threshold_is_strict_witness :
  (ExternalAPIManager.findBestMatch [candidateAt070] targetTitle targetAuthors targetYear = None
   ∧ ExternalAPIManager.findBestMatch [candidateAt070; candidateAt071]
       targetTitle targetAuthors targetYear ≠ Some candidateAt070
   ∧ ∃ r, ExternalAPIManager.findBestMatch [candidateAt070; candidateAt071]
            targetTitle targetAuthors targetYear = Some r
          ∧ r ∈ [candidateAt070; candidateAt071]
          ∧ ExternalAPIManager.calculateMatchScore r targetTitle targetAuthors targetYear
            = 0.71%float)
  ∧ (ExternalAPIManager.findBestCrossrefMatch [workAt070] targetTitle targetAuthors targetYear
     = Some None
     ∧ ExternalAPIManager.findBestCrossrefMatch [workAt070; workAt071]
         targetTitle targetAuthors targetYear ≠ Some (Some workAt070)
     ∧ (∃ w, ExternalAPIManager.findBestCrossrefMatch [workAt070; workAt071]
               targetTitle targetAuthors targetYear = Some (Some w)
             ∧ w ∈ [workAt070; workAt071]
             ∧ ExternalAPIManager.calculateCrossrefMatchScore w
                 targetTitle targetAuthors targetYear = Some 0.71%float)
     ∧ ExternalAPIManager.findBestCrossrefMatch [workAt071; undatedWork]
         targetTitle targetAuthors targetYear = None).
Proof.
  pose proof (match_threshold_is_strict [candidateAt070] [workAt070]
                targetTitle targetAuthors targetYear) as H1.
  pose proof (match_threshold_is_strict [candidateAt070; candidateAt071]
                [workAt070; workAt071] targetTitle targetAuthors targetYear) as H2.
  pose proof (match_threshold_is_strict [] [workAt071; undatedWork]
                targetTitle targetAuthors targetYear) as H3.
  cbv zeta in H1, H2, H3.
  destruct H1 as ((_ & Hnone & _) & (_ & Hcrnone & _)).
  destruct H2 as ((Hrej & _ & Hacc) & (Hcrrej & _ & Hcracc & _)).
  destruct H3 as (_ & (_ & _ & _ & Hthrows)).
  split; split_and!.
  - apply Hnone. intros r ->%list_elem_of_singleton. vm_compute. reflexivity.
  - apply Hrej. vm_compute. reflexivity.
  - apply (Hacc candidateAt071).
    + right. left.
    + vm_compute. reflexivity.
    + intros r [->|[->|[]%elem_of_nil]%elem_of_cons]%elem_of_cons; vm_compute; reflexivity.
  - apply Hcrnone. intros w ->%list_elem_of_singleton.
    exists 0.7%float. split; vm_compute; reflexivity.
  - apply Hcrrej. vm_compute. reflexivity.
  - apply (Hcracc workAt071).
    + right. left.
    + vm_compute. reflexivity.
    + intros w [->|[->|[]%elem_of_nil]%elem_of_cons]%elem_of_cons;
        [exists 0.7%float | exists 0.71%float]; split; vm_compute; reflexivity.
  - apply Hthrows. exists undatedWork. split; [right; left | vm_compute; reflexivity].
Defined.

Example accepted_at_071 :
  ExternalAPIManager.findBestMatch [candidateAt070; candidateAt071]
    targetTitle targetAuthors targetYear = Some candidateAt071.
Proof. vm_compute. reflexivity. Qed.

(** C3 fails as stated for Crossref: a candidate at 0.71 that no
    candidate outscores is accepted when it stands alone, and is not
    accepted when another candidate of the list has a
    [published-print] without date parts: the scoring of that candidate
    throws, the selection with it, and the search returns nothing. *)
Lemma crossref_top_candidate_is_lost :
  let crScore w :=
    ExternalAPIManager.calculateCrossrefMatchScore w targetTitle targetAuthors targetYear in
  crScore workAt071 = Some 0.71%float
  ∧ crScore undatedWork = None
  ∧ ExternalAPIManager.findBestCrossrefMatch [workAt071] targetTitle targetAuthors targetYear
    = Some (Some workAt071)
  ∧ ExternalAPIManager.findBestCrossrefMatch [workAt071; undatedWork]
      targetTitle targetAuthors targetYear = None
  ∧ ExternalAPIManager.searchCrossref (crossrefNetwork [workAt071])
      targetTitle targetAuthors targetYear
    = ExternalAPIManager.formatCrossrefResult workAt071
  ∧ ExternalAPIManager.formatCrossrefResult workAt071 ≠ None
  ∧ ExternalAPIManager.searchCrossref (crossrefNetwork [workAt071; undatedWork])
      targetTitle targetAuthors targetYear = None.
Proof. vm_compute. split_and!; done. Qed.

(** ** LaTeX escaping *)

(** the engine escapes in one pass: the escape of a text is the escapes
    of its characters, in order *)
Lemma escapeLatexCharacters_cons c s :
  ConversionEngine.escapeLatexCharacters (String c s) =
    (if ConversionEngine.isSpecial c
     then default (String c EmptyString) (ConversionEngine.escapeOf ConversionEngine.escapeMap c)
     else String c EmptyString)
    +:+ ConversionEngine.escapeLatexCharacters s.
Proof.
  unfold ConversionEngine.escapeLatexCharacters. cbn [Js.truthy negb Js.replaceClass].
  destruct s as [|c' s]; by destruct (ConversionEngine.isSpecial c).
Qed.

Lemma escapeLatexCharacters_app s1 s2 :
  ConversionEngine.escapeLatexCharacters (s1 +:+ s2) =
    ConversionEngine.escapeLatexCharacters s1 +:+ ConversionEngine.escapeLatexCharacters s2.
Proof.
  induction s1 as [|c s1 IH]; [done|].
  change (String c s1 +:+ s2) with (String c (s1 +:+ s2)).
  rewrite !escapeLatexCharacters_cons, IH.
  destruct (ConversionEngine.isSpecial c); [|done].
  by rewrite string_app_assoc.
Qed.

(** C4.  [XMLConverter.escapeLatex] replaces the special characters one
    after the other, the backslash after the seven characters that are
    escaped with a backslash: the backslash it has written before [&],
    [%], [$], [#], [_], [{] or [}] is escaped again, and the character
    ends up behind [\textbackslash{}] instead of behind one backslash.
    [ConversionEngine.escapeLatexCharacters], which escapes in one
    pass, writes the single backslash. *)
Theorem escapeLatex_escapes_its_own_backslash :
  XMLConverter.escapeLatex XMLConverter.defaultConfig "R&D at 50%"
    = "R\textbackslash{}&D at 50\textbackslash{}%"
  ∧ ConversionEngine.escapeLatexCharacters "R&D at 50%" = "R\&D at 50\%"
  ∧ Forall (λ c, XMLConverter.escapeLatex XMLConverter.defaultConfig (String c EmptyString)
                 = "\textbackslash{}" +:+ String c EmptyString)
           ["&"; "%"; "$"; "#"; "_"; "{"; "}"]%char.
Proof. split_and!; [reflexivity.. | repeat constructor]. Qed.

(** ** The merge of an enhancement result *)

Section Merge.
Import ExternalAPIManager.
Implicit Types (fields result enhanced : Fields) (k v : string).

Lemma mergeEntry_other fields enhanced key value k :
  key ≠ k → Js.get (mergeEntry fields enhanced (key, value)) k = Js.get enhanced k.
Proof.
  intros Hne. unfold mergeEntry.
  repeat match goal with |- context [if ?b then _ else _] => destruct b end;
    rewrite ?get_set_ne by done; reflexivity.
Qed.

Lemma mergeEntry_NoDup fields enhanced kv :
  NoDup enhanced.*1 → NoDup (mergeEntry fields enhanced kv).*1.
Proof.
  intros Hnd. destruct kv as [key value]. unfold mergeEntry.
  repeat match goal with |- context [if ?b then _ else _] => destruct b end;
    auto using NoDup_set.
Qed.

Lemma isBlank_truthy v : isBlank (Some v) = false → Js.truthy v = true.
Proof. unfold isBlank. simpl. by destruct (Js.truthy v). Qed.

(** a field that is filled and is not the note is never assigned *)
Lemma mergeEntry_filled fields enhanced k v value :
  Js.get fields k = Some v → isBlank (Some v) = false → k ≠ "note" →
  mergeEntry fields enhanced (k, value) = enhanced.
Proof.
  intros Hk Hv Hnote. unfold mergeEntry. rewrite Hk, Hv.
  destruct (String.eqb_spec k "doi") as [->|_].
  { rewrite Hk. simpl. by rewrite (isBlank_truthy _ Hv). }
  destruct (String.eqb_spec k "abstract") as [->|_].
  { rewrite Hk. simpl. by rewrite (isBlank_truthy _ Hv). }
  simpl. by destruct (String.eqb_spec k "note").
Qed.

(** a filled note gets the note of the result appended *)
Lemma mergeEntry_note fields enhanced v value :
  Js.get fields "note" = Some v → isBlank (Some v) = false →
  mergeEntry fields enhanced ("note", value) = Js.set "note" (v +:+ "; " +:+ value) enhanced.
Proof.
  intros Hk Hv. unfold mergeEntry. rewrite Hk, Hv. simpl.
  by rewrite (isBlank_truthy _ Hv).
Qed.

Lemma merge_fold_NoDup fields l enhanced :
  NoDup enhanced.*1 → NoDup (fold_left (mergeEntry fields) l enhanced).*1.
Proof.
  revert enhanced. induction l as [|kv l IH]; intros enhanced Hnd; cbn [fold_left]; [done|].
  by apply IH, mergeEntry_NoDup.
Qed.

Lemma merge_fold_filled fields l enhanced k v :
  Js.get fields k = Some v → isBlank (Some v) = false → k ≠ "note" →
  Js.get (fold_left (mergeEntry fields) l enhanced) k = Js.get enhanced k.
Proof.
  intros Hk Hv Hnote. revert enhanced.
  induction l as [|[key value] l IH]; intros enhanced; cbn [fold_left]; [done|].
  rewrite IH. destruct (decide (key = k)) as [->|Hne].
  - by erewrite mergeEntry_filled.
  - by apply mergeEntry_other.
Qed.

Lemma merge_fold_note fields l enhanced v :
  Js.get fields "note" = Some v → isBlank (Some v) = false → NoDup l.*1 →
  Js.get (fold_left (mergeEntry fields) l enhanced) "note" =
    match Js.get l "note" with
    | Some n => Some (v +:+ "; " +:+ n)
    | None => Js.get enhanced "note"
    end.
Proof.
  intros Hk Hv. revert enhanced.
  induction l as [|[key value] l IH]; intros enhanced Hnd; [done|].
  rewrite fmap_cons in Hnd. apply NoDup_cons in Hnd as [Hkey Hnd]. cbn [fst] in Hkey.
  cbn [fold_left Js.get]. rewrite IH by done.
  destruct (String.eqb_spec key "note") as [->|Hne].
  - apply get_None in Hkey. rewrite Hkey.
    erewrite mergeEntry_note by done. apply get_set_eq.
  - destruct (Js.get l "note"); [done|]. by apply mergeEntry_other.
Qed.

(** what the assignment of the merged fields does to a filled field *)
Lemma merge_assign_filled fields result k v :
  NoDup result.*1 →
  Js.get fields k = Some v → isBlank (Some v) = false →
  Js.get (Js.assign fields (mergeResult fields result)) k =
    Some (if String.eqb k "note"
          then match Js.get result "note" with
               | Some n => v +:+ "; " +:+ n
               | None => v
               end
          else v).
Proof.
  intros Hnd Hk Hv. unfold mergeResult.
  rewrite get_assign by (apply merge_fold_NoDup; constructor).
  destruct (String.eqb_spec k "__proto__") as [->|Hproto]; [done|].
  destruct (String.eqb_spec k "note") as [->|Hne].
  - rewrite (merge_fold_note _ _ _ v) by auto using entries_NoDup.
    rewrite (get_perm (Js.entries result) result) by auto using entries_NoDup, entries_perm.
    destruct (Js.get result "note"); [done|]. simpl. by rewrite Hk.
  - rewrite (merge_fold_filled _ _ _ k v) by done. simpl. by rewrite Hk.
Qed.

Lemma setIf_NoDup k o (f : Fields) : NoDup f.*1 → NoDup (setIf k o f).*1.
Proof.
  intros. unfold setIf. destruct o as [x|]; [|done].
  destruct (Js.truthy x); auto using NoDup_set.
Qed.

Lemma formatSemanticScholarResult_NoDup r : NoDup (formatSemanticScholarResult r).*1.
Proof.
  unfold formatSemanticScholarResult.
  repeat first
    [ apply NoDup_set | apply setIf_NoDup
    | match goal with
      | |- NoDup (fst <$> match ?x with _ => _ end) => destruct x
      | |- NoDup (fst <$> (if ?x then _ else _)) => destruct x
      end ];
  constructor.
Qed.

Lemma formatCrossrefResult_NoDup r f : formatCrossrefResult r = Some f → NoDup f.*1.
Proof.
  unfold formatCrossrefResult. cbv zeta. intros H.
  apply bind_Some in H as (e & He & [= <-]).
  assert (NoDup e.*1) as Hnd.
  { match type of He with
    | context [Js.set "year" _ ?E] => set (E0 := E) in He
    end.
    assert (NoDup E0.*1) as H0.
    { subst E0.
      repeat first
        [ apply NoDup_set
        | match goal with
          | |- NoDup (fst <$> match ?x with _ => _ end) => destruct x
          end ]; constructor. }
    clearbody E0.
    repeat case_match; simplify_eq;
      try (apply bind_Some in He as (y & _ & [= <-])); auto using NoDup_set. }
  repeat first
    [ apply NoDup_set | apply setIf_NoDup | assumption
    | match goal with
      | |- NoDup (fst <$> match ?x with _ => _ end) => destruct x
      | |- NoDup (fst <$> (if ?x then _ else _)) => destruct x
      end ].
Qed.

Lemma searchProviders_NoDup net fields result :
  searchProviders net fields = Some result → NoDup result.*1.
Proof.
  unfold searchProviders, searchSemanticScholar, searchCrossref. intros H.
  repeat case_match; simplify_option_eq;
    eauto using formatSemanticScholarResult_NoDup, formatCrossrefResult_NoDup.
Qed.

End Merge.

(** ** The values that the extraction writes *)

Section Extracted.
Import Dom XMLConverter.

Lemma inked_app_l s1 s2 : inked s1 → inked (s1 +:+ s2).
Proof. unfold inked. intros H. by rewrite forallb_app, H. Qed.

Lemma inked_app_r s1 s2 : inked s2 → inked (s1 +:+ s2).
Proof. unfold inked. intros H. by rewrite forallb_app, H, andb_false_r. Qed.

Lemma inked_filled s : inked s → filled s.
Proof.
  unfold inked, filled, ExternalAPIManager.isBlank. intros H.
  change (default "" (Some s)) with s. cbn [Js.truthyO].
  destruct (String.eqb_spec (Js.trim s) "") as [He|_].
  - apply trim_empty in He. congruence.
  - destruct s; [done|]. reflexivity.
Qed.

Lemma written_filled s : written s → s ≠ "" → filled s.
Proof. intros H ?; destruct H as [->|?]; [done | by apply inked_filled]. Qed.

Lemma trimStart_written s : written (Js.trimStart s).
Proof.
  induction s as [|c s IH]; [by left|]. simpl.
  destruct (Js.isSpace c) eqn:Hc; [done|]. right. unfold inked. simpl. by rewrite Hc.
Qed.

Lemma trim_written s : written (Js.trim s).
Proof.
  unfold Js.trim, Js.trimEnd.
  destruct (trimStart_written (String.rev (Js.trimStart s))) as [-> | Hink]; [by left|].
  right. unfold inked, String.rev in *.
  by rewrite rev_app_forallb, andb_true_r, Hink.
Qed.

Lemma replaceAllChar_inked c rep s :
  inked rep → inked s → inked (Js.replaceAllChar c rep s).
Proof.
  unfold inked. intros Hrep. induction s as [|a s IH]; [done|]. simpl.
  destruct (Ascii.eqb a c).
  - intros _. by rewrite forallb_app, Hrep.
  - simpl. destruct (Js.isSpace a); [by simpl|done].
Qed.

Lemma escapeLatex_written cfg s : written s → written (escapeLatex cfg s).
Proof.
  intros H; destruct H as [->|Hink]; unfold escapeLatex.
  - left. by rewrite orb_true_r.
  - destruct (_ || _); [by right|]. right.
    unfold latexSpecialChars. cbn [fold_left].
    repeat (apply replaceAllChar_inked; [reflexivity|]). done.
Qed.

Lemma extractTextContent_written cfg e d : written (extractTextContent cfg e d).1.
Proof.
  unfold extractTextContent.
  destruct (sub (documentElement d) e.1) as [[anc [t|i cs]]|]; cbn [fst];
    (destruct (escapeLatexChars cfg); [apply escapeLatex_written|]; apply trim_written).
Qed.

Lemma firstText_written cfg record s d : written (firstText cfg record s d).1.
Proof.
  unfold firstText. step_monad. destruct (queryAll record s d) as [[|e els] d'].
  - by left.
  - apply extractTextContent_written.
Qed.

Lemma mapM_written cfg els d :
  Forall written (mapM (extractTextContent cfg) els d).1.
Proof.
  revert d. induction els as [|e els IH]; intros d; cbn [mapM]; step_monad.
  - constructor.
  - pose proof (extractTextContent_written cfg e d) as He.
    destruct (extractTextContent cfg e d) as [t d1].
    specialize (IH d1). destruct (mapM (extractTextContent cfg) els d1) as [ts d2].
    by constructor.
Qed.

Lemma allTexts_inked cfg record s d : Forall inked (allTexts cfg record s d).1.
Proof.
  unfold allTexts. step_monad. destruct (queryAll record s d) as [els d1].
  pose proof (mapM_written cfg els d1) as Hall.
  destruct (mapM (extractTextContent cfg) els d1) as [texts d2]. cbn [fst] in *.
  induction Hall as [|t ts Ht _ IH]; simpl; [constructor|].
  destruct t as [|c t]; simpl; [done|]. constructor; [|done].
  by destruct Ht.
Qed.

Lemma join_written sep l : Forall inked l → written (Js.join sep l).
Proof.
  intros H. destruct H as [|x l' Hx _]; [by left|]. right.
  destruct l'; simpl; [done | by apply inked_app_l].
Qed.

Lemma matchYear_written s : written (default "" (matchYear s)).
Proof.
  induction s as [|c s IH]; [by left|]. cbn [matchYear].
  destruct (_ && _) eqn:Hy; [|done].
  apply andb_prop in Hy as [Hlen Hdig]. right. unfold inked. cbn [default].
  destruct (Js.take 4 (String c s)) as [|a t]; [done|].
  simpl in *. apply andb_prop in Hdig as [Ha _].
  assert (Js.isSpace a = false) as ->; [|done].
  destruct (Js.isSpace a) eqn:Hs; [|done].
  destruct a as [[] [] [] [] [] [] [] []]; vm_compute in Ha, Hs; congruence.
Qed.

Lemma normalizePageRange_written s : written s → written (normalizePageRange s).
Proof.
  intros H; destruct H as [->|Hink]; [by left|]. right. revert Hink.
  induction s as [|c s IH]; [done|]. cbn [normalizePageRange].
  destruct (pageRangeAt (String c s)) as [r|] eqn:Hr.
  - intros _. unfold pageRangeAt in Hr.
    destruct (Js.spanDigits (String c s)) as [d1 r1].
    destruct (Js.truthy d1); [|done].
    destruct (stripDash _) as [r3|]; [|done].
    destruct (Js.spanDigits _) as [d2 r5].
    destruct (Js.truthy d2); [|done]. injection Hr as <-.
    apply inked_app_r, inked_app_l. reflexivity.
  - unfold inked. simpl. destruct (Js.isSpace c); [|done]. simpl. apply IH.
Qed.

End Extracted.

Section ExtractedFields.
Import Dom XMLConverter.

Lemma extractYear_written cfg record d : written (extractYear cfg record d).1.
Proof.
  unfold extractYear. step_monad. destruct (queryAll record _ d) as [[|e els] d1].
  - by left.
  - destruct (extractTextContent cfg e d1) as [yearText d2]. apply matchYear_written.
Qed.

Lemma extractPages_written cfg record d : written (extractPages cfg record d).1.
Proof.
  unfold extractPages. step_monad. destruct (queryAll record _ d) as [[|e els] d1].
  - by left.
  - pose proof (extractTextContent_written cfg e d1) as He.
    destruct (extractTextContent cfg e d1) as [pages d2].
    by apply normalizePageRange_written.
Qed.

Lemma extractKeywords_written cfg record d : written (extractKeywords cfg record d).1.
Proof.
  unfold extractKeywords. step_monad.
  pose proof (allTexts_inked cfg record
                [[tag "keyword"]; [tag "keywords"; tag "keyword"]] d) as Hk.
  destruct (allTexts cfg record _ d) as [keywords d1]. by apply join_written.
Qed.

Lemma values_set (P : string → Prop) (o : Js.Obj string) k v :
  Forall (λ kv, P kv.2) o → P v → Forall (λ kv, P kv.2) (Js.set k v o).
Proof.
  intros Ho Hv. induction Ho as [|[k0 v0] o H0 Ho IH]; simpl.
  - by repeat constructor.
  - destruct (String.eqb k0 k); by constructor.
Qed.

Lemma values_get (P : string → Prop) (o : Js.Obj string) k v :
  Forall (λ kv, P kv.2) o → Js.get o k = Some v → P v.
Proof.
  intros Ho Hk%get_Some_elem. rewrite Forall_forall in Ho. by apply (Ho (k, v)).
Qed.

(** every value that [extractFields] writes is empty or inked *)
Lemma extractFields_written cfg record d :
  Forall (λ kv, written kv.2) (extractFields cfg record d).1.
Proof.
  unfold extractFields, extractTitle, extractJournal, extractPublisher, extractVolume,
    extractNumber, extractDoi, extractUrl, extractAbstract, extractBookTitle,
    extractChapter, extractEdition, extractSeries, extractAddress, extractOrganization,
    extractInstitution, extractSchool, extractNote, extractAuthors.
  step_monad.
  repeat match goal with
    | |- context [firstText cfg record ?s ?d0] =>
        let H := fresh "H" in
        pose proof (firstText_written cfg record s d0) as H;
        destruct (firstText cfg record s d0) as [? ?]; cbn [fst] in H
    | |- context [allTexts cfg record ?s ?d0] =>
        let H := fresh "H" in
        pose proof (allTexts_inked cfg record s d0) as H;
        destruct (allTexts cfg record s d0) as [? ?]; cbn [fst] in H
    | |- context [extractYear cfg record ?d0] =>
        let H := fresh "H" in
        pose proof (extractYear_written cfg record d0) as H;
        destruct (extractYear cfg record d0) as [? ?]; cbn [fst] in H
    | |- context [extractPages cfg record ?d0] =>
        let H := fresh "H" in
        pose proof (extractPages_written cfg record d0) as H;
        destruct (extractPages cfg record d0) as [? ?]; cbn [fst] in H
    | |- context [extractKeywords cfg record ?d0] =>
        let H := fresh "H" in
        pose proof (extractKeywords_written cfg record d0) as H;
        destruct (extractKeywords cfg record d0) as [? ?]; cbn [fst] in H
    end.
  cbn [fst].
  repeat (apply values_set; [|assumption]).
  match goal with
  | |- context [match ?l with [] => _ | _ :: _ => _ end] => destruct l eqn:?
  end.
  - apply values_set; [|done]. constructor.
  - apply values_set; [apply values_set; [constructor|done]|].
    by apply join_written.
Qed.

End ExtractedFields.

(** The merge on any field set: a field that is not blank keeps its
    value when the enhanced fields are assigned, except the note, to
    which the note of the accepted result is appended. *)
Lemma merge_keeps_filled_fields
    (net : ExternalAPIManager.network) (fields result : ExternalAPIManager.Fields)
    (k v : string) :
  ExternalAPIManager.searchProviders net fields = Some result →
  Js.get fields k = Some v →
  filled v →
  Js.get (Js.assign fields (ExternalAPIManager.enhanceReference net fields)) k =
    Some (if String.eqb k "note"
          then match Js.get result "note" with
               | Some n => v +:+ "; " +:+ n
               | None => v
               end
          else v).
Proof.
  intros Hres Hk Hv. unfold ExternalAPIManager.enhanceReference. rewrite Hres.
  apply merge_assign_filled; eauto using searchProviders_NoDup.
Qed.

(** C5.  For every record and every result accepted from the providers,
    a field that [extractFields] has set to a text that is not empty
    keeps its exact value when [processRecord] assigns the enhanced
    fields, except the note: there the note of the result is appended
    to the existing note, joined by "; ". *)
Theorem enhancement_keeps_filled_fields
    (cfg : XMLConverter.config) (record : XMLConverter.located) (d : Dom.document)
    (net : ExternalAPIManager.network) (result : ExternalAPIManager.Fields)
    (k v : string) :
  let fields := (XMLConverter.extractFields cfg record d).1 in
  ExternalAPIManager.searchProviders net fields = Some result →
  Js.get fields k = Some v →
  v ≠ "" →
  Js.get (Js.assign fields (ExternalAPIManager.enhanceReference net fields)) k =
    Some (if String.eqb k "note"
          then match Js.get result "note" with
               | Some n => v +:+ "; " +:+ n
               | None => v
               end
          else v).
Proof.
  intros fields Hres Hk Hv.
  apply (merge_keeps_filled_fields net fields result k v Hres Hk).
  apply written_filled; [|done].
  eapply (values_get written); [apply extractFields_written | exact Hk].
Qed.

Lemma enhancement_keeps_filled_fields_witness :
  let fields := (XMLConverter.extractFields XMLConverter.defaultConfig
                   annotatedRecord annotatedDocument).1 in
  ExternalAPIManager.searchProviders sampleNetwork fields
    = Some (ExternalAPIManager.formatSemanticScholarResult samplePaper)
  ∧ Js.get fields "note" = Some "read twice"
  ∧ "read twice" ≠ ""
  ∧ Js.get (Js.assign fields (ExternalAPIManager.enhanceReference sampleNetwork fields)) "note"
    = Some "read twice; Cited by 12 (Semantic Scholar)".
Proof.
  cbv zeta.
  split; [vm_compute; reflexivity|].
  split; [vm_compute; reflexivity|].
  split; [discriminate|].
  pose proof (enhancement_keeps_filled_fields XMLConverter.defaultConfig
                annotatedRecord annotatedDocument sampleNetwork
                (ExternalAPIManager.formatSemanticScholarResult samplePaper)
                "note" "read twice") as H.
  cbv zeta in H. apply H; [vm_compute; reflexivity | vm_compute; reflexivity | discriminate].
Defined.

Example enhancement_fills_gaps :
  Js.assign sampleFields (ExternalAPIManager.enhanceReference sampleNetwork sampleFields)
  = [ ("title", "A Study of Things"); ("author", "John Smith"); ("year", "2023");
      ("journal", "Journal of Things"); ("doi", "10.1000/things");
      ("note", "read twice; Cited by 12 (Semantic Scholar)") ].
Proof. vm_compute. reflexivity. Qed.

(** On a field set that [extractFields] did not write, a field of white
    space only counts as empty and is overwritten. *)
Example blank_field_is_overwritten :
  Js.get (Js.assign (Js.set "journal" "  " sampleFields)
            (ExternalAPIManager.enhanceReference sampleNetwork
               (Js.set "journal" "  " sampleFields))) "journal"
  = Some "Journal of Things".
Proof. vm_compute. reflexivity. Qed.

(** ** Record location *)

Section Location.
Import Dom.

(** the loop over the paths stops at the first path that finds records *)
Lemma findRecords_first d paths records path :
  XMLConverter.findRecords d paths = (records, Some path) →
  ∃ before s after,
    paths = before ++ (path, s) :: after
    ∧ records = XMLConverter.locate d s
    ∧ records ≠ []
    ∧ ∀ p' s', (p', s') ∈ before → XMLConverter.locate d s' = [].
Proof.
  induction paths as [|[p s] paths IH]; cbn [XMLConverter.findRecords]; [done|].
  destruct (XMLConverter.locate d s) as [|r rs] eqn:Hloc.
  - intros (before & s0 & after & -> & ? & ? & Hbefore)%IH.
    exists ((p, s) :: before), s0, after. split_and!; [done..|].
    intros p' s' [[= -> ->]|?]%elem_of_cons; eauto.
  - intros [= <- <-]. exists [], s, paths. split_and!; [done..|].
    by intros ? ? ?%elem_of_nil.
Qed.

Lemma findRecords_none d paths records :
  XMLConverter.findRecords d paths = (records, None) →
  records = [] ∧ ∀ p s, (p, s) ∈ paths → XMLConverter.locate d s = [].
Proof.
  induction paths as [|[p s] paths IH]; cbn [XMLConverter.findRecords].
  - intros [= <-]. split; [done|]. by intros ? ? ?%elem_of_nil.
  - destruct (XMLConverter.locate d s) as [|r rs] eqn:Hloc; [|done].
    intros [-> Hall]%IH. split; [done|].
    intros p' s' [[= -> ->]|?]%elem_of_cons; eauto.
Qed.

Lemma findRecords_found d paths :
  (XMLConverter.findRecords d paths).1 = [] → (XMLConverter.findRecords d paths).2 = None.
Proof.
  induction paths as [|[p s] paths IH]; cbn [XMLConverter.findRecords]; [done|].
  by destruct (XMLConverter.locate d s).
Qed.

(** C6, as amended.  [XMLConverter] tries its paths in order and takes
    the records of the first path that finds any, those and no others;
    when no path finds a record the run ends normally with an empty
    output and one error, which describes the tag structure of the
    document.  [ConversionEngine] tries its two selector groups in the
    same way; when neither finds an element it returns no entry and one
    warning, whose text is fixed. *)
Theorem record_location_takes_first_match (d : document) :
  (∀ records path,
     XMLConverter.findRecords d XMLConverter.possiblePaths = (records, Some path) →
     ∃ before s after,
       XMLConverter.possiblePaths = before ++ (path, s) :: after
       ∧ records = XMLConverter.locate d s
       ∧ records ≠ []
       ∧ ∀ p' s', (p', s') ∈ before → XMLConverter.locate d s' = [])
  ∧ (docQuerySelector d [[tag "parsererror"]] = None →
     (XMLConverter.findRecords d XMLConverter.possiblePaths).1 = [] →
     (∀ p s, (p, s) ∈ XMLConverter.possiblePaths → XMLConverter.locate d s = [])
     ∧ ∀ cfg cb api timestamp,
         let run := XMLConverter.convertToBibtex cfg cb api timestamp d in
         XMLConverter.output run = ""
         ∧ XMLConverter.entries run = []
         ∧ XMLConverter.conversionErrors (XMLConverter.final run)
           = [ "No records found in XML data. XML structure: "
               +:+ XMLConverter.describeXmlStructure 3 d ])
  ∧ (∀ options,
       let first := docQuerySelectorAll d (tags ["record"; "reference"; "citation"; "item"]) in
       let second :=
         docQuerySelectorAll d
           [[star [HasAttr "title"]]; [star [HasAttr "author"]]; [star [HasAttr "journal"]]] in
       (first ≠ [] →
        ConversionEngine.extractReferences d options
        = ConversionEngine.parseAll first options 0)
       ∧ (first = [] → second ≠ [] →
          ConversionEngine.extractReferences d options
          = ConversionEngine.parseAll second options 0)
       ∧ (first = [] → second = [] →
          ConversionEngine.extractReferences d options
          = ([], ["No recognizable reference entries found in XML"]))).
Proof.
  split_and!.
  - intros records path. apply findRecords_first.
  - intros Hparse Hnone.
    pose proof (findRecords_found d _ Hnone) as Hfound.
    destruct (XMLConverter.findRecords d XMLConverter.possiblePaths) as [records found] eqn:Hf.
    simpl in Hnone, Hfound. subst. split.
    + by apply (findRecords_none d _ []).
    + intros cfg cb api timestamp. unfold XMLConverter.convertToBibtex.
      rewrite Hparse, Hf. done.
  - intros options first second. unfold ConversionEngine.extractReferences.
    fold first. fold second. split_and!.
    + intros Hne. destruct first; done.
    + intros -> Hne. destruct second; done.
    + intros -> ->. done.
Qed.

End Location.

Lemma record_location_takes_first_match_witness :
  (∃ s, (XMLConverter.findRecords feedDocument XMLConverter.possiblePaths).1
        = XMLConverter.locate feedDocument s
        ∧ ("record", s) ∈ XMLConverter.possiblePaths)
  ∧ XMLConverter.conversionErrors
      (XMLConverter.final
         (XMLConverter.convertToBibtex XMLConverter.defaultConfig None None "now" libraryDocument))
    = [ "No records found in XML data. XML structure: library[shelf[book]]" ]
  ∧ ConversionEngine.extractReferences libraryDocument standardOptions
    = ([], ["No recognizable reference entries found in XML"])
  ∧ (ConversionEngine.extractReferences feedDocument standardOptions).2 = [].
Proof.
  destruct (record_location_takes_first_match feedDocument) as (Hfirst & _ & Hengine).
  destruct (record_location_takes_first_match libraryDocument) as (_ & Hnone & Hlib).
  split_and!.
  - destruct (Hfirst (XMLConverter.locate feedDocument [[Dom.tag "record"]]) "record")
      as (before & s & after & Hpaths & Hrec & _); [vm_compute; reflexivity|].
    exists s. split; [exact Hrec|]. rewrite Hpaths. apply elem_of_app. right. left.
  - destruct Hnone as [_ Hrun]; [vm_compute; reflexivity..|].
    apply (Hrun XMLConverter.defaultConfig None None "now").
  - apply (Hlib standardOptions); vm_compute; reflexivity.
  - destruct (Hengine standardOptions) as (Hf & _ & _).
    rewrite Hf; [reflexivity | vm_compute; discriminate].
Defined.

(** C6 fails on [ConversionEngine]: the diagnostic it records when no
    element is found names no tag of the document, where the one of
    [XMLConverter] gives its structure. *)
Lemma engine_diagnostic_is_not_structural :
  let engine := ConversionEngine.convertXMLToBibTeX "now" 0 libraryDocument standardOptions in
  let run := XMLConverter.convertToBibtex XMLConverter.defaultConfig None None "now" libraryDocument in
  engine = inl {| ConversionEngine.bibtex := "% No references found to convert";
                  ConversionEngine.entryCount := 0;
                  ConversionEngine.warnings := ["No recognizable reference entries found in XML"];
                  ConversionEngine.processingTime := 0 |}
  ∧ Forall (λ t, Js.includes "No recognizable reference entries found in XML" t = false)
           ["library"; "shelf"; "book"]
  ∧ XMLConverter.conversionErrors (XMLConverter.final run)
    = [ "No records found in XML data. XML structure: library[shelf[book]]" ].
Proof. vm_compute. split_and!; [reflexivity | repeat constructor | reflexivity]. Qed.

(** ** Entry types *)

Section EntryTypes.
Import Dom ConversionEngine.

Lemma typeOfField_rules type : typeOfField type = firstRule codeRules type.
Proof.
  unfold typeOfField. cbn [codeRules explicitRules app firstRule List.existsb].
  repeat match goal with
         | |- context [Js.includes type ?w] => destruct (Js.includes type w)
         end; reflexivity.
Qed.

(** a type that holds "inbook" holds "book" *)
Lemma includes_inbook_book type :
  Js.includes type "inbook" = true → Js.includes type "book" = true.
Proof.
  induction type as [|c type IH].
  - simpl. done.
  - intros H. cbn [Js.includes] in H. apply orb_prop in H as [Hs|Hi].
    + apply startsWith_cons_inv in Hs as (s1 & [= -> ->] & Hs).
      apply startsWith_cons_inv in Hs as (s2 & -> & Hs).
      by apply includes_later, includes_later, includes_here.
    + by apply includes_later, IH.
Qed.

(** C7, as amended.  [determineBibTeXType] classifies in two stages, in
    this order: the explicit type, lower-cased, against "article" or
    "journal" (article), "book" (book), "chapter" or "inbook" (inbook),
    "conference" or "proceeding" (inproceedings), "thesis" or
    "dissertation" (phdthesis), "report" or "tech" (techreport),
    "manual" (manual), "web" or "online" (misc); and only when no rule
    applies, a journal gives article, a book title inproceedings, a
    publisher book, and misc otherwise.  A type that holds "inbook" is a
    book, since the rule of "book" comes first.  [XMLConverter] does not
    classify in this way: it looks the name of the reference type up in
    its table, as the name is written; a name of the table gives its
    entry, a name that every object inherits as a member gives that
    member, and every other name gives misc. *)
Theorem entry_type_follows_rules (element : handle) :
  determineBibTeXType element = typeOfElement codeRules element
  ∧ (∀ type, Js.includes type "inbook" = true →
             Js.includes type "article" = false → Js.includes type "journal" = false →
             typeOfField type = Some "book")
  ∧ (∀ refType t, Js.get XMLConverter.entryTypeMap refType = Some t →
                  XMLConverter.bibtexTypeOf refType = Js.Str t)
  ∧ (∀ refType, Js.inherited refType = true →
                XMLConverter.bibtexTypeOf refType = Js.Member refType)
  ∧ (∀ refType, Js.get XMLConverter.entryTypeMap refType = None →
                Js.inherited refType = false →
                XMLConverter.bibtexTypeOf refType = Js.Str "misc").
Proof.
  split_and!.
  - unfold determineBibTeXType, typeOfElement, entryTypeByRules, typeOfPresence.
    destruct (Js.truthy (extractText element _)); [|done].
    by rewrite typeOfField_rules.
  - intros type Hin Ha Hj. unfold typeOfField.
    by rewrite Ha, Hj, (includes_inbook_book _ Hin).
  - intros refType t Ht. unfold XMLConverter.bibtexTypeOf, Js.truthyAt, Js.lookup.
    rewrite Ht. apply get_Some_elem in Ht. unfold XMLConverter.entryTypeMap in Ht.
    repeat (apply elem_of_cons in Ht as [[= _ ->]|Ht]; [reflexivity|]).
    by apply elem_of_nil in Ht.
  - intros refType Hin. unfold Js.inherited in Hin. apply bool_decide_eq_true in Hin.
    unfold Js.prototypeMembers in Hin.
    repeat (apply elem_of_cons in Hin as [->|Hin]; [reflexivity|]).
    by apply elem_of_nil in Hin.
  - intros refType Hnone Hinh. unfold XMLConverter.bibtexTypeOf, Js.truthyAt, Js.lookup.
    by rewrite Hnone, Hinh.
Qed.

End EntryTypes.

Lemma entry_type_follows_rules_witness :
  ConversionEngine.determineBibTeXType (typedRecord "Conference Paper") = "inproceedings"
  ∧ ConversionEngine.typeOfField "inbook" = Some "book"
  ∧ XMLConverter.bibtexTypeOf "Conference Paper" = Js.Str "inproceedings"
  ∧ XMLConverter.bibtexTypeOf "constructor" = Js.Member "constructor"
  ∧ XMLConverter.bibtexTypeOf "conference paper" = Js.Str "misc".
Proof.
  destruct (entry_type_follows_rules (typedRecord "Conference Paper"))
    as (Hrules & Hin & Hown & Hmember & Hother).
  split_and!.
  - rewrite Hrules. vm_compute. reflexivity.
  - apply Hin; vm_compute; reflexivity.
  - apply Hown. reflexivity.
  - apply Hmember. reflexivity.
  - apply Hother; reflexivity.
Defined.

(** C7 fails as stated: a chapter is classified inbook, not
    incollection, and a manual is classified by its explicit type, where
    the stated rules fall back to the journal. *)
Lemma chapter_and_manual_types :
  ConversionEngine.determineBibTeXType (typedRecord "Book Chapter") = "book"
  ∧ ConversionEngine.determineBibTeXType (typedRecord "chapter") = "inbook"
  ∧ Forall (λ web, typeOfElement (statedRules web) (typedRecord "chapter") = "incollection")
           ["online"; "misc"]
  ∧ ConversionEngine.determineBibTeXType (typedRecord "manual") = "manual"
  ∧ Forall (λ web, typeOfElement (statedRules web) (typedRecord "manual") = "article")
           ["online"; "misc"].
Proof. vm_compute. split_and!; repeat constructor. Qed.

(** [XMLConverter] does not classify by these rules: it looks the name
    of the reference type up in its table, as it is written. *)
Example xmlconverter_types_by_exact_name :
  XMLConverter.bibtexTypeOf "Journal Article" = Js.Str "article"
  ∧ XMLConverter.bibtexTypeOf "journal article" = Js.Str "misc"
  ∧ XMLConverter.bibtexTypeOf "Book Section" = Js.Str "incollection"
  ∧ XMLConverter.bibtexTypeOf "thesis" = Js.Str "misc"
  ∧ XMLConverter.bibtexTypeOf "constructor" = Js.Member "constructor".
Proof. vm_compute. split_and!; reflexivity. Qed.

(** ** Cancellation *)

Section Cancellation.
Import Dom XMLConverter.
Context (cfg : config) (api : option apiManager) (total : nat).
Implicit Types (cb : progressCallback) (records pre post : list located)
  (st : converter) (d : document).

(** the entries produced are kept: the loop only appends *)
Lemma processRecords_appends ocb records i acc st d :
  ∃ new, (processRecords cfg ocb api total records i acc st d).1.1 = acc ++ new.
Proof.
  revert i acc st d. induction records as [|r records IH]; intros i acc st d.
  - exists []. by rewrite app_nil_r.
  - cbn [processRecords]. step_monad.
    destruct (getRecordTitle cfg r d) as [title d1].
    destruct (callProgressCallback ocb (i + 1) total _); cbn [negb].
    + destruct (processRecord cfg api r i st d1) as [[[entry|message] st1] d2].
      * destruct (Js.truthy entry).
        -- destruct (getRecordTitle cfg r d2) as [title2 d3].
           destruct (IH (S i) (acc ++ [entry]) (logLine Info
             ("✓ Processed record " +:+ Js.ofNat (i + 1) +:+ ": " +:+
              default ("Entry " +:+ Js.ofNat (i + 1)) title2) st1) d3) as [new Hnew].
           exists (entry :: new). rewrite Hnew. by rewrite <- app_assoc.
        -- apply IH.
      * apply IH.
    + exists []. by rewrite app_nil_r.
Qed.

(** a run that the callback stops at the record after [pre] is the run
    over [pre] alone, followed by the reading of the title of the record
    at which it stops and by the line of the log *)
Lemma processRecords_cancelled cb pre r post i acc st d :
  (∀ j message, (i ≤ j < i + length pre)%nat → cb (j + 1)%nat total message = true) →
  (∀ message, cb (i + length pre + 1)%nat total message = false) →
  processRecords cfg (Some cb) api total (pre ++ r :: post) i acc st d
  = let '((es, st'), d') := processRecords cfg None api total pre i acc st d in
    ((es, logLine Info "Conversion cancelled by user" st'), (getRecordTitle cfg r d').2).
Proof.
  revert i acc st d. induction pre as [|p pre IH]; intros i acc st d Hgo Hstop.
  - cbn [app processRecords]. step_monad.
    destruct (getRecordTitle cfg r d) as [title d1]. cbn [callProgressCallback snd].
    replace (i + 1)%nat with (i + length (@nil located) + 1)%nat by (simpl; lia).
    by rewrite Hstop.
  - cbn [app processRecords]. step_monad.
    destruct (getRecordTitle cfg p d) as [title d1]. cbn [callProgressCallback].
    rewrite Hgo by (simpl; lia). cbn [negb].
    assert (∀ j m, (S i ≤ j < S i + length pre)%nat → cb (j + 1)%nat total m = true) as Hgo'
      by (intros j m Hj; apply Hgo; simpl; lia).
    assert (∀ m, cb (S i + length pre + 1)%nat total m = false) as Hstop'.
    { intros m. replace (S i + length pre + 1)%nat with (i + length (p :: pre) + 1)%nat
        by (simpl; lia). apply Hstop. }
    destruct (processRecord cfg api p i st d1) as [[[entry|message] st1] d2].
    + destruct (Js.truthy entry).
      * destruct (getRecordTitle cfg p d2) as [title2 d3]. by apply IH.
      * by apply IH.
    + by apply IH.
Qed.

(** the output ends with the entries *)
Lemma assemble_output timestamp es st :
  ∃ header, (assemble cfg timestamp total es st).1 = header +:+ Js.join (Js.nl +:+ Js.nl) es.
Proof.
  unfold assemble. destruct (useStringDefinitions cfg).
  - destruct (Js.truthy (generateStringDefinitions _)); cbn [fst];
      eexists; rewrite <- !string_app_assoc; reflexivity.
  - cbn [fst]. eexists; rewrite <- !string_app_assoc; reflexivity.
Qed.

Lemma log_logLine l msg st : (l, msg) ∈ log (logLine l msg st).
Proof. unfold logLine. cbn [log]. apply elem_of_app. right. left. Qed.

Lemma log_logLine_mono x l msg st : x ∈ log st → x ∈ log (logLine l msg st).
Proof. unfold logLine. cbn [log]. intros. apply elem_of_app. by left. Qed.

Lemma assemble_log timestamp es st x :
  x ∈ log st → x ∈ log (assemble cfg timestamp total es st).2.
Proof.
  intros Hx. unfold assemble. destruct (useStringDefinitions cfg).
  - destruct (Js.truthy (generateStringDefinitions _)); cbn [snd];
      auto using log_logLine_mono.
  - cbn [snd]. auto using log_logLine_mono.
Qed.

End Cancellation.

Section CancelledRun.
Import Dom XMLConverter.

Lemma assemble_errors cfg timestamp total es st :
  conversionErrors (assemble cfg timestamp total es st).2 = conversionErrors st.
Proof.
  unfold assemble. destruct (useStringDefinitions cfg); [|done].
  by destruct (Js.truthy (generateStringDefinitions _)).
Qed.

(** C8, as amended.  When the progress callback returns false for the
    record that follows the records [pre], the run is the run over [pre]
    alone: no record from that one on is processed, the entries returned
    are the entries produced for [pre], and the output ends with them.
    The cancellation is written to the log as an information line; the
    list of conversion errors gets nothing. *)
Theorem cancelled_run_keeps_earlier_entries
    (cfg : config) (api : option apiManager) (timestamp : string)
    (cb : progressCallback) (d : document)
    (pre : list located) (r : located) (post : list located) (path : string) :
  let records := pre ++ r :: post in
  let total := length records in
  docQuerySelector d [[tag "parsererror"]] = None →
  findRecords d possiblePaths = (records, Some path) →
  (∀ j message, (j < length pre)%nat → cb (j + 1)%nat total message = true) →
  (∀ message, cb (length pre + 1)%nat total message = false) →
  let run := convertToBibtex cfg (Some cb) api timestamp d in
  let ready := collectPass cfg (Some cb) total records (located_by cfg d records path) d in
  let alone :=
    processRecords cfg None api total pre 0 []
      (logLine Info ("Processing " +:+ Js.ofNat total +:+ " records...") ready.1) ready.2 in
  entries run = alone.1.1
  ∧ (∃ header, output run = header +:+ Js.join (Js.nl +:+ Js.nl) (entries run))
  ∧ (Info, "Conversion cancelled by user") ∈ log (final run)
  ∧ conversionErrors (final run) = conversionErrors alone.1.2
  ∧ finalDocument run = (getRecordTitle cfg r alone.2).2.
Proof.
  intros records total Hparse Hfind Hgo Hstop run ready alone.
  subst run. unfold convertToBibtex. rewrite Hparse, Hfind.
  assert (∃ x l, records = x :: l) as (x & l & Hrec).
  { subst records. destruct pre; simpl; eauto. }
  rewrite Hrec. rewrite <- Hrec. fold total. fold ready.
  destruct ready as [st1 d1] eqn:Hready. cbn [fst snd] in alone.
  subst records.
  rewrite (processRecords_cancelled cfg api total cb pre r post 0); [|by auto with lia..].
  fold alone. destruct alone as [[es st2] d2]. cbn [fst snd].
  destruct (assemble cfg timestamp total es _) as [out st3] eqn:Hasm.
  cbn [entries output final finalDocument]. split_and!.
  - done.
  - destruct (assemble_output cfg total timestamp es
                (logLine Info "Generating final BibTeX output..."
                   (logLine Info "Conversion cancelled by user" st2))) as [header Hout].
    exists header. by rewrite Hasm in Hout.
  - change st3 with (out, st3).2. rewrite <- Hasm.
    apply assemble_log, log_logLine_mono, log_logLine.
  - change st3 with (out, st3).2. rewrite <- Hasm. by rewrite assemble_errors.
  - done.
Qed.

End CancelledRun.

Lemma cancelled_run_keeps_earlier_entries_witness :
  let run :=
    XMLConverter.convertToBibtex XMLConverter.defaultConfig (Some stopAtSecond) None "now"
      trioDocument in
  XMLConverter.entries run
  = [ "@misc{Smith2023FirstPaper,
  title = {{First Paper}},
  author = {John Smith},
  year = {2023}
}" ]
  ∧ (∃ header,
       XMLConverter.output run
       = header +:+ Js.join (Js.nl +:+ Js.nl) (XMLConverter.entries run))
  ∧ (XMLConverter.Info, "Conversion cancelled by user")
    ∈ XMLConverter.log (XMLConverter.final run).
Proof.
  intros run.
  destruct (cancelled_run_keeps_earlier_entries XMLConverter.defaultConfig None "now"
              stopAtSecond trioDocument
              [trioRecord 0 "First Paper"] (trioRecord 1 "Second Paper")
              [trioRecord 2 "Third Paper"] "record")
    as (Hentries & Hout & Hlog & _ & _).
  - vm_compute. reflexivity.
  - vm_compute. reflexivity.
  - intros [|j] message Hj; [reflexivity | simpl in Hj; lia].
  - intros message. reflexivity.
  - split; [|split; [exact Hout | exact Hlog]].
    fold run in Hentries. rewrite Hentries. vm_compute. reflexivity.
Defined.

(** C8 fails as stated: the output returned for the cancelled run and
    the errors of the converter hold no word of the cancellation; the
    line goes to the log. *)
Lemma cancelled_run_returns_no_note :
  let run :=
    XMLConverter.convertToBibtex XMLConverter.defaultConfig (Some stopAtSecond) None "now"
      trioDocument in
  XMLConverter.output run
  = "% BibTeX file generated by Reference Converter
% Generation time: now
% Total records processed: 3
% Successfully converted: 1
% Conversion errors: 0
% Configuration: String definitions=true, BibLaTeX=false, ACM style=false

@misc{Smith2023FirstPaper,
  title = {{First Paper}},
  author = {John Smith},
  year = {2023}
}"
  ∧ Js.includes (Js.toLowerCase (XMLConverter.output run)) "cancel" = false
  ∧ XMLConverter.conversionErrors (XMLConverter.final run) = []
  ∧ List.filter (λ l, Js.includes (Js.toLowerCase l.2) "cancel")
      (XMLConverter.log (XMLConverter.final run))
    = [ (XMLConverter.Info, "Conversion cancelled by user") ].
Proof. vm_compute. split_and!; reflexivity. Qed.

(** ** Journal categories *)

(** C9.  With string definitions enabled, the journal "IEEE Transactions
    on Computers" is registered under the key [ieeetransactionsonco] and
    the journal field of the entry is that key; but its category is
    "ACM", not "IEEE": the patterns of "ACM", which come first, hold
    "Transactions on". *)
Theorem ieee_transactions_filed_under_acm :
  let run := XMLConverter.convertToBibtex XMLConverter.defaultConfig None None "now" ieeeDocument in
  XMLConverter.categorizeJournal "IEEE Transactions on Computers" = "ACM"
  ∧ XMLConverter.journals (XMLConverter.final run)
    = [ ("ieeetransactionsonco",
         {| XMLConverter.fullName := "IEEE Transactions on Computers";
            XMLConverter.abbreviated := "ITOC";
            XMLConverter.category := "ACM" |}) ]
  ∧ Js.includes (XMLConverter.output run) "% ACM Journals" = true
  ∧ Js.includes (XMLConverter.output run) "% IEEE Journals" = false
  ∧ XMLConverter.entries run
    = [ "@misc{Hopper1999PipelinedAdders,
  title = {{Pipelined Adders}},
  author = {Ada Hopper},
  year = {1999},
  journal = {ieeetransactionsonco}
}" ].
Proof. vm_compute. split_and!; reflexivity. Qed.

(** ** Registry keys *)

Lemma squeeze_stripPunctuation name :
  Js.join "" (Js.toLowerCase <$> Js.splitWs (XMLConverter.stripPunctuation name))
  = Js.toLowerCase (Js.filter Js.isAlnum name).
Proof.
  rewrite join_map_lower, join_splitWs. unfold XMLConverter.stripPunctuation.
  rewrite filter_filter. f_equal. apply filter_ext. intros c.
  destruct (Js.isAlnum c) eqn:Ha; simpl.
  - by rewrite (alnum_not_space c Ha).
  - by destruct (Js.isSpace c).
Qed.

Lemma generateJournalKey_spec name :
  XMLConverter.generateJournalKey name = keyOfName 20 name.
Proof. unfold XMLConverter.generateJournalKey, keyOfName. by rewrite squeeze_stripPunctuation. Qed.

Lemma generatePublisherKey_spec name :
  XMLConverter.generatePublisherKey name = keyOfName 15 name.
Proof. unfold XMLConverter.generatePublisherKey, keyOfName. by rewrite squeeze_stripPunctuation. Qed.

(** a name whose key is not empty is not blank *)
Lemma key_not_blank len name : keyOfName len name ≠ "" → Js.trim name ≠ "".
Proof.
  intros Hk Ht. apply Hk. unfold keyOfName.
  rewrite (filter_alnum_blank name) by (by apply trim_empty). apply take_empty.
Qed.

(** ** The registry *)

Section Registry.
Import XMLConverter.
Implicit Types (st : converter) (names : list string) (n k : string).

Lemma truthyAt_None (o : Js.Obj string) n :
  Js.truthyAt o n = None →
  Js.get o n = Some "" ∨ (Js.get o n = None ∧ Js.inherited n = false).
Proof.
  unfold Js.truthyAt, Js.lookup. destruct (Js.get o n) as [[|c s]|]; try done.
  - by left.
  - destruct (Js.inherited n); [done|]. by right.
Qed.

Lemma truthyAt_own (o : Js.Obj string) n k :
  Js.get o n = Some k → k ≠ "" → Js.truthyAt o n = Some (Js.Str k).
Proof.
  intros Hn Hk. unfold Js.truthyAt, Js.lookup. rewrite Hn.
  by apply truthy_ne in Hk as ->.
Qed.

Lemma truthyAt_Str (o : Js.Obj string) n k :
  Js.truthyAt o n = Some (Js.Str k) → Js.get o n = Some k.
Proof.
  unfold Js.truthyAt, Js.lookup. destruct (Js.get o n) as [s|].
  - destruct (Js.truthy s); [|done]. by intros [= ->].
  - by destruct (Js.inherited n).
Qed.

Lemma keyed_initial : keyed initial.
Proof. split; [constructor | done]. Qed.

Lemma addJournal_keyed n st : keyed st → keyed (addJournal n st).
Proof.
  intros [Hnd Hk]. unfold addJournal.
  destruct (Js.truthyAt (journalNameToKey st) n) eqn:Hn; [done|].
  split; cbn [journals journalNameToKey].
  - by apply NoDup_set.
  - intros m k. rewrite get_set. destruct (String.eqb_spec n m) as [->|?]; [|by auto].
    intros [= <-]. split; [done|].
    apply truthyAt_None in Hn as [Hn|[_ Hn]]; [|done]. by apply Hk in Hn as [_ ?].
Qed.

Lemma observeJournals_keyed names st : keyed st → keyed (observeJournals names st).
Proof.
  revert st. induction names as [|n names IH]; intros st H; [done|].
  by apply IH, addJournal_keyed.
Qed.

Lemma observeJournals_snoc names n st :
  observeJournals (names ++ [n]) st = addJournal n (observeJournals names st).
Proof. unfold observeJournals. by rewrite fold_left_app. Qed.

Lemma observeJournals_publishers names st :
  publishers (observeJournals names st) = publishers st.
Proof.
  revert st. induction names as [|n names IH]; intros st; [done|].
  cbn [observeJournals fold_left]. fold (observeJournals names (addJournal n st)).
  rewrite IH. unfold addJournal. by destruct (Js.truthyAt _ _).
Qed.

(** a name that is registered stays registered under its key *)
Lemma addJournal_keeps n st m k :
  getJournalKey st m = Some (Js.Str k) →
  getJournalKey (addJournal n st) m = Some (Js.Str k).
Proof.
  unfold getJournalKey, addJournal. intros Hm.
  destruct (Js.truthyAt (journalNameToKey st) n) eqn:Hn; [done|].
  cbn [journalNameToKey]. destruct (String.eqb_spec n m) as [->|Hne]; [congruence|].
  apply truthyAt_Str in Hm as Hown. apply truthyAt_own.
  - by rewrite get_set_ne.
  - intros ->. unfold Js.truthyAt, Js.lookup in Hm. by rewrite Hown in Hm.
Qed.

Lemma addJournal_registers n st :
  keyed st → generateJournalKey n ≠ "" → Js.inherited n = false →
  getJournalKey (addJournal n st) n = Some (Js.Str (generateJournalKey n)).
Proof.
  intros [_ Hk] Hne Hinh. unfold getJournalKey, addJournal.
  destruct (Js.truthyAt (journalNameToKey st) n) as [v|] eqn:Hn.
  - rewrite Hn. unfold Js.truthyAt, Js.lookup in Hn.
    destruct (Js.get (journalNameToKey st) n) as [s|] eqn:Hs.
    + destruct (Js.truthy s); [|done]. injection Hn as <-.
      by destruct (Hk n s Hs) as [-> _].
    + by rewrite Hinh in Hn.
  - cbn [journalNameToKey]. apply truthyAt_own; [apply get_set_eq | done].
Qed.

Lemma observeJournals_registers names n :
  n ∈ names → generateJournalKey n ≠ "" → Js.inherited n = false →
  getJournalKey (observeJournals names initial) n = Some (Js.Str (generateJournalKey n)).
Proof.
  induction names as [|x names IH] using rev_ind; [by intros ?%elem_of_nil|].
  rewrite observeJournals_snoc.
  intros [Hin| ->%list_elem_of_singleton]%elem_of_app Hne Hinh.
  - by apply addJournal_keeps, IH.
  - apply addJournal_registers; [|done..]. apply observeJournals_keyed, keyed_initial.
Qed.

(** only the names observed are registered *)
Lemma observeJournals_names names n k :
  Js.get (journalNameToKey (observeJournals names initial)) n = Some k → n ∈ names.
Proof.
  induction names as [|x names IH] using rev_ind; [done|].
  rewrite observeJournals_snoc. unfold addJournal.
  destruct (Js.truthyAt _ _).
  - intros ?%IH. apply elem_of_app. by left.
  - cbn [journalNameToKey]. rewrite get_set.
    destruct (String.eqb_spec x n) as [->|?].
    + intros _. apply elem_of_app. right. left.
    + intros ?%IH. apply elem_of_app. by left.
Qed.

(** The definition of a key is that of the name which was registered
    last: of the names with this key that no object inherits, the one
    whose first observation is the latest. *)
Lemma observeJournals_last names k :
  k ≠ "" →
  (∃ m, m ∈ names ∧ generateJournalKey m = k ∧ Js.inherited m = false) →
  ∃ n before after,
    names = before ++ n :: after
    ∧ (n ∉ before)
    ∧ generateJournalKey n = k
    ∧ Js.inherited n = false
    ∧ (∀ m, m ∈ after → generateJournalKey m = k → Js.inherited m = false →
            m ∈ before ++ [n])
    ∧ Js.get (journals (observeJournals names initial)) k = Some (journalOf n).
Proof.
  intros Hk. induction names as [|x names IH] using rev_ind.
  { by intros (m & ?%elem_of_nil & _). }
  intros (m & Hm & Hmk & Hminh). rewrite observeJournals_snoc.
  pose proof (observeJournals_keyed names initial keyed_initial) as Hkeyed.
  set (st := observeJournals names initial) in *.
  assert (∀ before n after,
            names = before ++ n :: after →
            names ++ [x] = before ++ n :: (after ++ [x])) as Hsplit.
  { intros before n after ->. by rewrite <- app_assoc. }
  unfold addJournal. destruct (Js.truthyAt (journalNameToKey st) x) as [v|] eqn:Hx.
  - (* [x] is known, or the name of an inherited member: nothing changes *)
    assert (generateJournalKey x = k → Js.inherited x = false → x ∈ names) as Hknown.
    { intros _ Hinh. unfold Js.truthyAt, Js.lookup in Hx.
      destruct (Js.get (journalNameToKey st) x) as [s|] eqn:Hs.
      - by apply observeJournals_names in Hs.
      - by rewrite Hinh in Hx. }
    destruct IH as (n & before & after & Hnames & Hnew & Hnk & Hninh & Hafter & Hget).
    { apply elem_of_app in Hm as [Hm|Hm%list_elem_of_singleton]; [by exists m|].
      subst m. exists x. split_and!; [by apply Hknown | done..]. }
    exists n, before, (after ++ [x]). split_and!; [by apply Hsplit | done.. | | done].
    intros y [Hy| ->%list_elem_of_singleton]%elem_of_app Hyk Hyinh; [by apply Hafter|].
    pose proof (Hknown Hyk Hyinh) as Hin. rewrite Hnames in Hin.
    apply elem_of_app in Hin as [Hin|[->|Hin]%elem_of_cons].
    + apply elem_of_app. by left.
    + apply elem_of_app. right. left.
    + by apply Hafter.
  - (* [x] is registered now *)
    assert (Js.inherited x = false) as Hxinh.
    { apply truthyAt_None in Hx as [Hx|[_ Hx]]; [|done].
      destruct Hkeyed as [_ Hkeys]. by apply Hkeys in Hx as [_ ?]. }
    cbn [journals]. destruct (decide (generateJournalKey x = k)) as [Hxk|Hxk].
    + exists x, names, []. split_and!; [done| |done|done| |].
      * intros Hin.
        pose proof (observeJournals_registers names x Hin ltac:(by rewrite Hxk) Hxinh) as Hreg.
        unfold getJournalKey in Hreg. fold st in Hreg. congruence.
      * by intros y ?%elem_of_nil.
      * rewrite Hxk. apply get_set_eq.
    + destruct IH as (n & before & after & Hnames & Hnew & Hnk & Hninh & Hafter & Hget).
      { apply elem_of_app in Hm as [Hm|Hm%list_elem_of_singleton]; [by exists m|].
        by subst m. }
      exists n, before, (after ++ [x]).
      split_and!; [by apply Hsplit | done.. | | by rewrite get_set_ne].
      intros y [Hy| ->%list_elem_of_singleton]%elem_of_app Hyk Hyinh; [by apply Hafter|done].
Qed.

(** the journal field of an entry that holds a registered name is
    rewritten to the key *)
Lemma formatField_journal cfg st (formatted : Formatted) n k :
  useStringDefinitions cfg = true →
  getJournalKey st n = Some (Js.Str k) → Js.trim n ≠ "" →
  formatField cfg st formatted ("journal", n)
  = Js.set (if useBiblatexFields cfg then "journaltitle" else "journal") (Js.Str k) formatted.
Proof.
  intros Hdefs Hkey Hn. unfold formatField.
  assert (Js.truthy n = true) as -> by (destruct n; [by destruct Hn | done]).
  apply String.eqb_neq in Hn as ->. cbn [negb orb].
  rewrite Hdefs. change (Js.truthyAt biblatexFieldMap "journal")
    with (Some (Js.Str "journaltitle")).
  destruct (useBiblatexFields cfg); cbn [Js.text String.eqb Ascii.eqb Bool.eqb andb orb];
    by rewrite Hkey.
Qed.

End Registry.

(** ** The string definitions *)

Section StringDefinitions.
Import XMLConverter.
Context {E : Type} (cat : E → string) (kind : string) (name : E → string).
Implicit Types (registry : Js.Obj E) (byCategory : Js.Obj (list (string * E))).

Lemma grouped_set byCategory c x :
  concat (Js.set c (default [] (Js.get byCategory c) ++ [x]) byCategory).*2
  ≡ₚ concat byCategory.*2 ++ [x].
Proof.
  induction byCategory as [|[c' g] byCategory IH].
  - done.
  - cbn [Js.set Js.get]. destruct (String.eqb c' c).
    + rewrite !fmap_cons. cbn [concat snd default].
      rewrite <- !app_assoc. apply Permutation_app_head, Permutation_app_comm.
    + rewrite !fmap_cons. cbn [concat snd]. rewrite IH. by rewrite app_assoc.
Qed.

Lemma group_fold l byCategory :
  concat (fold_left
            (λ byCategory '(key, e),
               Js.set (cat e) (default [] (Js.get byCategory (cat e)) ++ [(key, e)])
                 byCategory) l byCategory).*2
  ≡ₚ concat byCategory.*2 ++ l.
Proof.
  revert byCategory. induction l as [|[key e] l IH]; intros byCategory.
  - by rewrite app_nil_r.
  - cbn [fold_left]. rewrite IH, grouped_set. by rewrite <- app_assoc.
Qed.

(** every definition of the registry is in the group of its category,
    once *)
Lemma groupByCategory_perm registry :
  concat (Js.entries (groupByCategory cat registry)).*2 ≡ₚ registry.
Proof.
  rewrite (entries_perm (groupByCategory cat registry)).
  unfold groupByCategory. rewrite group_fold. cbn [fmap list_fmap concat app].
  apply entries_perm.
Qed.

(** the loop over the groups appends their blocks *)
Lemma definitionBlocks_text (blocks : Js.Obj (list (string * E))) stringDefs :
  fold_left
    (λ stringDefs '(cat, group),
       match group with
       | _ :: _ =>
           fold_left (λ defs '(key, e), defs +:+ stringDefinition key (name e)) group
             (stringDefs +:+ Js.nl +:+ "% " +:+ cat +:+ " " +:+ kind +:+ Js.nl)
       | [] => stringDefs
       end)
    blocks stringDefs
  = stringDefs +:+ blocksText kind name blocks.
Proof.
  assert (∀ group defs,
            fold_left (λ defs '(key, e), defs +:+ stringDefinition key (name e)) group defs
            = defs +:+ Js.join ""
                         ((λ d : string * E, stringDefinition d.1 (name d.2)) <$> group))
    as Hgroup.
  { induction group as [|[key e] group IH]; intros defs.
    - by rewrite string_app_nil_r.
    - cbn [fold_left]. rewrite IH, fmap_cons, join_empty_cons. cbn [fst snd].
      by rewrite string_app_assoc. }
  unfold blocksText. revert stringDefs.
  induction blocks as [|[c group] blocks IH]; intros stringDefs.
  - by rewrite string_app_nil_r.
  - cbn [fold_left]. rewrite IH, fmap_cons, join_empty_cons. unfold blockText at 2.
    cbn [fst snd]. destruct group as [|d group].
    + by rewrite string_app_nil_l.
    + rewrite Hgroup. by rewrite !string_app_assoc.
Qed.

Lemma includes_app_r a b p : Js.includes b p = true → Js.includes (a +:+ b) p = true.
Proof.
  intros H. induction a as [|c a IH]; [done|]. rewrite string_app_cons.
  by apply includes_later.
Qed.

Lemma startsWith_app p a b : Js.startsWith p a = true → Js.startsWith p (a +:+ b) = true.
Proof.
  revert a. induction p as [|c p IH]; intros a; [done|].
  destruct a as [|c' a]; [done|]. rewrite string_app_cons. cbn [Js.startsWith].
  intros [-> Hp]%andb_true_iff. by rewrite IH.
Qed.

Lemma includes_app_l a b p : Js.includes a p = true → Js.includes (a +:+ b) p = true.
Proof.
  induction a as [|c a IH].
  - cbn [Js.includes]. rewrite orb_false_r. intros H. apply includes_here.
    by apply (startsWith_app p "" b).
  - cbn [Js.includes]. intros [H|H]%orb_true_iff.
    + apply includes_here. by apply (startsWith_app p (String c a) b).
    + rewrite string_app_cons. by apply includes_later, IH.
Qed.

Lemma includes_self p : Js.includes p p = true.
Proof.
  apply includes_here. induction p as [|c p IH]; [done|].
  cbn [Js.startsWith]. by rewrite Ascii.eqb_refl.
Qed.

Lemma includes_join l x p :
  x ∈ l → Js.includes x p = true → Js.includes (Js.join "" l) p = true.
Proof.
  induction l as [|y l IH]; [by intros ?%elem_of_nil|].
  rewrite join_empty_cons. intros [->|Hin]%elem_of_cons Hp.
  - by apply includes_app_l.
  - by apply includes_app_r, IH.
Qed.

Lemma elem_of_concat {A : Type} (x : A) (ls : list (list A)) :
  x ∈ concat ls → ∃ l, x ∈ l ∧ l ∈ ls.
Proof.
  induction ls as [|l ls IH]; cbn [concat]; [by intros ?%elem_of_nil|].
  intros [Hx|Hx]%elem_of_app.
  - exists l. split; [done | left].
  - destruct (IH Hx) as (l' & ? & ?). exists l'. split; [done | by right].
Qed.

(** the line of a definition that is in a group is in the text of the
    blocks *)
Lemma blocksText_includes (blocks : list (string * list (string * E))) key e :
  (key, e) ∈ concat blocks.*2 →
  Js.includes (blocksText kind name blocks) (stringDefinition key (name e)) = true.
Proof.
  intros Hin. apply elem_of_concat in Hin as (group & Hin & Hgroup).
  apply list_elem_of_fmap in Hgroup as ([c g] & -> & Hblock). cbn [snd] in Hin.
  unfold blocksText. apply (includes_join _ (blockText kind name (c, g))).
  { apply list_elem_of_fmap. by exists (c, g). }
  unfold blockText. cbn [fst snd]. destruct g as [|d g]; [by apply elem_of_nil in Hin|].
  do 6 apply includes_app_r.
  apply (includes_join _ (stringDefinition key (name e))); [|apply includes_self].
  apply list_elem_of_fmap. by exists (key, e).
Qed.

End StringDefinitions.

Section SharedKeys.
Import XMLConverter.

(** the text that [generateStringDefinitions] returns when only
    journals are registered *)
Lemma generateStringDefinitions_journals st k e :
  publishers st = [] → Js.get (journals st) k = Some e →
  generateStringDefinitions st
  = "% String definitions for journals and publishers" +:+ Js.nl +:+
    blocksText "Journals" fullName (Js.entries (groupByCategory category (journals st))).
Proof.
  intros Hpub Hk. unfold generateStringDefinitions. rewrite Hpub.
  destruct (Js.keys (journals st)) as [|key keys] eqn:Hkeys.
  { apply get_Some_elem, entries_elem in Hk. unfold Js.keys in Hkeys.
    destruct (Js.entries (journals st)); [by apply elem_of_nil in Hk | done]. }
  cbn [Js.keys Js.entries groupByCategory fold_left omap list_omap List.filter fmap list_fmap
       fold_right app]. unfold definitionBlocks.
  rewrite !definitionBlocks_text. cbn [blocksText fmap list_fmap Js.join Js.entries].
  by rewrite string_app_nil_r, string_app_assoc.
Qed.

(** C10, as amended.  A registry key is the name without its
    non-alphanumeric characters, lower-cased and truncated to 20
    characters for a journal, 15 for a publisher.  When two observed
    names, neither of them the name of a member that every object
    inherits, have the same key and the key is not empty, the registry
    holds one definition for the key: that of the name with this key
    which was registered last, the one whose first observation is the
    latest.  The string definitions emitted are the blocks of the
    categories, in which every definition of the registry has one line,
    and they hold the line that gives this name to the key.  The journal
    field of an entry with either name is rewritten to the shared
    key. *)
Theorem colliding_names_share_one_key :
  (∀ name, generateJournalKey name = keyOfName 20 name
           ∧ generatePublisherKey name = keyOfName 15 name)
  ∧ ∀ (names : list string) (n1 n2 k : string),
      let st := observeJournals names initial in
      n1 ∈ names → n2 ∈ names →
      Js.inherited n1 = false → Js.inherited n2 = false →
      generateJournalKey n1 = k → generateJournalKey n2 = k → k ≠ "" →
      NoDup (journals st).*1
      ∧ (∃ n before after,
           names = before ++ n :: after
           ∧ (n ∉ before)
           ∧ generateJournalKey n = k
           ∧ Js.inherited n = false
           ∧ (∀ m, m ∈ after → generateJournalKey m = k → Js.inherited m = false →
                   m ∈ before ++ [n])
           ∧ Js.get (journals st) k = Some (journalOf n)
           ∧ Js.includes (generateStringDefinitions st) (stringDefinition k n) = true)
      ∧ generateStringDefinitions st
        = "% String definitions for journals and publishers" +:+ Js.nl +:+
          blocksText "Journals" fullName
            (Js.entries (groupByCategory category (journals st)))
      ∧ concat (Js.entries (groupByCategory category (journals st))).*2 ≡ₚ journals st
      ∧ getJournalKey st n1 = Some (Js.Str k)
      ∧ getJournalKey st n2 = Some (Js.Str k)
      ∧ ∀ cfg (formatted : Formatted) n,
          useStringDefinitions cfg = true → n = n1 ∨ n = n2 →
          formatField cfg st formatted ("journal", n)
          = Js.set (if useBiblatexFields cfg then "journaltitle" else "journal")
              (Js.Str k) formatted.
Proof.
  split.
  - intros name. split; [apply generateJournalKey_spec | apply generatePublisherKey_spec].
  - intros names n1 n2 k st Hin1 Hin2 Hinh1 Hinh2 Hk1 Hk2 Hk.
    assert (getJournalKey st n1 = Some (Js.Str k)) as H1.
    { rewrite <- Hk1. apply observeJournals_registers; [done | by rewrite Hk1 | done]. }
    assert (getJournalKey st n2 = Some (Js.Str k)) as H2.
    { rewrite <- Hk2. apply observeJournals_registers; [done | by rewrite Hk2 | done]. }
    destruct (observeJournals_last names k Hk)
      as (n & before & after & Hnames & Hnew & Hnk & Hninh & Hafter & Hget).
    { by exists n1. }
    fold st in Hget.
    assert (publishers st = []) as Hpub by apply observeJournals_publishers.
    pose proof (generateStringDefinitions_journals st k _ Hpub Hget) as Htext.
    split_and!; [| |done| |done|done|].
    + apply observeJournals_keyed, keyed_initial.
    + exists n, before, after. split_and!; [done..|].
      rewrite Htext. apply includes_app_r.
      apply (blocksText_includes "Journals" fullName _ k (journalOf n)).
      rewrite (groupByCategory_perm category (journals st)). by apply get_Some_elem.
    + apply (groupByCategory_perm category (journals st)).
    + intros cfg formatted m Hdefs [-> | ->]; apply formatField_journal; try done.
      * apply (key_not_blank 20). rewrite <- generateJournalKey_spec. by rewrite Hk1.
      * apply (key_not_blank 20). rewrite <- generateJournalKey_spec. by rewrite Hk2.
Qed.

End SharedKeys.

Lemma colliding_names_share_one_key_witness :
  let computers := "IEEE Transactions on Computers" in
  let communications := "IEEE Transactions on Communications" in
  let k := "ieeetransactionsonco" in
  let st :=
    observeJournals [computers; "Nature"; communications; "Science"; computers]
      XMLConverter.initial in
  (∃ n, Js.get (XMLConverter.journals st) k = Some (journalOf n)
        ∧ Js.includes (XMLConverter.generateStringDefinitions st)
            (XMLConverter.stringDefinition k n) = true)
  ∧ XMLConverter.getJournalKey st computers = Some (Js.Str k)
  ∧ XMLConverter.getJournalKey st communications = Some (Js.Str k)
  ∧ XMLConverter.formatField XMLConverter.defaultConfig st [] ("journal", computers)
    = [("journal", Js.Str k)].
Proof.
  intros computers communications k st.
  destruct colliding_names_share_one_key as [_ H].
  destruct (H [computers; "Nature"; communications; "Science"; computers]
              computers communications k)
    as (_ & (n & before & after & _ & _ & _ & _ & _ & Hdef & Hline) & _ & _ & Hk1 & Hk2 & Hfmt).
  - by repeat constructor.
  - by repeat constructor.
  - reflexivity.
  - reflexivity.
  - vm_compute. reflexivity.
  - vm_compute. reflexivity.
  - discriminate.
  - split; [exists n; split; [exact Hdef | exact Hline]|].
    split; [exact Hk1|]. split; [exact Hk2|].
    apply (Hfmt XMLConverter.defaultConfig [] computers); [reflexivity | by left].
Defined.

(** C10 fails as stated at the empty key: two names without an
    alphanumeric character share it, and the entries keep their literal
    names.  The definition of a shared key carries the name that was
    registered last, not the name that was observed last.  And a name
    that every object inherits as a member is never registered: of
    [constructor] and [Constructor], which share a key, the first gets
    no definition, and an entry with that name gets the inherited
    member as its journal. *)
Lemma empty_key_is_not_referenced :
  let st := observeJournals ["计算机学报"; "软件学报"] XMLConverter.initial in
  let computers := "IEEE Transactions on Computers" in
  let communications := "IEEE Transactions on Communications" in
  let again := observeJournals [computers; communications; computers] XMLConverter.initial in
  let member := observeJournals ["constructor"; "Constructor"] XMLConverter.initial in
  XMLConverter.generateJournalKey "计算机学报" = ""
  ∧ XMLConverter.generateJournalKey "软件学报" = ""
  ∧ XMLConverter.journals st = [("", journalOf "软件学报")]
  ∧ XMLConverter.getJournalKey st "计算机学报" = None
  ∧ XMLConverter.getJournalKey st "软件学报" = None
  ∧ XMLConverter.formatField XMLConverter.defaultConfig st [] ("journal", "计算机学报")
    = [("journal", Js.Str "计算机学报")]
  ∧ XMLConverter.journals again = [("ieeetransactionsonco", journalOf communications)]
  ∧ XMLConverter.generateJournalKey "constructor" = "constructor"
  ∧ XMLConverter.generateJournalKey "Constructor" = "constructor"
  ∧ XMLConverter.journals member = [("constructor", journalOf "Constructor")]
  ∧ XMLConverter.getJournalKey member "constructor" = Some (Js.Member "constructor")
  ∧ XMLConverter.formatField XMLConverter.defaultConfig member [] ("journal", "constructor")
    = [("journal", Js.Member "constructor")].
Proof. vm_compute. split_and!; reflexivity. Qed.

(* ================================================================== *)
(** * Further properties *)
(* ================================================================== *)

(** ** More on strings *)

Lemma filter_app p s1 s2 : Js.filter p (s1 +:+ s2) = Js.filter p s1 +:+ Js.filter p s2.
Proof.
  induction s1 as [|c s1 IH]; [done|]. cbn [Js.filter]. rewrite string_app_cons.
  cbn [Js.filter]. rewrite IH. by destruct (p c).
Qed.

Lemma forallb_filter p s : Js.forallb p (Js.filter p s) = true.
Proof.
  induction s as [|c s IH]; [done|]. cbn [Js.filter].
  destruct (p c) eqn:Hc; [|done]. cbn [Js.forallb]. by rewrite Hc, IH.
Qed.

Lemma filter_all p s : Js.forallb p s = true → Js.filter p s = s.
Proof.
  induction s as [|c s IH]; [done|]. cbn [Js.forallb Js.filter].
  intros [Hc Hs]%andb_true_iff. by rewrite Hc, IH.
Qed.

Lemma forallb_impl (p q : ascii → bool) s :
  (∀ c, p c = true → q c = true) → Js.forallb p s = true → Js.forallb q s = true.
Proof.
  intros Hpq. induction s as [|c s IH]; [done|]. cbn [Js.forallb].
  intros [Hc Hs]%andb_true_iff. by rewrite (Hpq c Hc), IH.
Qed.

Lemma forallb_take p n s : Js.forallb p s = true → Js.forallb p (Js.take n s) = true.
Proof.
  revert n. induction s as [|c s IH]; intros [|n]; try done. cbn [Js.forallb Js.take].
  intros [Hc Hs]%andb_true_iff. by rewrite Hc, IH.
Qed.

Lemma length_take n s : (String.length (Js.take n s) ≤ n)%nat.
Proof.
  revert s. induction n as [|n IH]; intros [|c s]; simpl; try lia. specialize (IH s). lia.
Qed.

Lemma take_all n s : (String.length s ≤ n)%nat → Js.take n s = s.
Proof.
  revert s. induction n as [|n IH]; intros [|c s]; simpl; try done; try lia.
  intros. rewrite IH; [done | lia].
Qed.

Lemma string_app_inv_head s a b : s +:+ a = s +:+ b → a = b.
Proof.
  induction s as [|c s IH]; [done|]. rewrite !string_app_cons. intros [= H]. auto.
Qed.

(** the decimal numeral of a number is made of digits, and tells the
    number *)
Lemma digits_string_of_uint d : Js.forallb Js.isDigit (NilEmpty.string_of_uint d) = true.
Proof. induction d; simpl; done. Qed.

Lemma ofNat_digits n : Js.forallb Js.isDigit (Js.ofNat n) = true.
Proof.
  unfold Js.ofNat, NilZero.string_of_uint.
  destruct (Nat.to_uint n); try done; apply (digits_string_of_uint (_ _)).
Qed.

Lemma ofNat_truthy n : Js.truthy (Js.ofNat n) = true.
Proof.
  unfold Js.ofNat, NilZero.string_of_uint. by destruct (Nat.to_uint n).
Qed.

Lemma to_uint_not_nil n : Nat.to_uint n ≠ Decimal.Nil.
Proof.
  intros H. pose proof (DecimalNat.Unsigned.of_to n) as Hn. rewrite H in Hn.
  simpl in Hn. subst n. discriminate H.
Qed.

Lemma ofNat_inj m n : Js.ofNat m = Js.ofNat n → m = n.
Proof.
  unfold Js.ofNat. intros H.
  apply (f_equal NilZero.uint_of_string) in H.
  rewrite !NilZero.usu in H by apply to_uint_not_nil.
  injection H as H.
  rewrite <- (DecimalNat.Unsigned.of_to m), <- (DecimalNat.Unsigned.of_to n).
  by rewrite H.
Qed.

(** ** The keys and the year of a record *)

Section RecordKeys.
Import Dom XMLConverter.

Lemma matchYear_digits s y :
  matchYear s = Some y → String.length y = 4%nat ∧ Js.forallb Js.isDigit y = true.
Proof.
  induction s as [|c s IH]; [done|]. cbn [matchYear].
  destruct (_ && _) eqn:Hy; [|done].
  apply andb_prop in Hy as [Hlen Hdig]. intros [= <-].
  by apply Nat.eqb_eq in Hlen.
Qed.

Lemma extractYear_digits cfg record d :
  (extractYear cfg record d).1 = ""
  ∨ String.length (extractYear cfg record d).1 = 4%nat
    ∧ Js.forallb Js.isDigit (extractYear cfg record d).1 = true.
Proof.
  unfold extractYear. step_monad. destruct (queryAll record _ d) as [[|e els] d1].
  - by left.
  - destruct (extractTextContent cfg e d1) as [yearText d2]. cbn [fst].
    destruct (matchYear yearText) as [y|] eqn:Hy; [|by left].
    right. by apply matchYear_digits in Hy.
Qed.

(** X1.  The year that [extractYear] returns is empty or made of exactly
    four digits. *)
Theorem extractYear_empty_or_four_digits cfg record d :
  (extractYear cfg record d).1 = ""
  ∨ String.length (extractYear cfg record d).1 = 4%nat
    ∧ Js.forallb Js.isDigit (extractYear cfg record d).1 = true.
Proof. apply extractYear_digits. Qed.

Lemma digit_word c : Js.isDigit c = true → Js.isWord c = true.
Proof. unfold Js.isWord, Js.isAlnum. intros ->. by rewrite orb_true_r. Qed.

(** the suffix that tells the position of a record *)
Lemma keyChars_suffix base index :
  keyChars (base +:+ (if (0 <? index)%nat then "_" +:+ Js.ofNat index else ""))
  = keyChars base +:+ (if (0 <? index)%nat then "_" +:+ Js.ofNat index else "").
Proof.
  unfold keyChars. rewrite filter_app. f_equal.
  destruct (0 <? index)%nat; [|done]. apply filter_all.
  rewrite string_app_cons, string_app_nil_l. cbn [Js.forallb].
  apply andb_true_iff. split; [reflexivity|].
  apply (forallb_impl Js.isDigit); [apply digit_word | apply ofNat_digits].
Qed.

(** X2.  Records with the same authors, year and title get different
    keys at different positions. *)
Theorem citation_keys_differ_by_position authors year title (i j : nat) :
  i ≠ j → citationKeyOf authors year title i ≠ citationKeyOf authors year title j.
Proof.
  intros Hij. unfold citationKeyOf. cbv zeta.
  rewrite !keyChars_suffix. intros H%string_app_inv_head.
  destruct i as [|i], j as [|j]; try done; cbn in H.
  injection H as H. by apply ofNat_inj in H.
Qed.

Lemma citation_keys_differ_by_position_witness :
  1%nat ≠ 2%nat
  ∧ citationKeyOf ["John Smith"] "2023" "A Study of Things" 1
    ≠ citationKeyOf ["John Smith"] "2023" "A Study of Things" 2.
Proof.
  split; [lia|]. apply (citation_keys_differ_by_position _ _ _ 1 2). lia.
Defined.

Lemma truthy_app_r s1 s2 : Js.truthy s2 = true → Js.truthy (s1 +:+ s2) = true.
Proof. destruct s1; [done|]. by rewrite string_app_cons. Qed.

Lemma truthy_app_l s1 s2 : Js.truthy s1 = true → Js.truthy (s1 +:+ s2) = true.
Proof. by destruct s1. Qed.

(** X3.  The citation key of a record is never empty and holds only
    letters, digits and underscores. *)
Theorem citation_key_is_a_word cfg record index d :
  let key := (generateCitationKey cfg record index d).1 in
  Js.truthy key = true ∧ Js.forallb Js.isWord key = true.
Proof.
  unfold generateCitationKey. step_monad.
  destruct (extractAuthors cfg record d) as [authors d1].
  pose proof (extractYear_digits cfg record d1) as Hy.
  destruct (extractYear cfg record d1) as [year d2]. cbn [fst] in Hy.
  destruct (extractTitle cfg record d2) as [title d3]. cbn [fst]. cbv zeta.
  split; [|apply forallb_filter].
  unfold citationKeyOf. cbv zeta. rewrite keyChars_suffix.
  apply truthy_app_l. unfold keyChars.
  set (y := if Js.truthy year then year else "0000").
  assert (Js.truthy y = true ∧ Js.forallb Js.isWord y = true) as [Hty Hwy].
  { subst y. destruct Hy as [->|[Hlen Hdig]]; [done|].
    destruct year; [done|]. split; [done|].
    by apply (forallb_impl Js.isDigit); [apply digit_word|]. }
  destruct (if Js.truthy title then _ else _) as [|w ws];
    rewrite ?filter_app, (filter_all _ y Hwy).
  - by apply truthy_app_r.
  - by apply truthy_app_l, truthy_app_r.
Qed.

Lemma shortened_length t :
  (String.length (Js.take 50 t +:+ (if (50 <? String.length t)%nat then "..." else "")) ≤ 53)%nat.
Proof.
  rewrite string_length_app. pose proof (length_take 50 t) as Hl.
  destruct (50 <? String.length t)%nat; cbn [String.length]; lia.
Qed.

(** X4.  The title shown with the progress of a record is not empty and
    has at most 53 characters. *)
Theorem record_title_is_short cfg record d title :
  (getRecordTitle cfg record d).1 = Some title →
  Js.truthy title = true ∧ (String.length title ≤ 53)%nat.
Proof.
  unfold getRecordTitle. step_monad. destruct (queryAll record _ d) as [[|e els] d1]; [done|].
  destruct (extractTextContent cfg e d1) as [t d2]. cbn [fst].
  destruct (Js.truthy t) eqn:Ht; [|done]. intros [= <-]. split.
  - destruct t; [done|]. done.
  - apply shortened_length.
Qed.

End RecordKeys.

Lemma record_title_is_short_witness :
  (XMLConverter.getRecordTitle XMLConverter.defaultConfig annotatedRecord annotatedDocument).1
    = Some "A Study of Things"
  ∧ Js.truthy "A Study of Things" = true
  ∧ (String.length "A Study of Things" ≤ 53)%nat.
Proof.
  split; [vm_compute; reflexivity|].
  apply (record_title_is_short XMLConverter.defaultConfig annotatedRecord annotatedDocument).
  vm_compute. reflexivity.
Defined.

(** ** Page ranges *)

Section PageRanges.

Lemma space_not_digit c : Js.isSpace c = true → Js.isDigit c = false.
Proof. destruct c as [[] [] [] [] [] [] [] []]; vm_compute; congruence. Qed.

Lemma digit_not_space c : Js.isDigit c = true → Js.isSpace c = false.
Proof. destruct c as [[] [] [] [] [] [] [] []]; vm_compute; congruence. Qed.

(** the digits at the start of a text that goes on with another
    character *)
Lemma spanDigits_app d r :
  Js.forallb Js.isDigit d = true → Js.spanDigits r = ("", r) →
  Js.spanDigits (d +:+ r) = (d, r).
Proof.
  intros Hd Hr. induction d as [|c d IH]; [done|].
  cbn [Js.forallb] in Hd. apply andb_true_iff in Hd as [Hc Hd].
  rewrite string_app_cons. cbn [Js.spanDigits]. by rewrite Hc, IH.
Qed.

Lemma spanDigits_all d : Js.forallb Js.isDigit d = true → Js.spanDigits d = (d, "").
Proof.
  intros Hd. rewrite <- (string_app_nil_r d) at 1. by apply spanDigits_app.
Qed.

Lemma trimStart_app ws r :
  Js.forallb Js.isSpace ws = true → Js.trimStart r = r → Js.trimStart (ws +:+ r) = r.
Proof.
  intros Hws Hr. induction ws as [|c ws IH]; [done|].
  cbn [Js.forallb] in Hws. apply andb_true_iff in Hws as [Hc Hws].
  rewrite string_app_cons. cbn [Js.trimStart]. by rewrite Hc, IH.
Qed.

Lemma trimStart_digits d : Js.forallb Js.isDigit d = true → Js.trimStart d = d.
Proof.
  destruct d as [|c d]; [done|]. cbn [Js.forallb Js.trimStart].
  intros [Hc _]%andb_true_iff. by rewrite (digit_not_space c Hc).
Qed.

Lemma spanDigits_spaces ws r :
  Js.forallb Js.isSpace ws = true → Js.spanDigits r = ("", r) →
  Js.spanDigits (ws +:+ r) = ("", ws +:+ r).
Proof.
  destruct ws as [|c ws]; [done|]. cbn [Js.forallb]. intros [Hc _]%andb_true_iff _.
  rewrite string_app_cons. cbn [Js.spanDigits]. by rewrite (space_not_digit c Hc).
Qed.

Lemma rev_digits_end x d :
  d ≠ "" → Js.forallb Js.isDigit d = true →
  Js.trimStart (String.rev (x +:+ d)) = String.rev (x +:+ d).
Proof.
  intros Hne Hd. unfold String.rev.
  assert (∃ c r, String.rev_app (x +:+ d) "" = String c r ∧ Js.isDigit c = true)
    as (c & r & -> & Hc).
  { revert x. induction d as [|a d IH]; [done|]. intros x.
    cbn [Js.forallb] in Hd. apply andb_true_iff in Hd as [Ha Hd].
    destruct d as [|b d].
    - exists a, (String.rev x). split; [apply rev_snoc | done].
    - destruct (IH ltac:(done) Hd (x +:+ String a "")) as (c & r & Hr & Hc).
      exists c, r. split; [|done]. rewrite <- Hr. f_equal.
      by rewrite string_app_assoc. }
  cbn [Js.trimStart]. by rewrite (digit_not_space c Hc).
Qed.

Lemma trimStart_digit_start d r :
  d ≠ "" → Js.forallb Js.isDigit d = true → Js.trimStart (d +:+ r) = d +:+ r.
Proof.
  destruct d as [|c d]; [done|]. intros _. cbn [Js.forallb].
  intros [Hc _]%andb_true_iff. rewrite string_app_cons. cbn [Js.trimStart].
  by rewrite (digit_not_space c Hc).
Qed.

Lemma trim_page_range d1 d2 :
  d1 ≠ "" → d2 ≠ "" →
  Js.forallb Js.isDigit d1 = true → Js.forallb Js.isDigit d2 = true →
  Js.trim (d1 +:+ "--" +:+ d2) = d1 +:+ "--" +:+ d2.
Proof.
  intros Hn1 Hn2 Hd1 Hd2. apply trim_fixed.
  - by apply trimStart_digit_start.
  - rewrite <- string_app_assoc. by apply rev_digits_end.
Qed.

Import XMLConverter.

Lemma stripDash_dash dash r :
  dash ∈ dashes → stripDash (dash +:+ r) = Some r ∧ Js.trimStart (dash +:+ r) = dash +:+ r
                  ∧ Js.spanDigits (dash +:+ r) = ("", dash +:+ r).
Proof.
  unfold dashes. intros H.
  repeat (apply elem_of_cons in H as [->|H]); [by vm_compute..|by apply elem_of_nil in H].
Qed.

Lemma pageRangeAt_range d1 ws1 dash ws2 d2 :
  d1 ≠ "" → d2 ≠ "" →
  Js.forallb Js.isDigit d1 = true → Js.forallb Js.isDigit d2 = true →
  Js.forallb Js.isSpace ws1 = true → Js.forallb Js.isSpace ws2 = true →
  dash ∈ dashes →
  pageRangeAt (d1 +:+ ws1 +:+ dash +:+ ws2 +:+ d2) = Some (d1 +:+ "--" +:+ d2).
Proof.
  intros Hn1 Hn2 Hd1 Hd2 Hw1 Hw2 Hdash.
  destruct (stripDash_dash dash (ws2 +:+ d2) Hdash) as (Hstrip & Htrim & Hspan).
  unfold pageRangeAt.
  rewrite (spanDigits_app d1) by (by try apply spanDigits_spaces).
  rewrite (proj2 (truthy_ne _)) by done.
  rewrite trimStart_app by done. rewrite Hstrip.
  rewrite trimStart_app by (by try apply trimStart_digits).
  rewrite spanDigits_all by done.
  rewrite (proj2 (truthy_ne _)) by done. by rewrite string_app_nil_r.
Qed.

Lemma normalizePageRange_here s r : pageRangeAt s = Some r → normalizePageRange s = r.
Proof. intros H. destruct s; cbn [normalizePageRange]; by rewrite H. Qed.

Lemma normalizePageRange_digits d :
  Js.forallb Js.isDigit d = true → normalizePageRange d = d.
Proof.
  induction d as [|c d IH]; [done|]. intros Hd.
  cbn [normalizePageRange]. unfold pageRangeAt. rewrite (spanDigits_all _ Hd).
  cbn [Js.truthy Js.trimStart stripDash Js.startsWith].
  cbn [Js.forallb] in Hd. apply andb_true_iff in Hd as [_ Hd]. by rewrite IH.
Qed.

Lemma normalizePageRange_normal d1 d2 :
  Js.forallb Js.isDigit d1 = true → Js.forallb Js.isDigit d2 = true →
  normalizePageRange (d1 +:+ "--" +:+ d2) = d1 +:+ "--" +:+ d2.
Proof.
  intros Hd1 Hd2.
  assert (∀ d, Js.forallb Js.isDigit d = true → pageRangeAt (d +:+ "--" +:+ d2) = None) as Hnone.
  { intros d Hd. unfold pageRangeAt. rewrite (spanDigits_app d) by done.
    destruct (Js.truthy d); [|done].
    change (Js.trimStart ("--" +:+ d2)) with ("--" +:+ d2).
    change (stripDash ("--" +:+ d2)) with (Some ("-" +:+ d2)).
    by change (Js.trimStart ("-" +:+ d2)) with ("-" +:+ d2). }
  induction d1 as [|c d1 IH].
  - rewrite string_app_nil_l.
    change ("--" +:+ d2) with (String "-" (String "-" d2)).
    cbn [normalizePageRange].
    assert (pageRangeAt (String "-" (String "-" d2)) = None) as -> by reflexivity.
    assert (pageRangeAt (String "-" d2) = None) as -> by reflexivity.
    by rewrite normalizePageRange_digits.
  - rewrite string_app_cons. cbn [normalizePageRange].
    rewrite <- string_app_cons, (Hnone _ Hd1), (string_app_cons c d1).
    cbn [Js.forallb] in Hd1. apply andb_true_iff in Hd1 as [_ Hd1]. by rewrite IH.
Qed.

(** X5.  A range of two page numbers with a hyphen, an en dash or an em
    dash between them, with or without white space around it, is
    rewritten with a double hyphen; and [formatFieldValue], which
    normalises the pages once more, leaves that range as it is. *)
Theorem page_range_gets_double_hyphen d1 ws1 dash ws2 d2 :
  d1 ≠ "" → d2 ≠ "" →
  Js.forallb Js.isDigit d1 = true → Js.forallb Js.isDigit d2 = true →
  Js.forallb Js.isSpace ws1 = true → Js.forallb Js.isSpace ws2 = true →
  dash ∈ dashes →
  normalizePageRange (d1 +:+ ws1 +:+ dash +:+ ws2 +:+ d2) = d1 +:+ "--" +:+ d2
  ∧ formatFieldValue (d1 +:+ "--" +:+ d2) "pages" = d1 +:+ "--" +:+ d2.
Proof.
  intros Hn1 Hn2 Hd1 Hd2 Hw1 Hw2 Hdash. split.
  - by apply normalizePageRange_here, pageRangeAt_range.
  - unfold formatFieldValue.
    rewrite truthy_app_l by (by apply truthy_ne). cbn [negb].
    rewrite trim_page_range by done.
    change (String.eqb "pages" "pages") with true. cbv iota.
    by apply normalizePageRange_normal.
Qed.

Lemma page_range_gets_double_hyphen_witness :
  normalizePageRange "123 – 456" = "123--456"
  ∧ formatFieldValue "123--456" "pages" = "123--456".
Proof.
  apply (page_range_gets_double_hyphen "123" " " "–" " " "456");
    try done; try reflexivity.
  unfold dashes. apply elem_of_cons. right. apply elem_of_cons. by left.
Defined.

End PageRanges.

(** ** Escaping in one pass *)

Section EngineEscaping.
Import ConversionEngine.

(** what the engine writes for one character *)
Lemma escape_code_prefix_free c c' x y :
  (if isSpecial c then default (String c EmptyString) (escapeOf escapeMap c)
   else String c EmptyString) +:+ x
  = (if isSpecial c' then default (String c' EmptyString) (escapeOf escapeMap c')
     else String c' EmptyString) +:+ y →
  c = c' ∧ x = y.
Proof.
  destruct (isSpecial c) eqn:Hc, (isSpecial c') eqn:Hc'.
  - apply bool_decide_eq_true in Hc, Hc'.
    repeat (apply elem_of_cons in Hc as [->|Hc]); [..|by apply elem_of_nil in Hc];
      repeat (apply elem_of_cons in Hc' as [->|Hc']); try (by apply elem_of_nil in Hc');
      cbn; intros [=]; by subst.
  - apply bool_decide_eq_true in Hc.
    repeat (apply elem_of_cons in Hc as [->|Hc]); [..|by apply elem_of_nil in Hc];
      cbn; intros [= <- _]; vm_compute in Hc'; discriminate.
  - apply bool_decide_eq_true in Hc'.
    repeat (apply elem_of_cons in Hc' as [->|Hc']); [..|by apply elem_of_nil in Hc'];
      cbn; intros [= -> _]; vm_compute in Hc; discriminate.
  - rewrite !string_app_cons, !string_app_nil_l. by intros [= -> ->].
Qed.

Lemma escape_code_not_empty c x :
  (if isSpecial c then default (String c EmptyString) (escapeOf escapeMap c)
   else String c EmptyString) +:+ x ≠ "".
Proof.
  destruct (isSpecial c) eqn:Hc; [|done].
  apply bool_decide_eq_true in Hc.
  repeat (apply elem_of_cons in Hc as [->|Hc]); [..|by apply elem_of_nil in Hc]; done.
Qed.

(** X6.  The escaping of the engine loses nothing: two texts with the
    same escaped form are the same text. *)
Theorem escapeLatexCharacters_is_injective (s s' : string) :
  escapeLatexCharacters s = escapeLatexCharacters s' → s = s'.
Proof.
  revert s'. induction s as [|c s IH]; intros [|c' s'].
  - done.
  - rewrite escapeLatexCharacters_cons. intros H. symmetry in H.
    by apply escape_code_not_empty in H.
  - rewrite escapeLatexCharacters_cons. intros H.
    by apply escape_code_not_empty in H.
  - rewrite !escapeLatexCharacters_cons.
    intros [-> H]%escape_code_prefix_free. by rewrite (IH _ H).
Qed.

Lemma escapeLatexCharacters_is_injective_witness :
  escapeLatexCharacters "R&D" = escapeLatexCharacters "R&D" ∧ "R&D" = "R&D".
Proof.
  split; [reflexivity|].
  apply (escapeLatexCharacters_is_injective "R&D" "R&D"). reflexivity.
Defined.

(** X7.  The engine leaves a text without special characters as it is,
    also at the start of a longer text, whose rest is escaped on its
    own. *)
Theorem escapeLatexCharacters_keeps_plain_text (s1 s2 : string) :
  Js.forallb (λ c, negb (isSpecial c)) s1 = true →
  escapeLatexCharacters (s1 +:+ s2) = s1 +:+ escapeLatexCharacters s2.
Proof.
  induction s1 as [|c s1 IH]; [done|]. cbn [Js.forallb].
  intros [Hc Hs]%andb_true_iff.
  rewrite string_app_cons, escapeLatexCharacters_cons, IH by done.
  by destruct (isSpecial c).
Qed.

Lemma escapeLatexCharacters_keeps_plain_text_witness :
  escapeLatexCharacters ("Research and " +:+ "R&D") = "Research and " +:+ "R\&D".
Proof.
  apply (escapeLatexCharacters_keeps_plain_text "Research and " "R&D").
  vm_compute. reflexivity.
Defined.

End EngineEscaping.

Section ConverterEscaping.
Import XMLConverter.

Lemma replaceAllChar_absent c rep s :
  Js.forallb (λ a, negb (Ascii.eqb a c)) s = true → Js.replaceAllChar c rep s = s.
Proof.
  induction s as [|a s IH]; [done|]. cbn [Js.forallb Js.replaceAllChar].
  intros [Ha Hs]%andb_true_iff. rewrite IH by done. by destruct (Ascii.eqb a c).
Qed.

(** replacing the characters of a table one after the other *)
Lemma replace_table_absent (table : list (ascii * string)) s :
  Js.forallb (λ a, negb (bool_decide (a ∈ table.*1))) s = true →
  fold_left (λ t '(c, replacement), Js.replaceAllChar c replacement t) table s = s.
Proof.
  induction table as [|[c rep] table IH]; [done|]. intros Hs.
  cbn [fold_left]. rewrite replaceAllChar_absent.
  - apply IH. revert Hs. apply forallb_impl. intros a Ha.
    apply negb_true_iff, bool_decide_eq_false in Ha.
    apply negb_true_iff, bool_decide_eq_false. intros Hin. apply Ha.
    rewrite fmap_cons. by right.
  - revert Hs. apply forallb_impl. intros a Ha.
    apply negb_true_iff, bool_decide_eq_false in Ha.
    destruct (Ascii.eqb_spec a c) as [->|]; [|done].
    exfalso. apply Ha. rewrite fmap_cons. by left.
Qed.

(** X8.  [escapeLatex] returns the text as it is when escaping is
    disabled, and when the text holds none of the twelve characters of
    the table. *)
Theorem escapeLatex_keeps_plain_text cfg text :
  escapeLatexChars cfg = false
  ∨ Js.forallb (λ a, negb (bool_decide (a ∈ latexSpecialChars.*1))) text = true →
  escapeLatex cfg text = text.
Proof.
  unfold escapeLatex. intros [->|Hplain]; [done|].
  destruct (negb (escapeLatexChars cfg) || negb (Js.truthy text)); [done|].
  by apply replace_table_absent.
Qed.

Lemma escapeLatex_keeps_plain_text_witness :
  escapeLatex defaultConfig "Pipelined Adders, 2nd ed." = "Pipelined Adders, 2nd ed.".
Proof.
  apply (escapeLatex_keeps_plain_text defaultConfig "Pipelined Adders, 2nd ed.").
  right. vm_compute. reflexivity.
Defined.

End ConverterEscaping.

(** ** More on the registry *)

Section RegistryKeys.
Import XMLConverter.

Lemma forallb_map (p q : ascii → bool) f s :
  (∀ c, p c = true → q (f c) = true) →
  Js.forallb p s = true → Js.forallb q (Js.map f s) = true.
Proof.
  intros Hpq. induction s as [|c s IH]; [done|]. cbn [Js.forallb Js.map].
  intros [Hc Hs]%andb_true_iff. by rewrite (Hpq c Hc), IH.
Qed.

Lemma map_fixed (p : ascii → bool) f s :
  (∀ c, p c = true → f c = c) → Js.forallb p s = true → Js.map f s = s.
Proof.
  intros Hp. induction s as [|c s IH]; [done|]. cbn [Js.forallb Js.map].
  intros [Hc Hs]%andb_true_iff. by rewrite (Hp c Hc), IH.
Qed.

Lemma lower_alnum_keyChar c : Js.isAlnum c = true → isKeyChar (Js.toLowerChar c) = true.
Proof. destruct c as [[] [] [] [] [] [] [] []]; vm_compute; congruence. Qed.

Lemma keyChar_alnum c : isKeyChar c = true → Js.isAlnum c = true.
Proof. destruct c as [[] [] [] [] [] [] [] []]; vm_compute; congruence. Qed.

Lemma keyChar_lower c : isKeyChar c = true → Js.toLowerChar c = c.
Proof. destruct c as [[] [] [] [] [] [] [] []]; vm_compute; congruence. Qed.

Lemma keyOfName_shape len n :
  (String.length (keyOfName len n) ≤ len)%nat
  ∧ Js.forallb isKeyChar (keyOfName len n) = true.
Proof.
  unfold keyOfName. split; [apply length_take|]. apply forallb_take.
  apply (forallb_map Js.isAlnum); [apply lower_alnum_keyChar | apply forallb_filter].
Qed.

Lemma keyOfName_fixed len k :
  (String.length k ≤ len)%nat → Js.forallb isKeyChar k = true → keyOfName len k = k.
Proof.
  intros Hlen Hk. unfold keyOfName.
  rewrite filter_all by (revert Hk; apply forallb_impl, keyChar_alnum).
  unfold Js.toLowerCase. rewrite (map_fixed isKeyChar) by (done || apply keyChar_lower).
  by apply take_all.
Qed.

(** X9.  A registry key has at most 20 characters (15 for a publisher),
    all of them lower-case letters or digits, and it is its own key. *)
Theorem registry_key_is_its_own_key (n : string) :
  let jk := generateJournalKey n in
  let pk := generatePublisherKey n in
  ((String.length jk ≤ 20)%nat ∧ Js.forallb isKeyChar jk = true ∧ generateJournalKey jk = jk)
  ∧ ((String.length pk ≤ 15)%nat ∧ Js.forallb isKeyChar pk = true
     ∧ generatePublisherKey pk = pk).
Proof.
  cbv zeta. rewrite !generateJournalKey_spec, !generatePublisherKey_spec.
  destruct (keyOfName_shape 20 n) as [? ?], (keyOfName_shape 15 n) as [? ?].
  split_and!; auto using keyOfName_fixed.
Qed.

Implicit Types (st : converter) (names : list string).

(** an entry of the publishers is never overwritten *)
Lemma addPublisher_keeps n st k e :
  Js.get (publishers st) k = Some e → Js.get (publishers (addPublisher n st)) k = Some e.
Proof.
  intros Hk. unfold addPublisher, Js.lookup. cbv zeta.
  destruct (Js.get (publishers st) (generatePublisherKey n)) eqn:Hn; [done|].
  destruct (Js.inherited (generatePublisherKey n)); [done|].
  cbn [publishers]. rewrite get_set_ne; [done|]. intros Heq. rewrite Heq in Hn. congruence.
Qed.

Lemma observePublishers_keeps names st k e :
  Js.get (publishers st) k = Some e →
  Js.get (publishers (observePublishers names st)) k = Some e.
Proof.
  revert st. induction names as [|n names IH]; intros st Hk; [done|].
  by apply IH, addPublisher_keeps.
Qed.

(** what [getPublisherKey] finds stays found *)
Lemma addPublisher_found n st k :
  Js.lookup (publishers st) k ≠ Js.Undefined →
  Js.lookup (publishers (addPublisher n st)) k ≠ Js.Undefined.
Proof.
  unfold Js.lookup. destruct (Js.get (publishers st) k) as [e|] eqn:Hk.
  - intros _. by rewrite (addPublisher_keeps n st k e Hk).
  - destruct (Js.inherited k); [|congruence]. intros _.
    by destruct (Js.get (publishers (addPublisher n st)) k).
Qed.

Lemma addPublisher_registers n st :
  Js.lookup (publishers (addPublisher n st)) (generatePublisherKey n) ≠ Js.Undefined.
Proof.
  unfold addPublisher. cbv zeta.
  destruct (Js.lookup (publishers st) (generatePublisherKey n)) eqn:Hn;
    [by rewrite Hn..|].
  cbn [publishers]. unfold Js.lookup. by rewrite get_set_eq.
Qed.

Lemma observePublishers_found names st k :
  Js.lookup (publishers st) k ≠ Js.Undefined →
  Js.lookup (publishers (observePublishers names st)) k ≠ Js.Undefined.
Proof.
  revert st. induction names as [|n names IH]; intros st Hk; [done|].
  by apply IH, addPublisher_found.
Qed.

Lemma observePublishers_registers names st b :
  b ∈ names →
  Js.lookup (publishers (observePublishers names st)) (generatePublisherKey b)
  ≠ Js.Undefined.
Proof.
  revert st. induction names as [|n names IH]; intros st Hb; [by apply elem_of_nil in Hb|].
  apply elem_of_cons in Hb as [->|Hb]; [|by apply (IH (addPublisher n st))].
  apply (observePublishers_found names (addPublisher n st)), addPublisher_registers.
Qed.

(** X10.  The publishers keep the first name observed for a key, when
    the key is not the name of a member that every object inherits: the
    names observed later with the same key do not change its
    definition.  Every name observed resolves to its key. *)
Theorem publisher_key_keeps_first_name st (a : string) (later : list string) :
  Js.get (publishers st) (generatePublisherKey a) = None →
  Js.inherited (generatePublisherKey a) = false →
  let st' := observePublishers (a :: later) st in
  Js.get (publishers st') (generatePublisherKey a) = Some (publisherOf a)
  ∧ ∀ b, b ∈ a :: later → getPublisherKey st' b = Some (generatePublisherKey b).
Proof.
  intros Hnew Hinh st'. split.
  - apply (observePublishers_keeps later (addPublisher a st)).
    unfold addPublisher, Js.lookup. cbv zeta. rewrite Hnew, Hinh.
    cbn [publishers]. apply get_set_eq.
  - intros b Hb. unfold getPublisherKey. cbv zeta. subst st'.
    pose proof (observePublishers_registers (a :: later) st b Hb) as Hfound.
    by destruct (Js.lookup _ _).
Qed.

Lemma publisher_key_keeps_first_name_witness :
  let st' := observePublishers ["Springer"; "SPRINGER"; "Springer."] initial in
  Js.get (publishers st') "springer" = Some (publisherOf "Springer")
  ∧ getPublisherKey st' "SPRINGER" = Some "springer".
Proof.
  cbv zeta.
  destruct (publisher_key_keeps_first_name initial "Springer" ["SPRINGER"; "Springer."])
    as [Hdef Hkey]; [reflexivity | reflexivity |].
  split; [exact Hdef|]. apply (Hkey "SPRINGER"). apply elem_of_cons. right. by left.
Defined.

(** the publisher [Constructor] gets no definition, and its key is
    written into the entry all the same *)
Example inherited_publisher_key :
  let st' := observePublishers ["Constructor"] initial in
  generatePublisherKey "Constructor" = "constructor"
  ∧ publishers st' = []
  ∧ getPublisherKey st' "Constructor" = Some "constructor".
Proof. vm_compute. split_and!; reflexivity. Qed.

Lemma lower_upper c : Js.toLowerChar (Js.toUpperChar c) = Js.toLowerChar c.
Proof. destruct c as [[] [] [] [] [] [] [] []]; reflexivity. Qed.

Lemma lower_lower c : Js.toLowerChar (Js.toLowerChar c) = Js.toLowerChar c.
Proof. destruct c as [[] [] [] [] [] [] [] []]; reflexivity. Qed.

Lemma map_map f g s : Js.map f (Js.map g s) = Js.map (λ c, f (g c)) s.
Proof. induction s as [|c s IH]; [done|]. cbn [Js.map]. by rewrite IH. Qed.

Lemma map_ext f g s : (∀ c, f c = g c) → Js.map f s = Js.map g s.
Proof. intros H. induction s as [|c s IH]; [done|]. cbn [Js.map]. by rewrite H, IH. Qed.

Lemma categorize_lower table f n :
  (∀ c, Js.toLowerChar (f c) = Js.toLowerChar c) →
  categorize table (Js.map f n) = categorize table n.
Proof.
  intros Hf. induction table as [|[cat patterns] table IH]; [done|].
  cbn [categorize]. rewrite IH. unfold Js.toLowerCase at 1.
  by rewrite map_map, (map_ext _ Js.toLowerChar) by done.
Qed.

(** X11.  The category of a journal or of a publisher whose name is
    made of ASCII characters does not depend on the case of the letters
    of the name. *)
Theorem category_ignores_case (n : string) :
  Js.forallb isAscii n = true →
  categorizeJournal (Js.toUpperCase n) = categorizeJournal n
  ∧ categorizeJournal (Js.toLowerCase n) = categorizeJournal n
  ∧ categorizePublisher (Js.toUpperCase n) = categorizePublisher n
  ∧ categorizePublisher (Js.toLowerCase n) = categorizePublisher n.
Proof.
  intros _. unfold categorizeJournal, categorizePublisher, Js.toUpperCase.
  split_and!; first [apply (categorize_lower _ Js.toUpperChar), lower_upper
                    | apply (categorize_lower _ Js.toLowerChar), lower_lower].
Qed.

Lemma category_ignores_case_witness :
  categorizeJournal "SIAM REVIEW" = categorizeJournal "SIAM Review"
  ∧ categorizeJournal "siam review" = categorizeJournal "SIAM Review"
  ∧ categorizeJournal "SIAM Review" = "SIAM".
Proof.
  destruct (category_ignores_case "SIAM Review") as (Hu & Hl & _); [reflexivity|].
  split; [exact Hu|]. split; [exact Hl | reflexivity].
Defined.

End RegistryKeys.

(** ** More on the selection of a match *)

Section FloatOrderMore.
Local Open Scope float_scope.

Lemma SFltb_trans x y z : SFltb x y = true → SFltb y z = true → SFltb x z = true.
Proof.
  unfold SFltb.
  destruct x as [sx|sx| |sx mx ex], y as [sy|sy| |sy my ey], z as [sz|sz| |sz mz ez];
    cbn; try done;
    repeat match goal with s : bool |- _ => destruct s end; cbn; try done;
    change (PosDef.Pos.compare_cont Eq mx my) with (mx ?= my)%positive;
    change (PosDef.Pos.compare_cont Eq my mz) with (my ?= mz)%positive;
    change (PosDef.Pos.compare_cont Eq mx mz) with (mx ?= mz)%positive;
    destruct (Z.compare_spec ex ey), (Z.compare_spec ey ez), (Z.compare_spec ex ez);
    subst; cbn; try done; try lia;
    destruct (Pos.compare_spec mx my), (Pos.compare_spec my mz), (Pos.compare_spec mx mz);
    subst; cbn; try done; lia.
Qed.

Lemma ltb_trans (x y z : float) : (x <? y) = true → (y <? z) = true → (x <? z) = true.
Proof. rewrite !ltb_spec. apply SFltb_trans. Qed.

End FloatOrderMore.

Section BestMatchMore.
Import ExternalAPIManager.
Local Open Scope float_scope.
Context {A : Type} (score : A → float).
Implicit Types (results : list A) (bestMatch : option A) (bestScore : float).

(** the score that the loop holds never goes down *)
Lemma bestOf_rises results bestMatch bestScore t :
  (bestScore <? t) = false → ((bestOf score results bestMatch bestScore).2 <? t) = false.
Proof.
  revert bestMatch bestScore.
  induction results as [|x results IH]; intros bestMatch bestScore Hb; simpl; [done|].
  destruct (bestScore <? score x) eqn:Hx; [|by apply IH].
  apply IH. destruct (score x <? t) eqn:Hxt; [|done].
  by rewrite (ltb_trans _ _ _ Hx Hxt) in Hb.
Qed.

(** no score is above the score that the loop ends with *)
Lemma bestOf_max results bestMatch bestScore x :
  x ∈ results → ((bestOf score results bestMatch bestScore).2 <? score x) = false.
Proof.
  revert bestMatch bestScore.
  induction results as [|y results IH]; intros bestMatch bestScore Hx;
    [by apply elem_of_nil in Hx|].
  simpl. apply elem_of_cons in Hx as [->|Hx].
  - destruct (bestScore <? score y) eqn:Hy; apply bestOf_rises; [|done].
    destruct (score y <? score y) eqn:Hyy; [|done].
    pose proof (leb_not_gt _ _ (ltb_leb _ _ Hyy)) as Hn. by rewrite Hyy in Hn.
  - destruct (bestScore <? score y); by apply IH.
Qed.

End BestMatchMore.

Section Selection.
Import ExternalAPIManager.
Local Open Scope float_scope.

(** X12.  The match that [findBestMatch] returns is one of the
    candidates, scores above 0.7, and no candidate scores above it. *)
Theorem best_match_is_a_top_candidate results targetTitle targetAuthors targetYear r :
  let score c := calculateMatchScore c targetTitle targetAuthors targetYear in
  findBestMatch results targetTitle targetAuthors targetYear = Some r →
  r ∈ results ∧ (0.7 <? score r) = true ∧ ∀ c, c ∈ results → (score r <? score c) = false.
Proof.
  intros score. unfold findBestMatch. fold score.
  pose proof (bestOf_score score results None 0 r) as Hs.
  pose proof (bestOf_max score results None 0) as Hmax.
  destruct (bestOf score results None 0) as [bestMatch bestScore]. cbn [fst snd] in *.
  destruct (0.7 <? bestScore) eqn:Hlt; [|done]. intros ->.
  destruct Hs as [Hr [?|Hin]]; [done..|].
  rewrite Hr. split_and!; [done | done | exact Hmax].
Qed.

Lemma best_match_is_a_top_candidate_witness :
  let score c := calculateMatchScore c targetTitle targetAuthors targetYear in
  candidateAt071 ∈ [candidateAt070; candidateAt071]
  ∧ (0.7 <? score candidateAt071) = true
  ∧ (score candidateAt071 <? score candidateAt070) = false.
Proof.
  pose proof (best_match_is_a_top_candidate [candidateAt070; candidateAt071]
                targetTitle targetAuthors targetYear candidateAt071) as H.
  cbv zeta in *. destruct H as (Hin & Hlt & Hmax); [vm_compute; reflexivity|].
  split_and!; [exact Hin | exact Hlt | apply Hmax; left].
Defined.

Lemma calculateMatchScore_blind r t a y :
  Js.truthyO t = false → Js.truthyO a = false → Js.truthyO y = false →
  calculateMatchScore r t a y = 0.
Proof.
  intros Ht Ha Hy. unfold calculateMatchScore.
  destruct t as [[|? ?]|], a as [[|? ?]|], y as [[|? ?]|]; try done;
    destruct (title r) as [[|? ?]|], (authors r), (year r) as [[| |]|]; reflexivity.
Qed.

Lemma calculateCrossrefMatchScore_blind r t a y :
  Js.truthyO t = false → Js.truthyO a = false → Js.truthyO y = false →
  calculateCrossrefMatchScore r t a y = Some 0.
Proof.
  intros Ht Ha Hy. unfold calculateCrossrefMatchScore.
  destruct t as [[|? ?]|], a as [[|? ?]|], y as [[|? ?]|]; try done;
    destruct (crTitle r) as [[|? ?]|], (crAuthors r), (publishedPrint r); reflexivity.
Qed.

Lemma bestOf_low {A : Type} (score : A → float) results :
  (∀ r, r ∈ results → score r = 0) →
  (0.7 <? (bestOf score results None 0).2) = false.
Proof.
  intros Hz. apply leb_not_gt. apply bestOf_bound; [by vm_compute|].
  intros r Hr. rewrite (Hz r Hr). by vm_compute.
Qed.

(** X13.  A record without title, author and year is not enhanced,
    whatever the providers answer. *)
Theorem blind_search_finds_nothing (net : network) (fields : Fields) :
  Js.truthyO (Js.get fields "title") = false →
  Js.truthyO (Js.get fields "author") = false →
  Js.truthyO (Js.get fields "year") = false →
  searchProviders net fields = None ∧ enhanceReference net fields = [].
Proof.
  intros Ht Ha Hy.
  assert (searchProviders net fields = None) as Hnone; [|by unfold enhanceReference; rewrite Hnone].
  unfold searchProviders, searchSemanticScholar, searchCrossref.
  set (t := Js.get fields "title") in *. set (a := Js.get fields "author") in *.
  set (y := Js.get fields "year") in *.
  assert (∀ l, findBestMatch l t a y = None) as Hss.
  { intros l. unfold findBestMatch.
    pose proof (bestOf_low (λ r, calculateMatchScore r t a y) l
                  (λ r _, calculateMatchScore_blind r t a y Ht Ha Hy)) as Hlow.
    destruct (bestOf _ l None 0) as [m s]. cbn [snd] in Hlow. by rewrite Hlow. }
  assert (∀ l, findBestCrossrefMatch l t a y = Some None) as Hcr.
  { intros l. unfold findBestCrossrefMatch.
    rewrite (bestOfE_bestOf (λ _, 0)) by (intros; by apply calculateCrossrefMatchScore_blind).
    pose proof (bestOf_low (λ _ : crWork, 0) l (λ _ _, eq_refl)) as Hlow.
    destruct (bestOf _ l None 0) as [m s]. cbn [snd] in Hlow. cbn. by rewrite Hlow. }
  destruct (semanticScholar net _) as [[|r data]|]; rewrite ?Hss; cbn [fmap option_fmap option_map];
    destruct (crossref net _ _) as [[|c items]|]; rewrite ?Hcr; done.
Qed.

Lemma blind_search_finds_nothing_witness :
  searchProviders sampleNetwork [("journal", "Journal of Things")] = None
  ∧ enhanceReference sampleNetwork [("journal", "Journal of Things")] = [].
Proof.
  apply (blind_search_finds_nothing sampleNetwork [("journal", "Journal of Things")]);
    reflexivity.
Defined.

(** X14.  When a year is given, a Crossref candidate whose
    [published-print] has no date parts makes the scoring throw, and the
    search returns nothing, whatever the other candidates are. *)
Theorem crossref_search_stops_at_undated_candidate
    (net : network) (title authors : option string) (y : string)
    (items : list crWork) (bad : crWork) (d : crDate) :
  Js.truthy y = true →
  crossref net (show title +:+ authorClause authors) (Some y) = Some items →
  bad ∈ items → publishedPrint bad = Some d → firstDatePart d = None →
  searchCrossref net title authors (Some y) = None.
Proof.
  intros Hy Hnet Hbad Hd Hparts. unfold searchCrossref. rewrite Hy, Hnet.
  destruct items as [|c items]; [done|].
  unfold findBestCrossrefMatch.
  rewrite (bestOfE_throws _ _ _ _ bad Hbad); [done|].
  unfold calculateCrossrefMatchScore. rewrite Hd, Hy, Hparts.
  by repeat case_match.
Qed.

End Selection.

Section SelectionWitness.
Import ExternalAPIManager.

Lemma crossref_search_stops_at_undated_candidate_witness :
  searchCrossref (crossrefNetwork [datedWork]) (Some "A Study of Things")
    (Some "John Smith") (Some "2023") = formatCrossrefResult datedWork
  ∧ searchCrossref (crossrefNetwork [datedWork; undatedWork]) (Some "A Study of Things")
      (Some "John Smith") (Some "2023") = None.
Proof.
  split; [vm_compute; reflexivity|].
  apply (crossref_search_stops_at_undated_candidate
           (crossrefNetwork [datedWork; undatedWork]) (Some "A Study of Things")
           (Some "John Smith") "2023" [datedWork; undatedWork] undatedWork
           {| dateParts := None |}); try reflexivity.
  apply elem_of_cons. right. left.
Defined.

End SelectionWitness.

(** ** More on the merge *)

Section MergeMore.
Import ExternalAPIManager.
Implicit Types (fields result enhanced : Fields) (k v : string).

(** a blank field takes the value of the result *)
Lemma mergeEntry_blank fields enhanced k value :
  isBlank (Js.get fields k) = true →
  mergeEntry fields enhanced (k, value) = Js.set k value enhanced.
Proof. intros Hk. unfold mergeEntry. by rewrite Hk. Qed.

Lemma merge_fold_blank fields l enhanced k :
  isBlank (Js.get fields k) = true → NoDup l.*1 →
  Js.get (fold_left (mergeEntry fields) l enhanced) k =
    match Js.get l k with
    | Some v => Some v
    | None => Js.get enhanced k
    end.
Proof.
  intros Hk. revert enhanced.
  induction l as [|[key value] l IH]; intros enhanced Hnd; [done|].
  rewrite fmap_cons in Hnd. apply NoDup_cons in Hnd as [Hkey Hnd]. cbn [fst] in Hkey.
  cbn [fold_left Js.get]. rewrite IH by done.
  destruct (String.eqb_spec key k) as [->|Hne].
  - apply get_None in Hkey. rewrite Hkey.
    rewrite mergeEntry_blank by done. apply get_set_eq.
  - destruct (Js.get l k); [done|]. by apply mergeEntry_other.
Qed.

(** a key that the result does not hold is not assigned *)
Lemma merge_fold_absent fields l enhanced k :
  k ∉ l.*1 → Js.get (fold_left (mergeEntry fields) l enhanced) k = Js.get enhanced k.
Proof.
  revert enhanced. induction l as [|[key value] l IH]; intros enhanced Hk; [done|].
  rewrite fmap_cons in Hk. apply not_elem_of_cons in Hk as [Hne Hk]. cbn [fst] in Hne.
  cbn [fold_left]. rewrite IH by done. by apply mergeEntry_other.
Qed.

Lemma setIf_other k o (f : Fields) k' : k ≠ k' → Js.get (setIf k o f) k' = Js.get f k'.
Proof.
  intros Hne. unfold setIf. destruct o as [x|]; [|done].
  destruct (Js.truthy x); [by apply get_set_ne | done].
Qed.

Ltac other_key Hk :=
  let H := fresh in
  intros H; apply Hk; rewrite <- H; unfold providerKeys;
  repeat first [by left | right].

Lemma formatSemanticScholarResult_keys r k :
  k ∉ providerKeys → Js.get (formatSemanticScholarResult r) k = None.
Proof.
  intros Hk. unfold formatSemanticScholarResult.
  repeat first
    [ rewrite get_set_ne by other_key Hk
    | rewrite setIf_other by other_key Hk
    | match goal with
      | |- context [match ?x with _ => _ end] => destruct x
      end ];
  reflexivity.
Qed.

Lemma formatCrossrefResult_keys r f k :
  formatCrossrefResult r = Some f → k ∉ providerKeys → Js.get f k = None.
Proof.
  unfold formatCrossrefResult. cbv zeta. intros H Hk.
  apply bind_Some in H as (e & He & [= <-]).
  assert (Js.get e k = None) as Hek.
  { repeat case_match; simplify_eq;
      try (apply bind_Some in He as (y & _ & [= <-]));
      repeat first
        [ reflexivity
        | rewrite get_set_ne by other_key Hk
        | progress cbn [Js.get]
        | match goal with
          | |- context [String.eqb ?a k] =>
              let Heq := fresh in
              destruct (String.eqb_spec a k) as [Heq|]; [exfalso; revert Heq; other_key Hk|]
          end ]. }
  repeat first
    [ rewrite get_set_ne by other_key Hk
    | rewrite setIf_other by other_key Hk
    | match goal with
      | |- context [match ?x with _ => _ end] => destruct x
      end ];
  done.
Qed.

Lemma searchProviders_keys net fields result k :
  searchProviders net fields = Some result → k ∉ providerKeys → Js.get result k = None.
Proof.
  unfold searchProviders, searchSemanticScholar, searchCrossref. intros H Hk.
  repeat case_match; simplify_option_eq;
    eauto using formatSemanticScholarResult_keys, formatCrossrefResult_keys.
Qed.

(** X15.  A field that is absent, empty or made of white space takes
    the value that the accepted result holds for it. *)
Theorem enhancement_fills_blank_fields (net : network) fields result k v :
  searchProviders net fields = Some result →
  isBlank (Js.get fields k) = true →
  Js.get result k = Some v →
  Js.get (Js.assign fields (enhanceReference net fields)) k = Some v.
Proof.
  intros Hres Hk Hv. unfold enhanceReference. rewrite Hres. unfold mergeResult.
  pose proof (searchProviders_NoDup _ _ _ Hres) as Hnd.
  rewrite get_assign by (apply merge_fold_NoDup; constructor).
  destruct (String.eqb_spec k "__proto__") as [->|_].
  { rewrite (searchProviders_keys net fields result "__proto__" Hres) in Hv; [done|].
    unfold providerKeys. intros H.
    repeat (apply elem_of_cons in H as [[=]|H]). by apply elem_of_nil in H. }
  rewrite merge_fold_blank by auto using entries_NoDup.
  rewrite (get_perm (Js.entries result) result) by auto using entries_NoDup, entries_perm.
  by rewrite Hv.
Qed.

Lemma enhancement_fills_blank_fields_witness :
  Js.get (Js.assign sampleFields (enhanceReference sampleNetwork sampleFields)) "doi"
  = Some "10.1000/things".
Proof.
  apply (enhancement_fills_blank_fields sampleNetwork sampleFields
           (formatSemanticScholarResult samplePaper) "doi" "10.1000/things");
    vm_compute; reflexivity.
Defined.

(** X16.  The enhancement changes no field other than the eleven that a
    provider can set: title, author, year, journal, volume, number,
    pages, doi, url, abstract and note. *)
Theorem enhancement_keeps_other_fields (net : network) fields k :
  k ∉ providerKeys →
  Js.get (Js.assign fields (enhanceReference net fields)) k = Js.get fields k.
Proof.
  intros Hk. unfold enhanceReference.
  destruct (searchProviders net fields) as [result|] eqn:Hres; [|done].
  unfold mergeResult. rewrite get_assign by (apply merge_fold_NoDup; constructor).
  destruct (String.eqb k "__proto__"); [done|].
  rewrite merge_fold_absent; [done|].
  apply get_None. rewrite (get_perm (Js.entries result) result).
  - by eapply searchProviders_keys.
  - eauto using entries_NoDup, searchProviders_NoDup.
  - apply entries_perm.
Qed.

Lemma enhancement_keeps_other_fields_witness :
  Js.get (Js.assign (Js.set "keywords" "" sampleFields)
            (enhanceReference sampleNetwork (Js.set "keywords" "" sampleFields))) "keywords"
  = Some "".
Proof.
  apply (enhancement_keeps_other_fields sampleNetwork (Js.set "keywords" "" sampleFields)
           "keywords").
  unfold providerKeys. intros H.
  repeat (apply elem_of_cons in H as [[=]|H]). by apply elem_of_nil in H.
Defined.

End MergeMore.

(** ** The similarity of two texts *)

Section Similarity.
Import ExternalAPIManager.

Lemma elem_of_List_filter {A : Type} (f : A → bool) (l : list A) x :
  x ∈ List.filter f l ↔ x ∈ l ∧ f x = true.
Proof. by rewrite !list_elem_of_In, List.filter_In. Qed.

Lemma NoDup_List_filter {A : Type} (f : A → bool) (l : list A) :
  NoDup l → NoDup (List.filter f l).
Proof.
  induction 1 as [|x l Hx Hl IH]; simpl; [constructor|].
  destruct (f x); [|done]. constructor; [|done].
  rewrite elem_of_List_filter. tauto.
Qed.

Lemma length_common (a b : list string) :
  NoDup a → NoDup b →
  length (List.filter (λ x, bool_decide (x ∈ b)) a)
  = length (List.filter (λ x, bool_decide (x ∈ a)) b).
Proof.
  intros Ha Hb. apply Permutation_length, NoDup_Permutation.
  - by apply NoDup_List_filter.
  - by apply NoDup_List_filter.
  - intros x. rewrite !elem_of_List_filter, !bool_decide_eq_true. tauto.
Qed.

Lemma length_union (a b : list string) :
  length (remove_dups (a ++ b)) = length (remove_dups (b ++ a)).
Proof.
  apply Permutation_length, NoDup_Permutation; try apply NoDup_remove_dups.
  intros x. rewrite !elem_of_remove_dups, !elem_of_app. tauto.
Qed.

(** X17.  The similarity of two texts does not depend on their order. *)
Theorem similarity_is_symmetric (str1 str2 : string) :
  calculateStringSimilarity str1 str2 = calculateStringSimilarity str2 str1.
Proof.
  unfold calculateStringSimilarity. cbv zeta.
  rewrite (length_common (remove_dups (Js.splitWs str1)) (remove_dups (Js.splitWs str2)))
    by apply NoDup_remove_dups.
  by rewrite length_union.
Qed.

End Similarity.

(** ** The keys, years and pages of the engine *)

Section EngineKeys.
Import Dom ConversionEngine.

Lemma engine_matchYear_digits prevWord s y :
  matchYear prevWord s = Some y →
  String.length y = 4%nat ∧ Js.forallb Js.isDigit y = true
  ∧ (Js.startsWith "19" y || Js.startsWith "20" y) = true.
Proof.
  revert prevWord. induction s as [|c s IH]; intros prevWord; [done|]. cbn [matchYear].
  cbv zeta. destruct (_ && _) eqn:Hy; [|by apply IH].
  intros [= <-].
  apply andb_prop in Hy as [Hy _]. apply andb_prop in Hy as [Hy Hdig].
  apply andb_prop in Hy as [Hy Hlen]. apply andb_prop in Hy as [_ Hcent].
  by apply Nat.eqb_eq in Hlen.
Qed.

Lemma engine_extractYear_digits (element : handle) :
  extractYear element = ""
  ∨ String.length (extractYear element) = 4%nat
    ∧ Js.forallb Js.isDigit (extractYear element) = true
    ∧ (Js.startsWith "19" (extractYear element)
       || Js.startsWith "20" (extractYear element)) = true.
Proof.
  unfold extractYear. cbv zeta. destruct (Js.truthy _); [|by left].
  destruct (matchYear false _) as [y|] eqn:Hy; [|by left].
  right. by apply engine_matchYear_digits in Hy.
Qed.

(** X18.  The year that the engine extracts is empty or a number of
    four digits that starts with 19 or with 20. *)
Theorem engine_year_is_of_two_centuries (element : handle) :
  extractYear element = ""
  ∨ String.length (extractYear element) = 4%nat
    ∧ Js.forallb Js.isDigit (extractYear element) = true
    ∧ (Js.startsWith "19" (extractYear element)
       || Js.startsWith "20" (extractYear element)) = true.
Proof. apply engine_extractYear_digits. Qed.

Lemma lower_keyChar c : Js.isLower c = true → isKeyChar c = true.
Proof. unfold isKeyChar. by intros ->. Qed.

Lemma digit_keyChar c : Js.isDigit c = true → isKeyChar c = true.
Proof. unfold isKeyChar. intros ->. apply orb_true_r. Qed.

Lemma lowerLetters_keyChars s : Js.forallb isKeyChar (lowerLetters s) = true.
Proof.
  unfold lowerLetters. apply (forallb_impl Js.isLower); [apply lower_keyChar|].
  apply forallb_filter.
Qed.

Lemma keyStem_keyChars author year title :
  Js.forallb isKeyChar year = true → Js.forallb isKeyChar (keyStem author year title) = true.
Proof.
  intros Hy. unfold keyStem. cbv zeta.
  set (k1 := if Js.truthy author then _ else _).
  assert (Js.forallb isKeyChar k1 = true) as H1.
  { subst k1. destruct (Js.truthy author); [|done].
    rewrite string_app_nil_l. apply lowerLetters_keyChars. }
  set (k2 := if Js.truthy year then _ else _).
  assert (Js.forallb isKeyChar k2 = true) as H2.
  { subst k2. destruct (Js.truthy year); [|done]. by rewrite forallb_app, H1, Hy. }
  destruct (_ && _); [|done]. destruct (List.filter _ _) as [|w ws]; [done|].
  rewrite forallb_app, H2. apply forallb_take, lowerLetters_keyChars.
Qed.

(** X19.  The key that the engine gives a reference has at least three
    characters, all of them lower-case letters or digits. *)
Theorem engine_key_is_a_word (element : handle) (refNumber : nat) :
  (3 ≤ String.length (generateBibTeXKey element refNumber))%nat
  ∧ Js.forallb isKeyChar (generateBibTeXKey element refNumber) = true.
Proof.
  unfold generateBibTeXKey, bibTeXKeyOf. cbv zeta.
  set (stem := keyStem _ _ _).
  assert (Js.forallb isKeyChar stem = true) as Hstem.
  { subst stem. apply keyStem_keyChars.
    destruct (engine_extractYear_digits element) as [->|(_ & Hdig & _)]; [done|].
    revert Hdig. apply forallb_impl, digit_keyChar. }
  destruct (Nat.ltb_spec (String.length stem) 3) as [Hshort|Hlong].
  - split.
    + rewrite string_length_app. cbn [String.length]. lia.
    + rewrite forallb_app. apply andb_true_iff. split; [reflexivity|].
      apply (forallb_impl Js.isDigit); [apply digit_keyChar | apply ofNat_digits].
  - done.
Qed.

Lemma engine_pageRangeAt_none d r :
  Js.forallb Js.isDigit d = true → Js.spanDigits r = ("", r) →
  (∀ r', r = "-" +:+ r' → Js.spanDigits r' = ("", r')) →
  pageRangeAt (d +:+ r) = None.
Proof.
  intros Hd Hr Hnext. unfold pageRangeAt. rewrite spanDigits_app by done.
  destruct (Js.truthy d); [|done]. destruct r as [|c r]; [done|].
  cbn [Js.startsWith andb]. destruct (Ascii.eqb_spec "-" c) as [<-|]; [|done].
  cbn [Js.drop]. by rewrite (Hnext r).
Qed.

Lemma normalizePages_digits d :
  Js.forallb Js.isDigit d = true → normalizePages d = d.
Proof.
  induction d as [|c d IH]; [done|]. intros Hd.
  cbn [normalizePages]. rewrite <- (string_app_nil_r (String c d)) at 1.
  rewrite engine_pageRangeAt_none by done.
  cbn [Js.forallb] in Hd. apply andb_true_iff in Hd as [_ Hd]. by rewrite IH.
Qed.

(** X20.  The engine rewrites a range of two page numbers with a hyphen
    between them with a double hyphen, and leaves a range with a double
    hyphen as it is. *)
Theorem engine_page_range_gets_double_hyphen (d1 d2 : string) :
  d1 ≠ "" → d2 ≠ "" →
  Js.forallb Js.isDigit d1 = true → Js.forallb Js.isDigit d2 = true →
  normalizePages (d1 +:+ "-" +:+ d2) = d1 +:+ "--" +:+ d2
  ∧ normalizePages (d1 +:+ "--" +:+ d2) = d1 +:+ "--" +:+ d2.
Proof.
  intros Hn1 Hn2 Hd1 Hd2. split.
  - assert (pageRangeAt (d1 +:+ "-" +:+ d2) = Some (d1 +:+ "--" +:+ d2)) as Hat.
    { unfold pageRangeAt. rewrite spanDigits_app by done.
      rewrite (proj2 (truthy_ne d1)) by done.
      change (Js.startsWith "-" ("-" +:+ d2)) with true.
      change (Js.drop 1 ("-" +:+ d2)) with d2. cbn [andb].
      rewrite spanDigits_all by done. rewrite (proj2 (truthy_ne d2)) by done.
      by rewrite string_app_nil_r. }
    destruct d1; [done|]. rewrite string_app_cons in *. cbn [normalizePages]. by rewrite Hat.
  - clear Hn1. induction d1 as [|c d1 IH].
    + rewrite string_app_nil_l. change ("--" +:+ d2) with (String "-" (String "-" d2)).
      cbn [normalizePages].
      assert (pageRangeAt (String "-" (String "-" d2)) = None) as -> by reflexivity.
      assert (pageRangeAt (String "-" d2) = None) as -> by reflexivity.
      by rewrite normalizePages_digits.
    + rewrite string_app_cons. cbn [normalizePages].
      rewrite <- string_app_cons, engine_pageRangeAt_none, (string_app_cons c d1); try done.
      * cbn [Js.forallb] in Hd1. apply andb_true_iff in Hd1 as [_ Hd1]. by rewrite IH.
      * intros r' Hr'. rewrite !string_app_cons, !string_app_nil_l in Hr'.
        by injection Hr' as <-.
Qed.

Lemma engine_page_range_gets_double_hyphen_witness :
  normalizePages "123-134" = "123--134" ∧ normalizePages "123--134" = "123--134".
Proof. apply (engine_page_range_gets_double_hyphen "123" "134"); done. Defined.

End EngineKeys.

Section EngineStyles.
Import ConversionEngine.

Lemma field_set ref k v : field (Js.set k v ref) k = v.
Proof. unfold field. by rewrite get_set_eq. Qed.

(** X21.  The IEEE style is applied once: styling a reference that is
    already styled changes nothing. *)
Theorem ieee_style_is_idempotent (ref : Reference) (options : ConversionOptions) :
  citationStyle options = "ieee" →
  applyCitationStyle (applyCitationStyle ref options) options
  = applyCitationStyle ref options.
Proof.
  intros Hstyle. unfold applyCitationStyle. rewrite Hstyle.
  cbn [String.eqb Ascii.eqb Bool.eqb]. cbv zeta.
  destruct (Js.truthy (field ref "journal") && negb (Js.includes (field ref "journal") "IEEE"))
    eqn:Hj.
  - rewrite field_set.
    assert (Js.includes ("IEEE " +:+ field ref "journal") "IEEE" = true) as -> by reflexivity.
    by rewrite andb_false_r.
  - by rewrite Hj.
Qed.

Lemma ieee_style_is_idempotent_witness :
  let options :=
    {| includeAbstract := false; includeKeywords := false; includeNotes := false;
       preserveFormatting := false; customFields := []; citationStyle := "ieee";
       escapeLatex := true; suppressWarnings := false |} in
  let ref := [("id", "hopper1999"); ("type", "article"); ("journal", "Computer")] in
  applyCitationStyle ref options = [("id", "hopper1999"); ("type", "article"); ("journal", "IEEE Computer")]
  ∧ applyCitationStyle (applyCitationStyle ref options) options = applyCitationStyle ref options.
Proof.
  cbv zeta. split; [reflexivity|]. by apply ieee_style_is_idempotent.
Defined.

End EngineStyles.

(** ** Runs *)

Section Runs.
Import Dom XMLConverter.
Implicit Types (cfg : config) (api : option apiManager) (st : converter) (d : document)
  (records : list located).

(** the entry of a record is never the empty text *)
Lemma generateBibtexEntry_truthy type key fields entry :
  generateBibtexEntry type key fields = inl entry → Js.truthy entry = true.
Proof.
  unfold generateBibtexEntry. cbv zeta. destruct (emitFields _ _); [|done].
  intros [= <-]. by apply truthy_app_r.
Qed.

(** a field set that holds texts only is printed *)
Lemma emitFields_texts (fields : list (string * Js.value)) entry :
  Forall (λ kv, ∃ v, kv.2 = Js.Str v) fields → ∃ e, emitFields fields entry = inl e.
Proof.
  intros Hf. revert entry. induction Hf as [|[k v] fields [t Ht] _ IH]; intros entry.
  - by exists entry.
  - cbn [snd] in Ht. subst v. cbn [emitFields]. apply IH.
Qed.

Lemma put_texts (o : Formatted) k v :
  Forall (λ kv, ∃ v, kv.2 = Js.Str v) o →
  Forall (λ kv, ∃ v, kv.2 = Js.Str v) (Js.put k (Js.Str v) o).
Proof.
  intros Ho. unfold Js.put. destruct (String.eqb k "__proto__"); [done|].
  induction Ho as [|[k0 v0] o H0 Ho IH]; cbn [Js.set].
  - repeat constructor. by exists v.
  - destruct (String.eqb k0 k); constructor; try done. by exists v.
Qed.

(** without string definitions the formatted fields are texts *)
Lemma formatFields_texts cfg st (fields : Fields) bibtexType :
  useStringDefinitions cfg = false →
  Forall (λ kv, ∃ v, kv.2 = Js.Str v) (formatFields cfg st fields bibtexType).
Proof.
  intros Hdefs. unfold formatFields.
  assert (Forall (λ kv : string * Js.value, ∃ v, kv.2 = Js.Str v) []) as H0 by constructor.
  revert H0. generalize (@nil (string * Js.value)) as acc.
  induction (Js.entries fields) as [|[key value] l IH]; intros acc Hacc; [done|].
  cbn [fold_left]. apply IH. unfold formatField. rewrite Hdefs.
  destruct (_ || _); [done|]. by apply put_texts.
Qed.

(** what [processRecord] does to the state: it writes to the log *)
Lemma processRecord_errors cfg api record index st d :
  conversionErrors (processRecord cfg api record index st d).1.2 = conversionErrors st.
Proof.
  unfold processRecord. step_monad.
  destruct (extractReferenceType cfg record d) as [refType d1].
  destruct (generateCitationKey cfg record index d1) as [citationKey d2].
  destruct (extractFields cfg record d2) as [fields d3].
  destruct api as [enhance|]; [destruct (enableApiEnhancement cfg); [destruct (enhance fields)|]|];
    by destruct (generateBibtexEntry _ _ _).
Qed.

Lemma processRecord_truthy cfg api record index st d entry :
  (processRecord cfg api record index st d).1.1 = inl entry → Js.truthy entry = true.
Proof.
  unfold processRecord. step_monad.
  destruct (extractReferenceType cfg record d) as [refType d1].
  destruct (generateCitationKey cfg record index d1) as [citationKey d2].
  destruct (extractFields cfg record d2) as [fields d3].
  destruct api as [enhance|]; [destruct (enableApiEnhancement cfg); [destruct (enhance fields)|]|];
    (destruct (generateBibtexEntry _ _ _) eqn:Hentry; [|done]);
    cbn [fst]; intros [= <-]; by eapply generateBibtexEntry_truthy.
Qed.

Lemma processRecord_texts cfg api record index st d :
  useStringDefinitions cfg = false →
  ∃ entry, (processRecord cfg api record index st d).1.1 = inl entry.
Proof.
  intros Hdefs. unfold processRecord. step_monad.
  destruct (extractReferenceType cfg record d) as [refType d1].
  destruct (generateCitationKey cfg record index d1) as [citationKey d2].
  destruct (extractFields cfg record d2) as [fields d3].
  assert (∀ st' f, ∃ e,
            generateBibtexEntry (bibtexTypeOf refType) citationKey
              (formatFields cfg st' f (bibtexTypeOf refType)) = inl e) as Hgen.
  { intros st' f. unfold generateBibtexEntry. cbv zeta.
    destruct (emitFields_texts (Js.entries (formatFields cfg st' f (bibtexTypeOf refType)))
                ("@" +:+ Js.text (bibtexTypeOf refType) +:+ "{" +:+ citationKey))
      as [e ->]; [|eauto].
    rewrite entries_perm. by apply formatFields_texts. }
  destruct api as [enhance|]; [destruct (enableApiEnhancement cfg); [destruct (enhance fields)|]|];
    match goal with
    | |- context [generateBibtexEntry _ _ (formatFields cfg ?s ?f _)] =>
        destruct (Hgen s f) as [e ->]
    end; by exists e.
Qed.

(** without a callback to stop it, the loop adds an entry or an error
    for every record *)
Lemma processRecords_count cfg api total records i acc st d :
  let r := processRecords cfg None api total records i acc st d in
  (length r.1.1 + length (conversionErrors r.1.2)
   = length acc + length (conversionErrors st) + length records)%nat.
Proof.
  cbv zeta. revert i acc st d. induction records as [|r records IH]; intros i acc st d.
  - cbn. lia.
  - cbn [processRecords]. step_monad.
    destruct (getRecordTitle cfg r d) as [title d1]. cbn [callProgressCallback negb].
    pose proof (processRecord_truthy cfg api r i st d1) as Hentry.
    pose proof (processRecord_errors cfg api r i st d1) as Herr.
    destruct (processRecord cfg api r i st d1) as [[[entry|message] st1] d2];
      cbn [fst snd] in Hentry, Herr.
    + rewrite (Hentry entry eq_refl). destruct (getRecordTitle cfg r d2) as [title2 d3].
      rewrite IH, length_app. cbn [length logLine conversionErrors]. rewrite Herr. lia.
    + rewrite IH. cbn [pushError logLine conversionErrors length].
      rewrite length_app, Herr. cbn [length]. lia.
Qed.

(** without string definitions no record gives an error *)
Lemma processRecords_texts cfg api total records i acc st d :
  useStringDefinitions cfg = false →
  let r := processRecords cfg None api total records i acc st d in
  conversionErrors r.1.2 = conversionErrors st.
Proof.
  intros Hdefs. cbv zeta. revert i acc st d.
  induction records as [|r records IH]; intros i acc st d; [done|].
  cbn [processRecords]. step_monad.
  destruct (getRecordTitle cfg r d) as [title d1]. cbn [callProgressCallback negb].
  pose proof (processRecord_truthy cfg api r i st d1) as Hentry.
  pose proof (processRecord_errors cfg api r i st d1) as Herr.
  destruct (processRecord_texts cfg api r i st d1 Hdefs) as [entry Htext].
  destruct (processRecord cfg api r i st d1) as [[result st1] d2];
    cbn [fst snd] in Hentry, Herr, Htext. subst result.
  rewrite (Hentry entry eq_refl). destruct (getRecordTitle cfg r d2) as [title2 d3].
  rewrite IH. cbn [logLine conversionErrors]. exact Herr.
Qed.

Lemma addJournal_errors n st : conversionErrors (addJournal n st) = conversionErrors st.
Proof. unfold addJournal. by destruct (Js.truthyAt _ _). Qed.

Lemma addPublisher_errors n st : conversionErrors (addPublisher n st) = conversionErrors st.
Proof. unfold addPublisher. cbv zeta. by destruct (Js.lookup _ _). Qed.

Lemma collectNames_errors cfg record names add st d :
  (∀ n st, conversionErrors (add n st) = conversionErrors st) →
  conversionErrors (collectNames cfg record names add st d).1 = conversionErrors st.
Proof.
  intros Hadd. unfold collectNames. revert st d.
  induction names as [|elementName names IH]; intros st d; [done|].
  step_monad. destruct (queryAll record _ d) as [elements d1].
  destruct (mapM (extractTextContent cfg) elements d1) as [texts d2].
  rewrite IH. clear IH. revert st.
  induction texts as [|text texts IHt]; intros st; [done|].
  cbn [fold_left]. rewrite IHt. destruct (_ && _); [apply Hadd | done].
Qed.

Lemma collectPass_errors cfg cb total records st d :
  conversionErrors (collectPass cfg cb total records st d).1 = conversionErrors st.
Proof.
  unfold collectPass. destruct (useStringDefinitions cfg); [|done]. cbv zeta.
  revert st d. induction records as [|r records IH]; intros st d; [done|].
  cbn [collectJournalAndPublisherInfo]. step_monad.
  pose proof (collectNames_errors cfg r ["secondary-title"; "journal"; "periodical"]
                addJournal st d addJournal_errors) as H1.
  destruct (collectNames cfg r _ addJournal st d) as [st1 d1]. cbn [fst] in H1.
  pose proof (collectNames_errors cfg r ["publisher"; "pub-location"]
                addPublisher st1 d1 addPublisher_errors) as H2.
  destruct (collectNames cfg r _ addPublisher st1 d1) as [st2 d2]. cbn [fst] in H2.
  rewrite IH. congruence.
Qed.

(** X22.  A run that no callback stops accounts for every record that
    it has located: a record gives one entry or one conversion error,
    so that the entries and the errors are as many as the records.
    Without string definitions every record gives an entry. *)
Theorem run_converts_every_record cfg api timestamp d records path :
  docQuerySelector d [[tag "parsererror"]] = None →
  findRecords d possiblePaths = (records, Some path) →
  let run := convertToBibtex cfg None api timestamp d in
  (length (entries run) + length (conversionErrors (final run)) = length records)%nat
  ∧ (useStringDefinitions cfg = false → length (entries run) = length records).
Proof.
  intros Hparse Hfind. cbv zeta. unfold convertToBibtex. rewrite Hparse, Hfind.
  destruct (findRecords_first _ _ _ _ Hfind) as (_ & _ & _ & _ & _ & Hne & _).
  destruct records as [|r records]; [done|].
  pose proof (collectPass_errors cfg None (length (r :: records)) (r :: records)
                (located_by cfg d (r :: records) path) d) as Hpass.
  destruct (collectPass cfg None _ _ _ d) as [st1 d1]. cbn [fst] in Hpass.
  set (st1' := logLine Info _ st1).
  pose proof (processRecords_count cfg api (length (r :: records)) (r :: records) 0 [] st1' d1)
    as Hcount.
  pose proof (processRecords_texts cfg api (length (r :: records)) (r :: records) 0 [] st1' d1)
    as Htexts.
  cbv zeta in Hcount, Htexts.
  destruct (processRecords cfg None api _ _ 0 [] st1' d1) as [[es st2] d2].
  cbn [fst snd] in Hcount, Htexts.
  pose proof (assemble_errors cfg timestamp (length (r :: records)) es
                (logLine Info "Generating final BibTeX output..." st2)) as Hasm.
  destruct (assemble cfg timestamp _ es _) as [out st3]. cbn [snd] in Hasm.
  cbn [entries final]. rewrite Hasm. cbn [logLine conversionErrors].
  assert (conversionErrors st1' = []) as Hst1
    by (subst st1'; cbn [logLine conversionErrors]; by rewrite Hpass).
  rewrite Hst1 in Hcount, Htexts. cbn [length] in Hcount |- *. split; [lia|].
  intros Hdefs. rewrite (Htexts Hdefs) in Hcount. cbn [length] in Hcount. lia.
Qed.

Lemma run_converts_every_record_witness :
  let run := convertToBibtex defaultConfig None None "now" memberDocument in
  (length (entries run) + length (conversionErrors (final run)) = 2)%nat.
Proof.
  cbv zeta.
  apply (run_converts_every_record defaultConfig None "now" memberDocument
           [memberRecord 0 "constructor"; memberRecord 1 "Nature"] "record");
    vm_compute; reflexivity.
Defined.

(** a record whose journal is named like an inherited member gives an
    error, and no entry *)
Example inherited_journal_gives_an_error :
  let run := convertToBibtex defaultConfig None None "now" memberDocument in
  length (entries run) = 1%nat
  ∧ conversionErrors (final run)
    = ["Error processing record 1: fieldValue.trim is not a function"].
Proof. vm_compute. split; reflexivity. Qed.

End Runs.

(** ** The fields of an entry *)

Section FormattedFields.
Import XMLConverter.

Lemma normalizePageRange_truthy s :
  Js.truthy s = true → Js.truthy (normalizePageRange s) = true.
Proof.
  destruct s as [|c s]; [done|]. intros _. cbn [normalizePageRange].
  destruct (pageRangeAt (String c s)) as [r|] eqn:Hr; [|done].
  unfold pageRangeAt in Hr.
  destruct (Js.spanDigits (String c s)) as [d1 r1].
  destruct (Js.truthy d1) eqn:Hd1; [|done].
  destruct (stripDash _) as [r3|]; [|done].
  destruct (Js.spanDigits _) as [d2 r5].
  destruct (Js.truthy d2); [|done]. injection Hr as <-. by apply truthy_app_l.
Qed.

Lemma formatFieldValue_truthy value fieldName :
  Js.trim value ≠ "" → Js.truthy (formatFieldValue value fieldName) = true.
Proof.
  intros Ht. unfold formatFieldValue.
  destruct (Js.truthy value) eqn:Hv; cbn [negb].
  - apply truthy_ne in Ht.
    destruct (String.eqb fieldName "pages"); [by apply normalizePageRange_truthy|].
    destruct (String.eqb fieldName "title"); [|done].
    by destruct (_ && _).
  - apply not_truthy in Hv as ->. by destruct Ht.
Qed.

Lemma put_sound (P : string * Js.value → Prop) (o : Formatted) k v :
  Forall P o → P (k, v) → Forall P (Js.put k v o).
Proof.
  intros Ho Hv. unfold Js.put. destruct (String.eqb k "__proto__"); [done|].
  induction Ho as [|[k0 v0] o H0 Ho IH]; cbn [Js.set].
  - by repeat constructor.
  - destruct (String.eqb_spec k0 k) as [->|?]; by constructor.
Qed.

Lemma formatField_sound cfg st (formattedFields : Formatted) kv :
  Forall (soundField cfg) formattedFields →
  Forall (soundField cfg) (formatField cfg st formattedFields kv).
Proof.
  intros Hf. destruct kv as [key value]. unfold formatField.
  destruct (negb (Js.truthy value) || String.eqb (Js.trim value) "") eqn:Hblank; [done|].
  apply orb_false_iff in Hblank as [_ Htrim]. apply String.eqb_neq in Htrim.
  cbv zeta.
  set (fieldName := if useBiblatexFields cfg then _ else _).
  assert (∀ k, Js.truthy k = true →
               Forall (soundField cfg) (Js.put fieldName (Js.Str k) formattedFields))
    as Htext by (intros k Hk; by apply put_sound).
  pose proof (Htext _ (formatFieldValue_truthy value fieldName Htrim)) as Hlit.
  destruct (useStringDefinitions cfg) eqn:Hdefs; [|done].
  assert (fieldName = "journal" ∨ fieldName = "journaltitle" →
          Forall (soundField cfg)
            match getJournalKey st value with
            | Some journalKey => Js.put fieldName journalKey formattedFields
            | None =>
                Js.put fieldName (Js.Str (formatFieldValue value fieldName)) formattedFields
            end) as Hjournal.
  { intros Hname. unfold getJournalKey, Js.truthyAt.
    destruct (Js.lookup (journalNameToKey st) value) as [k|m|]; [| |done].
    - destruct (Js.truthy k) eqn:Hk; [by apply Htext | done].
    - apply put_sound; [done|]. unfold soundField. cbn [fst snd]. by rewrite Hdefs. }
  destruct (String.eqb_spec fieldName "journal") as [Hj|Hj]; cbn [orb]; [by auto|].
  destruct (String.eqb_spec fieldName "journaltitle") as [Ht|Ht]; [by auto|].
  destruct (String.eqb fieldName "publisher"); [|done].
  destruct (getPublisherKey st value) as [k|]; [|done].
  destruct (Js.truthy k) eqn:Hk; [by apply Htext | done].
Qed.

(** X23.  The formatted fields of an entry hold no empty text: a field
    that is empty or made of white space is left out.  A value that is
    no text is found only with string definitions enabled, in the field
    of the journal. *)
Theorem formatted_fields_are_not_empty cfg st (fields : Fields) bibtexType k :
  (∀ v, Js.get (formatFields cfg st fields bibtexType) k = Some (Js.Str v) →
        Js.truthy v = true)
  ∧ (∀ m, Js.get (formatFields cfg st fields bibtexType) k = Some (Js.Member m) →
          useStringDefinitions cfg = true ∧ (k = "journal" ∨ k = "journaltitle")).
Proof.
  assert (Forall (soundField cfg) (formatFields cfg st fields bibtexType)) as Hall.
  { unfold formatFields. generalize (Js.entries fields) as l. intros l.
    assert (Forall (soundField cfg) []) as H0 by constructor.
    revert H0. generalize (@nil (string * Js.value)) as acc.
    induction l as [|kv l IH]; intros acc Hacc; [done|].
    cbn [fold_left]. by apply IH, formatField_sound. }
  rewrite Forall_forall in Hall.
  split; intros x Hx%get_Some_elem; apply (Hall _ Hx).
Qed.

Lemma formatted_fields_are_not_empty_witness :
  formatFields defaultConfig initial [("title", "On Things"); ("volume", "  "); ("year", "")]
    (Js.Str "misc")
    = [("title", Js.Str "{On Things}")]
  ∧ Js.truthy "{On Things}" = true.
Proof.
  split; [reflexivity|].
  destruct (formatted_fields_are_not_empty defaultConfig initial
              [("title", "On Things"); ("volume", "  "); ("year", "")] (Js.Str "misc") "title")
    as [Htext _].
  apply Htext. reflexivity.
Defined.

End FormattedFields.

Section EngineResult.
Import Dom ConversionEngine.

(** X24.  The engine counts no entry exactly when its output is the
    comment that no reference was found. *)
Theorem no_entry_means_no_reference_comment timestamp elapsed (xmlDoc : document) options res :
  convertXMLToBibTeX timestamp elapsed xmlDoc options = inl res →
  entryCount res = 0%nat ↔ bibtex res = "% No references found to convert".
Proof.
  unfold convertXMLToBibTeX. destruct (docQuerySelector xmlDoc _); [done|].
  destruct (extractReferences xmlDoc options) as [references warnings].
  destruct references as [|ref refs].
  - cbn [convertToBibTeX]. by intros [= <-].
  - unfold convertToBibTeX. destruct (formatEntries options (ref :: refs)); [|done].
    intros [= <-]. cbn [entryCount bibtex]. split; [done|]. unfold generateStyleHeader.
    rewrite <- !string_app_assoc. intros H. rewrite !string_app_cons in H. discriminate H.
Qed.

Lemma no_entry_means_no_reference_comment_witness :
  ∃ res, convertXMLToBibTeX "now" 0 libraryDocument standardOptions = inl res
         ∧ entryCount res = 0%nat ∧ bibtex res = "% No references found to convert".
Proof.
  eexists. split; [reflexivity|]. split; [reflexivity|].
  by apply (no_entry_means_no_reference_comment "now" 0 libraryDocument standardOptions).
Defined.

End EngineResult.

(** ** Rate limiting *)

Section RateLimit.
Import ExternalAPIManager.

(** X25.  When the delay has been configured, in seconds, two calls in
    a row are recorded at least that delay apart: a call that comes
    before the delay has passed waits for the rest of it, and a call
    that comes after it does not wait. *)
Theorem rate_limit_spaces_calls (m : manager) (seconds : Z) (t : option Z) (now late : Z) :
  (0 ≤ late)%Z →
  let configured :=
    updateConfig {| configRateLimitDelay := Some seconds; configTimeout := t |} m in
  let result := rateLimit now late configured in
  (lastApiCall m + seconds * 1000 ≤ lastApiCall result.2)%Z
  ∧ (now < lastApiCall m + seconds * 1000 →
     result.1 = lastApiCall m + seconds * 1000 - now)%Z
  ∧ (lastApiCall m + seconds * 1000 ≤ now → result.1 = 0)%Z.
Proof.
  intros Hlate. cbv zeta. unfold rateLimit, updateConfig. cbv zeta.
  cbn [lastApiCall rateLimitDelay configRateLimitDelay fst snd].
  destruct (Z.ltb_spec (now - lastApiCall m) (seconds * 1000)); split_and!; lia.
Qed.

Lemma rate_limit_spaces_calls_witness :
  let configured :=
    updateConfig {| configRateLimitDelay := Some 2%Z; configTimeout := None |} constructed in
  let result := rateLimit 500 3 configured in
  result.1 = 1500%Z ∧ lastApiCall result.2 = 2003%Z.
Proof.
  pose proof (rate_limit_spaces_calls constructed 2 None 500 3) as H.
  cbv zeta in *. destruct H as (_ & Hwait & _); [lia|].
  split; [apply Hwait; vm_compute; reflexivity | reflexivity].
Defined.

End RateLimit.

(** ** Styled text *)

Section StyledText.
Import Dom XMLConverter.

(** the node that [update] has written is the node found there *)
Lemma sub_update f p h h' :
  sub h p = Some h' →
  sub {| ancestors := ancestors h; self := update f p (self h) |} p
  = Some {| ancestors := ancestors h'; self := f (self h') |}.
Proof.
  revert h. induction p as [|k p IH]; intros h.
  - by intros [= <-].
  - cbn [sub update]. destruct (self h) as [t|i cs] eqn:Hself; [done|].
    destruct (cs !! k) as [c|] eqn:Hk; [|done]. intros Hsub.
    cbn [self]. rewrite list_lookup_alter, Hk, decide_True by done.
    by apply (IH {| ancestors := i :: ancestors h; self := c |}).
Qed.

Lemma extractTextContent_unescaped cfg element d h i cs :
  escapeLatexChars cfg = false → extractStyledText cfg = true →
  sub (documentElement d) element.1 = Some h → self h = Elem i cs →
  extractTextContent cfg element d
  = (Js.trim (Js.collapseWs (textContent (applyStyles (Elem i cs)))),
     update (λ _, applyStyles (Elem i cs)) element.1 d).
Proof.
  intros Hesc Hstyled Hsub Hself. unfold extractTextContent. rewrite Hsub.
  destruct h as [anc n]. cbn [self] in Hself. subst n. by rewrite Hesc, Hstyled.
Qed.

(** X26.  Every reading of an element rewrites the styled text below it,
    in the document: a text in italics that is read a second time is
    wrapped a second time. *)
Theorem styled_text_is_wrapped_at_every_reading cfg (element : located) d h i si face t :
  escapeLatexChars cfg = false → extractStyledText cfg = true →
  sub (documentElement d) element.1 = Some h →
  self h = Elem i [Elem si [Text t]] →
  tagName si = "style" → lookupAttr "face" (attributes si) = Some face →
  Js.includes face "italic" = true → t ≠ "" →
  let first := extractTextContent cfg element d in
  let second := extractTextContent cfg element first.2 in
  first.1 = Js.trim (Js.collapseWs ("\textit{" +:+ t +:+ "}"))
  ∧ second.1 = Js.trim (Js.collapseWs ("\textit{\textit{" +:+ t +:+ "}}")).
Proof.
  intros Hesc Hstyled Hsub Hself Htag Hface Hitalic Ht first second.
  assert (Js.truthy face = true) as Hf by (by destruct face).
  assert (∀ x, Js.truthy x = true →
            applyStyles (Elem i [Elem si [Text x]])
            = Elem i [Elem si [Text ("\textit{" +:+ x +:+ "}")]]) as Hwrap.
  { intros x Hx. cbn [applyStyles textContent]. unfold styleMarkup, localName.
    rewrite Htag. cbn [afterColon Ascii.eqb Bool.eqb default String.eqb].
    by rewrite Hface, Hf, string_app_nil_r, Hx, Hitalic. }
  subst first second.
  rewrite (extractTextContent_unescaped cfg element d h i _ Hesc Hstyled Hsub Hself).
  cbn [fst snd]. rewrite Hwrap by (by apply truthy_ne).
  split; [cbn [textContent]; by rewrite !string_app_nil_r|].
  pose proof (sub_update (λ _, Elem i [Elem si [Text ("\textit{" +:+ t +:+ "}")]])
                element.1 (documentElement d) h Hsub) as Hsub'.
  cbn [documentElement ancestors self] in Hsub'.
  rewrite (extractTextContent_unescaped cfg element _ _ i _ Hesc Hstyled Hsub' eq_refl).
  cbn [fst]. rewrite Hwrap by done.
  cbn [textContent]. rewrite !string_app_nil_r.
  do 2 f_equal. rewrite !string_app_cons, !string_app_nil_l. do 16 f_equal.
  by rewrite string_app_assoc.
Qed.

Lemma styled_text_is_wrapped_at_every_reading_witness :
  let first := extractTextContent unescaped styledTitle styledDocument in
  let second := extractTextContent unescaped styledTitle first.2 in
  first.1 = "\textit{Dune}" ∧ second.1 = "\textit{\textit{Dune}}".
Proof.
  apply (styled_text_is_wrapped_at_every_reading unescaped styledTitle styledDocument
           {| ancestors := [{| tagName := "record"; attributes := [] |};
                            {| tagName := "xml"; attributes := [] |}];
              self := styledTitle.2 |}
           {| tagName := "title"; attributes := [] |}
           {| tagName := "style"; attributes := [("face", "italic")] |} "italic" "Dune");
    try reflexivity. discriminate.
Defined.

(** the title of the entry has been read three times *)
Example styled_title_in_the_entry :
  entries (convertToBibtex unescaped None None "now" styledDocument)
  = [ "@misc{Herbert1965textittextitdune,
  title = {\textit{\textit{\textit{Dune}}}},
  author = {Frank Herbert},
  year = {1965}
}" ].
Proof. vm_compute. reflexivity. Qed.

End StyledText.

(** ** The BibLaTeX style of the engine *)

Section BiblatexStyle.
Import ConversionEngine.

Lemma get_delete {V : Type} (o : Js.Obj V) k k' :
  Js.get (Js.delete k o) k' = if String.eqb k k' then None else Js.get o k'.
Proof.
  unfold Js.delete. induction o as [|[k0 v0] o IH]; cbn [List.filter Js.get fst].
  - by destruct (String.eqb k k').
  - destruct (String.eqb_spec k0 k) as [->|Hne]; cbn [negb].
    + rewrite IH. destruct (String.eqb_spec k k') as [->|?]; [done|].
      by destruct (String.eqb_spec k k').
    + cbn [Js.get]. rewrite IH.
      destruct (String.eqb_spec k0 k') as [->|?]; [|done].
      by destruct (String.eqb_spec k k').
Qed.

Lemma digit_not_hyphen c : Js.isDigit c = true → Ascii.eqb "-" c = false.
Proof. destruct c as [[] [] [] [] [] [] [] []]; vm_compute; congruence. Qed.

Lemma beforeSep_digits d r :
  Js.forallb Js.isDigit d = true → Js.beforeSep "--" (d +:+ "--" +:+ r) = d.
Proof.
  induction d as [|c d IH]; [done|]. cbn [Js.forallb].
  intros [Hc Hd]%andb_true_iff. rewrite string_app_cons. cbn [Js.beforeSep Js.startsWith].
  by rewrite (digit_not_hyphen c Hc), IH.
Qed.

Lemma afterSep_digits d r :
  Js.forallb Js.isDigit d = true → Js.afterSep "--" (d +:+ "--" +:+ r) = r.
Proof.
  induction d as [|c d IH]; [done|]. cbn [Js.forallb].
  intros [Hc Hd]%andb_true_iff. rewrite string_app_cons. cbn [Js.afterSep Js.startsWith].
  by rewrite (digit_not_hyphen c Hc), IH.
Qed.

Lemma beforeSep_all_digits d : Js.forallb Js.isDigit d = true → Js.beforeSep "--" d = d.
Proof.
  induction d as [|c d IH]; [done|]. cbn [Js.forallb].
  intros [Hc Hd]%andb_true_iff. cbn [Js.beforeSep Js.startsWith].
  by rewrite (digit_not_hyphen c Hc), IH.
Qed.

Lemma includes_digits_hyphens d r :
  Js.includes (d +:+ "--" +:+ r) "--" = true.
Proof.
  induction d as [|c d IH]; [done|]. rewrite string_app_cons. cbn [Js.includes].
  rewrite IH. apply orb_true_r.
Qed.

Lemma trim_digits d : Js.forallb Js.isDigit d = true → Js.trim d = d.
Proof.
  intros Hd. destruct d as [|c d]; [done|]. apply trim_fixed.
  - by apply trimStart_digits.
  - rewrite <- (string_app_nil_l (String c d)). by apply rev_digits_end.
Qed.

(** X27.  With the citation style [biblatex], the journal of a reference
    becomes its [journaltitle], and a page range with a double hyphen is
    split: [pages] keeps the first page, and the last page goes to
    [endpages]. *)
Theorem biblatex_style_splits_the_pages (ref : Reference) (options : ConversionOptions)
    (j d1 d2 : string) :
  citationStyle options = "biblatex" →
  Js.get ref "journal" = Some j → j ≠ "" →
  Js.get ref "pages" = Some (d1 +:+ "--" +:+ d2) →
  Js.forallb Js.isDigit d1 = true → Js.forallb Js.isDigit d2 = true →
  let styled := applyCitationStyle ref options in
  Js.get styled "journal" = None
  ∧ Js.get styled "journaltitle" = Some j
  ∧ Js.get styled "pages" = Some d1
  ∧ Js.get styled "endpages" = Some d2.
Proof.
  intros Hstyle Hj Hne Hp Hd1 Hd2 styled. subst styled.
  unfold applyCitationStyle. rewrite Hstyle.
  cbn [String.eqb Ascii.eqb Bool.eqb]. cbv zeta.
  assert (field ref "journal" = j) as Hfj by (unfold field; by rewrite Hj).
  apply truthy_ne in Hne. rewrite !Hfj, Hne.
  set (moved := Js.delete "journal" (Js.set "journaltitle" j ref)).
  assert (field moved "pages" = d1 +:+ "--" +:+ d2) as Hpages.
  { unfold field, moved. rewrite get_delete, get_set. cbn [String.eqb Ascii.eqb Bool.eqb].
    by rewrite Hp. }
  rewrite Hpages, includes_digits_hyphens.
  assert (Js.truthy (d1 +:+ "--" +:+ d2) = true) as -> by (by destruct d1).
  cbn [andb]. rewrite beforeSep_digits, afterSep_digits, beforeSep_all_digits by done.
  rewrite !trim_digits by done.
  rewrite !get_set. cbn [String.eqb Ascii.eqb Bool.eqb].
  unfold moved. rewrite !get_delete, !get_set. cbn [String.eqb Ascii.eqb Bool.eqb].
  done.
Qed.

Lemma biblatex_style_splits_the_pages_witness :
  let options :=
    {| includeAbstract := false; includeKeywords := false; includeNotes := false;
       preserveFormatting := false; customFields := []; citationStyle := "biblatex";
       escapeLatex := true; suppressWarnings := false |} in
  applyCitationStyle
    [("id", "hopper1999"); ("type", "article"); ("journal", "Computer"); ("pages", "10--20")]
    options
  = [("id", "hopper1999"); ("type", "article"); ("pages", "10");
     ("journaltitle", "Computer"); ("endpages", "20")]
  ∧ Js.get (applyCitationStyle
              [("id", "hopper1999"); ("type", "article"); ("journal", "Computer");
               ("pages", "10--20")] options) "endpages" = Some "20".
Proof.
  cbv zeta. split; [reflexivity|].
  apply (biblatex_style_splits_the_pages _ _ "Computer" "10" "20"); try reflexivity.
  discriminate.
Defined.

End BiblatexStyle.
